(* ===== verification/_CoqProject ===== *)
-Q . S2P
Prelude.v
JsMap.v
Glob.v
UrlMatch.v
Hook.v
Script.v
Resource.v
Menu.v
JsNumber.v
Runtime.v
Events.v
Listener.v
Interleave.v
Sandbox.v
