(* ===== verification/Prelude.v ===== *)
(** * A verification development of ScriptCat's background script runtime

    The program.  Three sources of the repository are modelled:
    [src/runtime/background/runtime.ts] (class [Runtime], the orchestrator
    of the extension's background page), [src/app/service/script/event.ts]
    (class [ScriptEventListener]: the upsert/enable/disable/delete requests
    of the UI, which write the script store and trigger
    [ScriptManager.hook]) and [src/sandbox.ts] (the sandbox page's start-up
    handshake).  They interact through hooks (listener lists run in
    registration order: [ScriptManager.hook], [Runtime.hook], the GM API's
    menu hook), through request/response messages to the sandbox
    ([MessageSandbox.syncSend]) and through the script store.

    Files, in dependency order (each opens with a comment saying what it
    holds):
    - [Prelude]  this file: the promise/state monad [M] the asynchronous
                 handlers are written in (outcomes [Resolved], [Rejected]
                 and [Pending], the last for a promise that never settles;
                 [fire] for a promise nobody awaits), JS values with [===],
                 [keeps] (a computation preserves a property), the hint
                 databases [js] and [keeps], and the shared tactics.
    - [JsMap]    the JS [Map] (an insertion-ordered association list, [set]
                 of a present key in place) used for [runBackScript],
                 [scriptMenu] and each [tabMap], refined by stdpp's [gmap];
                 and the integer-keyed JS object ([IntObj]) whose keys
                 enumerate in ascending order, used by [matchUrl].
    - [Glob], [UrlMatch], [Hook], [Script]: what the sources import and
                 do not contain (src/pkg/utils/match.ts, the hook class,
                 the repository types), modelled from the spec and marked
                 spec_modelled in the manifest: the glob language of include
                 rules (matcher proved against an inductive semantics), the
                 rule index behind [UrlMatch] and [UrlInclude], hooks, and
                 the data model with the [Env] record of the runtime's
                 collaborators (value and resource stores, compilers,
                 random strings, the sandbox's answers).
    - [Resource] [buildScriptRunResource] (runtime.ts 595-621).
    - [Menu]     the menu registry of [start()] (runtime.ts 158-235):
                 [registerMenu], [unregisterMenu], tab activation.
    - [JsNumber] JS numbers holding integers at the width of a double
                 ([round53], [js_add]), [parseInt(s, 10)] and
                 [Number.prototype.toString] (shortest digits, exponent form
                 from [10^21]) as the badge counter uses them (runtime.ts
                 411).
    - [Runtime]  the orchestrator's state [World] (the fields of [Runtime]
                 and the locals of [start()]: indexes, background cache,
                 menu registry, hooks, flag, inject source, badge texts, the
                 trace of outside effects) and one definition per method
                 or handler: [matchUrl], [loadPageScript], [enable],
                 [disable], [scriptUpdate], [scriptDelete], the background
                 script RPCs, the start/stop requests, [pageLoad],
                 [queryPageScript], the run-status hook and its watchers,
                 the constructor and [start()].
    - [Events]   [ScriptEventListener]'s store-writing handlers (event.ts),
                 the dispatch of [ScriptManager.hook] to the runtime's
                 listeners, the system's step relation [step], its
                 [reachable] states and their invariant, and the spec's
                 end-to-end scenarios.
    - [Listener] the registration side of event.ts: the [events] object
                 the [ListenEventDecorator]s fill, the constructor's
                 [listenEvent] calls, the [fetch] and [checkUpdate]
                 handlers, and a request's dispatch to a bound handler.
                 The manager is the interface [EventManager] (a type class
                 with one law, [EventManagerLaws]); [hook_manager] is its
                 instance by the spec's name-to-handler-list mapping.
    - [Interleave] the handlers split at the callbacks the event loop
                 runs later: [enableHandler_sync] and [upsertHandler_sync]
                 stop at the await of [Runtime.enable] (runtime.ts 487),
                 [pageLoad_sync] at the [getBadgeText] call (line 405),
                 [scriptRunStatus_sync] at the store read of the
                 run-status cache listener (line 250);
                 each returns the callbacks it leaves pending ([cont]).
                 [cstep] serves requests while callbacks are pending and
                 runs any of them at any time.
    - [Sandbox]  the handshake of sandbox.ts as an event loop over a timed
                 queue of timer and acknowledgement events.

    How the parts interact in the model.  event.ts's handlers (Events)
    write the store ([World.dao]) and trigger [ScriptManager.hook], whose
    listeners are the runtime's [scriptUpdate]/[scriptDelete] and the
    background-cache listeners of [start()] (Runtime); [Events.step] runs
    one handler of either class to completion.  [Listener] connects the
    manager's requests to those handlers: every request the
    constructor's registrations serve is a [step] (or changes nothing,
    lemma [listener_requests_are_steps]), so the invariant C18 covers
    them.  [Interleave] refines [Events]: an atomic handler is the
    schedule of its split form in which the suspended calls resume at once
    (lemma [handlers_split_refine]), and its invariant is C18's.  The
    page-load handler uses [Menu]'s registry, [Resource]'s builds and
    [JsNumber]'s arithmetic through the [World].

    Theorems (claim ids in the doc comments).  Runtime: C1 (what
    [matchUrl] returns), C2-C4 (delete-then-add of a page script's rules,
    enable twice, a failed build changes nothing), C10-C11 (one RPC per
    background enable/disable), C12, C14 (what disabling and deleting
    leave in the indexes), C13, C15-C17, C35 (page load: filtering, no
    answer, run-at timings, the badge count exact up to [2^53], bootstrap
    first), C24 (run-status fan-out to watchers), C25-C27 (start/stop
    error paths, the two [enable] listeners commute), C34 (a page script
    edited into a background script keeps its rules), C36 (the background
    cache refines a [gmap] under the [enable]/[disable] listeners).  Menu:
    C5-C8 (first registration wins, the two loop bugs, an unregistration
    drops the owner), C9 (the registry is well typed: owner keys and the
    placement of every command).  Events: C18 (the invariant of every
    reachable state, by rule induction on [step]), C19-C20 (the background
    cache, and the popup's list of background scripts, left stale by a
    failed enable or a delete), C21 (the handlers' error paths), C22
    ([start()] indexes every disabled page script of any store; the spec's
    scenarios A and B are plain examples), C33 (an upsert saves).
    Interleave: C23 (a disable served during an enable's build, or during
    the run-status listener's store read, is undone when the callback
    runs: a disabled script is injected, runs in the sandbox, or is listed
    by the popup as enabled), C28 (two page loads of one tab whose badge
    reads overlap lose the first one's count).  Listener: C29 (the
    constructor registers each decorated method once, for any lawful
    manager).  Resource: C32 (what a resolved build holds, key by key).
    JsNumber holds the lemmas on [parseInt] and [toString] that C17 uses.
    Sandbox: C30-C31 (the handshake never stops when acknowledgements are
    late; it stops after the first prompt one), C37 (at most one message a
    second, whatever the answers).

    Modelling choices.  Ids are [nat]; the numbers of the badge counter are
    [Z] rounded to doubles ([JsNumber.round53]), so the saturation at
    [2^53] is in the model.  In [Events] a handler runs to completion as
    one step, its awaits included; what it sends out is appended to
    [trace].  [Interleave] splits the handlers at the three callbacks
    after which the state changes again: the build in [enable], the
    [getBadgeText] callback of [pageLoad], and the store read of the
    run-status cache listener.  The other awaits (the store read that
    starts a handler of event.ts, the un-awaited store writes, the build
    of a single run in [startBackgroundScript], the sandbox's answers,
    which only lead to log lines) stay inside a step.  The browser serves
    the extension's API calls, and the store its requests, in the order
    they are made, so [getBadgeText] and [findById] read the value current
    when they are called.  Every interleaved step is a schedule of the JS
    event loop, so a schedule the model exhibits (C23, C28) is one the
    program can run.
    Collaborators are fields of [Env] (and [DaoEnv], [ListenerEnv]), so
    every theorem holds for all their behaviours.  The only fuel is
    [Sandbox.run]'s; its theorems give the number of steps needed, or hold
    for every amount.

    Not modelled.  The logger beyond the [E_log] effects; the compilers'
    output; the transport of messages itself; [genScriptMenu] (an effect
    of the trace); the IoC and logger set-up of sandbox.ts lines 1-22,
    which only registers instances; what [ScriptManager.checkUpdate] does
    beyond its answer.  The in-place mutation of the script object by
    [buildScriptRunResource] ([Object.assign(script)] returns the caller's
    object) is modelled as a fresh record: the aliases the sources keep
    ([runBackScript], the later listeners of the same trigger) read only
    [id], [name], [status], the times, [runStatus] and [config], none of
    which the build writes.
*)

From stdpp Require Export base list option gmap strings.
From Stdlib Require Export ZArith Ascii Lia.
From Stdlib Require String.
From Stdlib Require Export Sorting.Sorted.

Declare Scope js_scope.
Delimit Scope js_scope with js.
Open Scope js_scope.

Create HintDb js discriminated.
Create Rewrite HintDb js_rw.
Create HintDb keeps discriminated.
Create HintDb yields discriminated.

(** ** JavaScript errors and promise outcomes *)

(** The rejections the modelled code produces: [Error] objects thrown by
    the code itself, [TypeError]s from reading a property of [undefined],
    and the errors of the external collaborators. *)
Inductive js_error :=
  | Err_message (msg : string)          (** [new Error(msg)] *)
  | Err_type (what : string)            (** a [TypeError] raised by the engine *)
  | Err_external (who : string).        (** a rejection of an external service *)

#[export] Instance js_error_eq_dec : EqDecision js_error.
Proof. solve_decision. Defined.

(** The outcome of a promise: it resolves, it rejects, or it never settles. *)
Inductive outcome (A : Type) :=
  | Resolved (a : A)
  | Rejected (e : js_error)
  | Pending.
Arguments Resolved {A} a.
Arguments Rejected {A} e.
Arguments Pending {A}.

(** ** The state-and-promise monad *)

(** An asynchronous handler over a state [S]: it runs to completion and
    returns the state it leaves together with the outcome of its promise.
    A [Pending] or [Rejected] outcome stops the [await]s that follow it,
    but the state changes made before stay, as in JS. *)
Definition M (S A : Type) : Type := S -> outcome A * S.

Definition ret {S A} (a : A) : M S A := fun s => (Resolved a, s).
Definition throw {S A} (e : js_error) : M S A := fun s => (Rejected e, s).
Definition pending {S A} : M S A := fun s => (Pending, s).
Definition get {S} : M S S := fun s => (Resolved s, s).
Definition modify {S} (f : S -> S) : M S unit := fun s => (Resolved tt, f s).

Definition bind {S A B} (c : M S A) (k : A -> M S B) : M S B :=
  fun s =>
    match c s with
    | (Resolved a, s') => k a s'
    | (Rejected e, s') => (Rejected e, s')
    | (Pending, s') => (Pending, s')
    end.

(** [p.catch(h)]: the handler runs on a rejection only. *)
Definition catch {S A} (c : M S A) (h : js_error -> M S A) : M S A :=
  fun s =>
    match c s with
    | (Rejected e, s') => h e s'
    | r => r
    end.

(** A promise that is started and not awaited: its effects happen, its
    outcome is dropped (an unhandled rejection). *)
Definition fire {S A} (c : M S A) : M S unit :=
  fun s => (Resolved tt, snd (c s)).

(** Lift a promise outcome computed outside the state. *)
Definition lift {S A} (o : outcome A) : M S A := fun s => (o, s).

Notation "'await' x <- c ;; k" := (bind c (fun x => k))
  (at level 100, x name, c at next level, right associativity) : js_scope.
Notation "'await_' c ;; k" := (bind c (fun _ => k))
  (at level 100, c at next level, right associativity) : js_scope.

Definition outcome_state {S A} (c : M S A) (s : S) : S := snd (c s).
Definition outcome_of {S A} (c : M S A) (s : S) : outcome A := fst (c s).

(** ** Monad laws *)

Lemma bind_ret_l {S A B} (a : A) (k : A -> M S B) s :
  bind (ret a) k s = k a s.
Proof. reflexivity. Qed.

Lemma bind_ret_r {S A} (c : M S A) s : bind c ret s = c s.
Proof. unfold bind, ret. by destruct (c s) as [[] ?]. Qed.

Lemma bind_assoc {S A B C} (c : M S A) (k : A -> M S B) (k' : B -> M S C) s :
  bind (bind c k) k' s = bind c (fun a => bind (k a) k') s.
Proof. unfold bind. by destruct (c s) as [[] ?]. Qed.

Lemma bind_throw {S A B} e (k : A -> M S B) s :
  bind (throw e) k s = (Rejected e, s).
Proof. reflexivity. Qed.

Lemma bind_pending {S A B} (k : A -> M S B) s :
  bind pending k s = (Pending, s).
Proof. reflexivity. Qed.

(** Running [bind c k] when [c] is known. *)
Lemma bind_resolved {S A B} (c : M S A) (k : A -> M S B) s a s' :
  c s = (Resolved a, s') -> bind c k s = k a s'.
Proof. intros H. unfold bind. by rewrite H. Qed.

Lemma bind_rejected {S A B} (c : M S A) (k : A -> M S B) s e s' :
  c s = (Rejected e, s') -> bind c k s = (Rejected e, s').
Proof. intros H. unfold bind. by rewrite H. Qed.

Lemma bind_pending_of {S A B} (c : M S A) (k : A -> M S B) s s' :
  c s = (Pending, s') -> bind c k s = (Pending, s').
Proof. intros H. unfold bind. by rewrite H. Qed.

(** Mapping the result of a computation leaves its state as it is. *)
Lemma outcome_state_bind_ret {S A B} (c : M S A) (f : A -> B) s :
  outcome_state (bind c (fun a => ret (f a))) s = outcome_state c s.
Proof. unfold outcome_state, bind. by destruct (c s) as [[] ?]. Qed.

#[export] Hint Rewrite @bind_ret_l @bind_throw @bind_pending : js_rw.

(** ** Invariants of computations *)

(** [c] keeps [P]: from a state where [P] holds, [c] leaves one where it
    holds, whatever its outcome. *)
Definition keeps {S A} (P : S -> Prop) (c : M S A) : Prop :=
  forall s, P s -> P (outcome_state c s).

Lemma keeps_ret {S A} P (a : A) : keeps (S := S) P (ret a).
Proof. by intros s. Qed.
Lemma keeps_throw {S A} P e : keeps (S := S) (A := A) P (throw e).
Proof. by intros s. Qed.
Lemma keeps_pending {S A} P : keeps (S := S) (A := A) P pending.
Proof. by intros s. Qed.
Lemma keeps_get {S} (P : S -> Prop) : keeps P get.
Proof. by intros s. Qed.
Lemma keeps_lift {S A} P (o : outcome A) : keeps (S := S) P (lift o).
Proof. by intros s. Qed.

Lemma keeps_modify {S} (P : S -> Prop) f : (forall s, P s -> P (f s)) -> keeps P (modify f).
Proof. intros Hf s. apply Hf. Qed.

Lemma keeps_bind {S A B} P (c : M S A) (k : A -> M S B) :
  keeps P c -> (forall a, keeps P (k a)) -> keeps P (bind c k).
Proof.
  intros Hc Hk s Hs. specialize (Hc s Hs). unfold outcome_state, bind in *.
  destruct (c s) as [[a| |] s']; simpl in *; [by apply Hk|done|done].
Qed.

Lemma keeps_catch {S A} P (c : M S A) h :
  keeps P c -> (forall e, keeps P (h e)) -> keeps P (catch c h).
Proof.
  intros Hc Hh s Hs. specialize (Hc s Hs). unfold outcome_state, catch in *.
  destruct (c s) as [[a|e|] s']; simpl in *; [done|by apply Hh|done].
Qed.

Lemma keeps_fire {S A} P (c : M S A) : keeps P c -> keeps P (fire c).
Proof. intros Hc s. apply Hc. Qed.

#[export] Hint Resolve keeps_ret keeps_throw keeps_pending keeps_get keeps_lift
  keeps_bind keeps_catch keeps_fire : keeps.

(** ** JavaScript values compared with [===] *)

(** The values that flow through [request.params]: numbers, strings and
    [undefined] (an index past the end of an array). *)
Inductive jsval :=
  | JNum (n : Z)
  | JStr (s : string)
  | JUndef.

#[export] Instance jsval_eq_dec : EqDecision jsval.
Proof. solve_decision. Defined.

(** Strict equality [===] on these values is structural equality. *)
Definition strict_eq (a b : jsval) : bool := bool_decide (a = b).

(** [arr[i]] on a JS array: [undefined] past the end. *)
Definition js_index (l : list jsval) (i : nat) : jsval :=
  default JUndef (l !! i).

Lemma strict_eq_spec a b : strict_eq a b = true <-> a = b.
Proof. unfold strict_eq. apply bool_decide_eq_true. Qed.

(** ** Generic list facts *)

Lemma filter_all_true {A} (P : A -> Prop) `{!forall x, Decision (P x)} (l : list A) :
  (forall x, x ∈ l -> P x) -> filter P l = l.
Proof.
  induction l as [|x l IH]; intros Hall; [done|].
  rewrite filter_cons, decide_True by (apply Hall; left).
  f_equal. apply IH. intros y Hy. apply Hall. by right.
Qed.

Lemma filter_all_false {A} (P : A -> Prop) `{!forall x, Decision (P x)} (l : list A) :
  (forall x, x ∈ l -> ~ P x) -> filter P l = [].
Proof.
  induction l as [|x l IH]; intros Hall; [done|].
  rewrite filter_cons, decide_False by (apply Hall; left).
  apply IH. intros y Hy. apply Hall. by right.
Qed.

Lemma filter_map {A B} (f : A -> B) (P : B -> Prop) `{!forall x, Decision (P x)} (l : list A) :
  filter P (map f l) = map f (filter (fun x => P (f x)) l).
Proof.
  induction l as [|x l IH]; [done|]. simpl. rewrite !filter_cons.
  case_decide; simpl; by rewrite IH.
Qed.

(** ** Invariants of step relations *)

(** A property preserved by every step holds in every reachable state. *)
Lemma rtc_invariant {A} (R : relation A) (P : A -> Prop) x y :
  P x -> (forall a b, R a b -> P a -> P b) -> rtc R x y -> P y.
Proof. intros Hx Hstep Hr. induction Hr; eauto. Qed.

(** ** Shared tactics *)

(** Unfold one step of the monad and the JS helpers, then simplify. *)
Ltac js_simpl :=
  repeat (unfold bind, ret, throw, pending, get, modify, fire, lift, catch in *);
  simpl in *.

(** Case analysis on the [if]s and [match]es left by a handler. *)
Ltac js_cases :=
  repeat (case_match; simplify_eq/=; try done).
