(* ===== verification/JsMap.v ===== *)
(** * JavaScript maps and integer-keyed objects

    [JsMap] models the ECMAScript [Map] the runtime keeps its caches in
    ([runBackScript : Map<number, Script>], [scriptMenu] and its inner
    [tabMap]s): an association list in insertion order, where [set] of a
    present key replaces the value in place and [set] of a new key appends.
    Its abstract specification is stdpp's [gmap]: [to_gmap] is a refinement
    map, and [get]/[set]/[delete] implement [lookup]/[insert]/[delete].

    [IntObj] models the plain object [filter] of [Runtime.matchUrl], indexed
    by script id: ECMAScript orders the integer keys of an object ascending,
    so [Object.keys] yields the ids sorted. *)

From S2P Require Import Prelude.

Module JsMap.
Section JsMap.
Context {K V : Type} `{EqDecision K}.
Implicit Types (k : K) (v : V) (m : list (K * V)).

(** [new Map()] *)
Definition empty : list (K * V) := [].

(** [m.get(k)] *)
Fixpoint get k m : option V :=
match m with
| [] => None
| (k', v') :: m' => if decide (k = k') then Some v' else get k m'
end.

(** [m.has(k)] *)
Definition has k m : bool := bool_decide (is_Some (get k m)).

(** [m.set(k, v)]: in place when [k] is present, appended otherwise. *)
Fixpoint set k v m : list (K * V) :=
match m with
| [] => [(k, v)]
| (k', v') :: m' =>
    if decide (k = k') then (k, v) :: m' else (k', v') :: set k v m'
end.

(** [m.delete(k)] *)
Fixpoint delete k m : list (K * V) :=
match m with
| [] => []
| (k', v') :: m' => if decide (k = k') then m' else (k', v') :: delete k m'
end.

(** Iteration order of [m.forEach], [m.keys()] and [m.values()]. *)
Definition keys m : list K := map fst m.
Definition values m : list V := map snd m.

(** The well-formedness invariant: every key occurs once. *)
Definition wf m : Prop := NoDup (keys m).

(** The abstract map that a JS [Map] denotes. *)
Definition to_gmap `{Countable K} m : gmap K V := list_to_map m.

(** *** Lookup equations *)

Lemma get_set_eq k v m : get k (set k v m) = Some v.
Proof.
induction m as [|[k' v'] m IH]; simpl; [by rewrite decide_True|].
case_decide; simpl; [by rewrite decide_True|by rewrite decide_False].
Qed.

Lemma get_set_ne k k' v m : k <> k' -> get k' (set k v m) = get k' m.
Proof.
intros Hne. induction m as [|[k0 v0] m IH]; simpl.
- by rewrite decide_False.
- case_decide; subst; simpl.
  + by rewrite !decide_False.
  + case_decide; [done|apply IH].
Qed.

Lemma get_delete_ne k k' m : k <> k' -> get k' (delete k m) = get k' m.
Proof.
intros Hne. induction m as [|[k0 v0] m IH]; simpl; [done|].
case_decide; subst; simpl.
- by rewrite decide_False.
- case_decide; [done|apply IH].
Qed.

Lemma get_None_not_in k m : get k m = None <-> k ∉ keys m.
Proof.
induction m as [|[k0 v0] m IH]; simpl.
- split; [intros _; apply not_elem_of_nil|done].
- rewrite elem_of_cons. case_decide; [naive_solver|]. rewrite IH. naive_solver.
Qed.

Lemma get_delete_eq k m : wf m -> get k (delete k m) = None.
Proof.
unfold wf, keys. intros Hwf. induction m as [|[k0 v0] m IH]; simpl; [done|].
apply NoDup_cons in Hwf as [Hnin Hwf].
case_decide; subst; simpl.
- by apply get_None_not_in.
- rewrite decide_False by done. auto.
Qed.

Lemma get_Some_in k v m : get k m = Some v -> (k, v) ∈ m.
Proof.
induction m as [|[k0 v0] m IH]; simpl; [done|].
case_decide; intros Hg; simplify_eq; rewrite elem_of_cons; auto.
Qed.

Lemma set_get k v m : get k m = Some v -> set k v m = m.
Proof.
induction m as [|[k0 v0] m IH]; simpl; [done|].
case_decide; intros Hg; simplify_eq/=; [done|]. by rewrite IH.
Qed.

Lemma get_set k k' v m : get k' (set k v m) = if decide (k' = k) then Some v else get k' m.
Proof. case_decide; subst; [apply get_set_eq|by apply get_set_ne]. Qed.

Lemma get_delete k k' m : wf m -> get k' (delete k m) = if decide (k' = k) then None else get k' m.
Proof. intros Hwf. case_decide; subst; [by apply get_delete_eq|by apply get_delete_ne]. Qed.

Lemma set_set k v v' m : set k v (set k v' m) = set k v m.
Proof.
induction m as [|[k0 v0] m IH]; simpl; [by rewrite decide_True|].
case_decide; simpl; [by rewrite decide_True|]. rewrite decide_False by done. by rewrite IH.
Qed.

(** *** Keys and order *)

Lemma keys_set_present k v m :
k ∈ keys m -> keys (set k v m) = keys m.
Proof.
unfold keys. induction m as [|[k0 v0] m IH]; simpl; [by rewrite elem_of_nil|].
rewrite elem_of_cons. case_decide; subst; simpl; [done|].
intros [->|Hin]; [done|]. by rewrite IH.
Qed.

Lemma keys_set_absent k v m :
k ∉ keys m -> keys (set k v m) = keys m ++ [k].
Proof.
unfold keys. induction m as [|[k0 v0] m IH]; simpl; [done|].
rewrite elem_of_cons. case_decide; subst; [naive_solver|].
intros Hnin. simpl. rewrite IH; naive_solver.
Qed.

Lemma keys_delete k m : wf m -> keys (delete k m) = filter (fun k' => k' <> k) (keys m).
Proof.
unfold wf, keys. induction m as [|[k0 v0] m IH]; simpl; intros Hwf; [done|].
apply NoDup_cons in Hwf as [Hnin Hwf].
rewrite filter_cons. case_decide; subst; simpl.
- rewrite decide_False by naive_solver. symmetry. apply filter_all_true.
  intros x Hx ->. by apply Hnin.
- rewrite decide_True by done. simpl. by rewrite IH.
Qed.

Lemma elem_of_set k v m kv : kv ∈ set k v m -> kv = (k, v) \/ kv ∈ m.
Proof.
induction m as [|[k0 v0] m IH]; simpl; [set_solver|].
case_decide; rewrite ?elem_of_cons; naive_solver.
Qed.

Lemma elem_of_delete k m kv : kv ∈ delete k m -> kv ∈ m.
Proof.
induction m as [|[k0 v0] m IH]; simpl; [done|].
case_decide; rewrite ?elem_of_cons; naive_solver.
Qed.

(** The keys of an updated map: the key written, and the old ones. *)
Lemma elem_of_keys_set k v m k' : k' ∈ keys (set k v m) -> k' = k \/ k' ∈ keys m.
Proof.
unfold keys. rewrite !list_elem_of_fmap. intros ([k1 v1] & -> & Hin).
apply elem_of_set in Hin as [Heq|Hin]; simplify_eq; [by left|right; by exists (k1, v1)].
Qed.

Lemma elem_of_keys_delete k m k' : k' ∈ keys (delete k m) -> k' ∈ keys m.
Proof.
unfold keys. rewrite !list_elem_of_fmap. intros (kv & -> & Hin). exists kv.
split; [done|]. by eapply elem_of_delete.
Qed.

Lemma wf_empty : wf empty.
Proof. constructor. Qed.

Lemma wf_set k v m : wf m -> wf (set k v m).
Proof.
unfold wf. intros Hwf. destruct (decide (k ∈ keys m)).
- by rewrite keys_set_present.
- rewrite keys_set_absent by done. apply NoDup_app. split; [done|].
  split; [set_solver|apply NoDup_singleton].
Qed.

Lemma wf_delete k m : wf m -> wf (delete k m).
Proof. intros Hwf. unfold wf. rewrite keys_delete by done. by apply NoDup_filter. Qed.

(** *** Refinement by [gmap] *)

Section Refinement.
Context `{Countable K}.

Lemma to_gmap_lookup m k : to_gmap m !! k = get k m.
Proof.
unfold to_gmap. induction m as [|[k0 v0] m IH]; simpl; [apply lookup_empty|].
rewrite lookup_insert. do 2 case_decide; congruence.
Qed.

Theorem to_gmap_set k v m : to_gmap (set k v m) = <[k:=v]> (to_gmap m).
Proof.
apply map_eq. intros k'. rewrite lookup_insert, !to_gmap_lookup.
case_decide; subst; [apply get_set_eq|by apply get_set_ne].
Qed.

Theorem to_gmap_delete k m : wf m -> to_gmap (delete k m) = base.delete k (to_gmap m).
Proof.
intros Hwf. apply map_eq. intros k'. rewrite lookup_delete, !to_gmap_lookup.
case_decide; subst; [by apply get_delete_eq|by apply get_delete_ne].
Qed.

Lemma to_gmap_empty : to_gmap empty = ∅.
Proof. reflexivity. Qed.
End Refinement.
End JsMap.
End JsMap.

#[export] Hint Resolve JsMap.wf_empty JsMap.wf_set JsMap.wf_delete : js.
#[export] Hint Rewrite @JsMap.get_set_eq @JsMap.get_delete_eq : js_rw.

Module IntObj.
Section IntObj.
Context {V : Type}.
Implicit Types (k : nat) (v : V) (o : list (nat * V)).

(** [o[k] = v] for an integer-like key [k]: the own keys of the object
  stay in ascending order, as ECMAScript's [OrdinaryOwnPropertyKeys]
  lists array-index keys. *)
Fixpoint oset k v o : list (nat * V) :=
match o with
| [] => [(k, v)]
| (k', v') :: o' =>
    if decide (k < k') then (k, v) :: o
    else if decide (k = k') then (k, v) :: o'
    else (k', v') :: oset k v o'
end.

(** [Object.keys(o)] and [Object.keys(o).map((key) => o[key])]. *)
Definition okeys o : list nat := map fst o.
Definition ovalues o : list V := map snd o.

(** The representation invariant: keys strictly ascending. *)
Definition sorted o : Prop := StronglySorted lt (okeys o).

Lemma okeys_oset k v o k' : k' ∈ okeys (oset k v o) <-> k' = k \/ k' ∈ okeys o.
Proof.
unfold okeys. induction o as [|[k0 v0] o IH]; simpl.
- set_solver.
- repeat case_decide; simpl; rewrite ?elem_of_cons, ?IH; naive_solver.
Qed.

Lemma sorted_oset k v o : sorted o -> sorted (oset k v o).
Proof.
unfold sorted, okeys. induction o as [|[k0 v0] o IH]; simpl; intros Hs.
- repeat constructor.
- inversion Hs as [|? ? Hs' Hall]; subst.
  repeat case_decide; simpl.
  + constructor; [done|]. constructor; [lia|].
    eapply Forall_impl; [done|]. simpl. lia.
  + subst. by constructor.
  + constructor; [by apply IH|]. apply Forall_forall. intros x Hx.
    apply (okeys_oset k v o x) in Hx as [->|Hx]; [lia|].
    by eapply Forall_forall in Hall.
Qed.

Lemma get_oset_eq k v o : JsMap.get k (oset k v o) = Some v.
Proof.
induction o as [|[k0 v0] o IH]; simpl; [by rewrite decide_True|].
case_decide; simpl; [by rewrite decide_True|].
case_decide; simpl; [by rewrite decide_True|].
by rewrite decide_False.
Qed.

Lemma get_oset_ne k k' v o : k <> k' -> JsMap.get k' (oset k v o) = JsMap.get k' o.
Proof.
intros Hne. induction o as [|[k0 v0] o IH]; simpl.
- by rewrite decide_False.
- case_decide; simpl; [by rewrite decide_False|].
  case_decide; simpl; [subst; by rewrite !decide_False|].
  case_decide; [done|apply IH].
Qed.

Lemma get_oset k k' v o : JsMap.get k' (oset k v o) = if decide (k' = k) then Some v else JsMap.get k' o.
Proof. case_decide; subst; [apply get_oset_eq|by apply get_oset_ne]. Qed.

(** The value an object ends up holding at key [k] after a sequence of
    writes: the last write to [k]. *)
Fixpoint last_with (k : nat) (l : list (nat * V)) : option V :=
  match l with
  | [] => None
  | (k', v') :: l' =>
      match last_with k l' with
      | Some v => Some v
      | None => if decide (k = k') then Some v' else None
      end
  end.

Lemma get_foldl_oset k l o :
  JsMap.get k (foldl (fun o kv => oset kv.1 kv.2 o) o l) =
  match last_with k l with Some v => Some v | None => JsMap.get k o end.
Proof.
  revert o. induction l as [|[k' v'] l IH]; intros o; simpl; [done|].
  rewrite IH. destruct (last_with k l); [done|]. rewrite get_oset. by case_decide.
Qed.

Lemma last_with_Some k l : is_Some (last_with k l) <-> exists v, (k, v) ∈ l.
Proof.
  induction l as [|[k' v'] l IH]; simpl.
  - split; [by intros []|]. intros [v Hv]. set_solver.
  - setoid_rewrite elem_of_cons. destruct (last_with k l) as [v0|] eqn:E.
    + split; [intros _|by eexists]. destruct IH as [[v Hv] _]; [by eexists|]. eauto.
    + case_decide; subst.
      * split; [intros _; eauto|by eexists].
      * split; [by intros []|]. intros [v [Hv|Hv]]; [congruence|].
        destruct IH as [_ [? ?]]; [eauto|congruence].
Qed.

Lemma last_with_in k l v : last_with k l = Some v -> (k, v) ∈ l.
Proof.
  induction l as [|[k' v'] l IH]; simpl; [done|]. rewrite elem_of_cons.
  destruct (last_with k l); [naive_solver|]. case_decide; naive_solver.
Qed.

Lemma okeys_foldl_oset l o k :
  k ∈ okeys (foldl (fun o kv => oset kv.1 kv.2 o) o l) <-> k ∈ okeys o \/ k ∈ map fst l.
Proof.
  revert o. induction l as [|[k' v'] l IH]; intros o; simpl.
  - set_solver.
  - rewrite IH, okeys_oset, elem_of_cons. naive_solver.
Qed.

Lemma sorted_foldl_oset l o : sorted o -> sorted (foldl (fun o kv => oset kv.1 kv.2 o) o l).
Proof. revert o. induction l; intros o Ho; simpl; auto using sorted_oset. Qed.

Lemma elem_of_oset k v o kv : kv ∈ oset k v o -> kv = (k, v) \/ kv ∈ o.
Proof.
  induction o as [|[k0 v0] o IH]; simpl; [set_solver|].
  repeat case_decide; rewrite ?elem_of_cons; [set_solver|set_solver|].
  intros [->|Hin]; [by right; left|]. destruct (IH Hin); [by left|by right; right].
Qed.

Lemma elem_of_foldl_oset l o kv :
  kv ∈ foldl (fun o kv => oset kv.1 kv.2 o) o l -> kv ∈ o \/ kv ∈ l.
Proof.
  revert o. induction l as [|[k v] l IH]; intros o; simpl; [by left|].
  intros Hin. destruct (IH _ Hin) as [Ho|Hl]; [|set_solver].
  destruct (elem_of_oset _ _ _ _ Ho); set_solver.
Qed.

(** The values of an object built from a list of writes come from it,
    and its keys are the keys written. *)
Lemma ovalues_foldl_oset l v :
  v ∈ ovalues (foldl (fun o kv => oset kv.1 kv.2 o) [] l) -> exists k, (k, v) ∈ l.
Proof.
  unfold ovalues. rewrite list_elem_of_fmap. intros ([k v'] & -> & Hin).
  destruct (elem_of_foldl_oset _ _ _ Hin) as [Hin'|Hin']; [set_solver|eauto].
Qed.

Lemma sorted_NoDup o : sorted o -> NoDup (okeys o).
Proof.
unfold sorted. induction 1 as [|x l Hs IH Hall]; constructor; [|done].
intros Hin. eapply Forall_forall in Hall; [|done]. lia.
Qed.

(** [delete obj[k]] keeps the keys ascending. *)
Lemma sorted_delete k o : sorted o -> sorted (JsMap.delete k o).
Proof.
unfold sorted, okeys. induction o as [|[k0 v0] o IH]; simpl; intros Hs; [done|].
apply StronglySorted_inv in Hs as [Hs Hall]. case_decide; [done|]. simpl.
constructor; [by apply IH|]. apply Forall_forall. intros k' Hk'.
apply list_elem_of_fmap in Hk' as ([k1 v1] & -> & Hin). apply JsMap.elem_of_delete in Hin.
eapply Forall_forall in Hall; [exact Hall|]. apply list_elem_of_fmap. by exists (k1, v1).
Qed.
End IntObj.
End IntObj.

#[export] Hint Resolve IntObj.sorted_oset IntObj.sorted_delete : js.
