(* ===== verification/Glob.v ===== *)
(** * Glob patterns

    The rules of [@match], [@include] and [@exclude] are globs in which [*]
    stands for any sequence of characters; every other character stands for
    itself.  [glob] is the executable matcher the URL matchers run; [lang]
    is the language a pattern denotes, and [glob_correct] shows the matcher
    decides it.  Strings are [list ascii], as the JS code scans them
    character by character. *)

From S2P Require Import Prelude.

Module Glob.

Definition star_char : ascii := "*"%char.

(** The [*] case: try the rest of the pattern at every suffix. *)
Fixpoint glob_star (g : list ascii -> bool) (s : list ascii) : bool :=
  g s || match s with [] => false | _ :: s' => glob_star g s' end.

Fixpoint glob (p s : list ascii) : bool :=
  match p with
  | [] => match s with [] => true | _ :: _ => false end
  | c :: p' =>
      if Ascii.eqb c star_char then glob_star (glob p') s
      else match s with
           | [] => false
           | c' :: s' => Ascii.eqb c c' && glob p' s'
           end
  end.

(** The language of a pattern. *)
Fixpoint lang (p s : list ascii) : Prop :=
  match p with
  | [] => s = []
  | c :: p' =>
      if Ascii.eqb c star_char then exists s1 s2, s = s1 ++ s2 /\ lang p' s2
      else exists s', s = c :: s' /\ lang p' s'
  end.

Lemma glob_star_spec (g : list ascii -> bool) s :
  glob_star g s = true <-> exists s1 s2, s = s1 ++ s2 /\ g s2 = true.
Proof.
  induction s as [|c s IH]; simpl; rewrite orb_true_iff.
  - split; [intros [H|H]; [by exists [], []|done]|].
    intros (s1 & s2 & Hs & Hg). destruct s1; [|done]. simpl in Hs. subst. by left.
  - rewrite IH. split.
    + intros [Hg|(s1 & s2 & -> & Hg)]; [by exists [], (c :: s)|].
      by exists (c :: s1), s2.
    + intros ([|c1 s1] & s2 & Hs & Hg); simpl in Hs; subst; [by left|].
      simplify_eq. right. eauto.
Qed.

(** The matcher decides the language. *)
Theorem glob_correct p s : glob p s = true <-> lang p s.
Proof.
  revert s. induction p as [|c p IH]; intros s; simpl.
  - destruct s; split; congruence.
  - destruct (Ascii.eqb c star_char).
    + rewrite glob_star_spec. setoid_rewrite IH. done.
    + destruct s as [|c' s].
      * split; [done|]. by intros (? & ? & ?).
      * rewrite andb_true_iff, Ascii.eqb_eq, IH. split.
        -- intros [-> H]. eauto.
        -- intros (s' & Hs & H). by simplify_eq.
Qed.

(** A pattern [*] matches everything. *)
Lemma glob_star_any (s : list ascii) : glob [star_char] s = true.
Proof. apply glob_correct. simpl. exists s, []. by rewrite app_nil_r. Qed.

(** A pattern without [*] matches exactly itself. *)
Lemma glob_literal (p s : list ascii) :
  star_char ∉ p -> glob p s = true <-> s = p.
Proof.
  rewrite glob_correct. revert s. induction p as [|c p IH]; intros s Hp; simpl; [done|].
  rewrite not_elem_of_cons in Hp. destruct Hp as [Hc Hp].
  destruct (Ascii.eqb c star_char) eqn:E; [apply Ascii.eqb_eq in E; congruence|].
  setoid_rewrite IH; [|done]. split; [by intros (? & -> & ->)|intros ->; eauto].
Qed.

(** A trailing [*] accepts every extension of an accepted prefix. *)
Lemma glob_prefix_star (p t : list ascii) :
  star_char ∉ p -> glob (p ++ [star_char]) (p ++ t) = true.
Proof.
  intros Hp. apply glob_correct. induction p as [|c p IH]; simpl.
  - exists t, []. by rewrite app_nil_r.
  - rewrite not_elem_of_cons in Hp. destruct Hp as [Hc Hp].
    destruct (Ascii.eqb c star_char) eqn:E; [apply Ascii.eqb_eq in E; congruence|].
    exists (p ++ t). auto.
Qed.
End Glob.
