(* ===== verification/UrlMatch.v ===== *)
(** * The URL matchers [UrlMatch] and [UrlInclude]

    [Runtime] keeps two indexes, [match: UrlMatch<ScriptRunResouce>] and
    [include: UrlInclude<ScriptRunResouce>] (runtime.ts, lines 67-69), and
    uses four operations of them: [add(rule, script)] (throws on a rule it
    cannot parse), [exclude(rule, script)], [del(script)] and [match(url)].
    Their implementation, src/pkg/utils/match.ts, is not among the sources:
    this file models them from the spec (section 4.1).

    - [Index] is the generic index: rules and exclusions in insertion order,
      each bound to a value; [ix_match] returns the values of the rules
      that cover the URL, in rule order, minus the values whose key has an
      exclusion covering it.  Its lemmas ([ix_match_del], [ix_match_add],
      ...) are the contract the runtime relies on.
    - [UrlMatch] instantiates it with match patterns
      [scheme://host/path]: scheme [*] is [http] or [https], host [*] is any
      host and [*.d] is [d] and its subdomains, the path is a glob.
    - [UrlInclude] instantiates it with globs over the whole URL. *)

From S2P Require Import Prelude Glob.

(** ** Splitting URLs *)

Module Url.

Fixpoint is_prefix (p s : list ascii) : bool :=
  match p, s with
  | [], _ => true
  | c :: p', c' :: s' => Ascii.eqb c c' && is_prefix p' s'
  | _ :: _, [] => false
  end.

(** The text before and after the first occurrence of [sep]. *)
Fixpoint split_on (sep s : list ascii) : option (list ascii * list ascii) :=
  if is_prefix sep s then Some ([], drop (length sep) s)
  else match s with
       | [] => None
       | c :: s' =>
           match split_on sep s' with
           | Some (a, b) => Some (c :: a, b)
           | None => None
           end
       end.

Definition slash : ascii := "/"%char.

(** The host and the path (from the first [/] on). *)
Fixpoint split_host (rest : list ascii) : list ascii * list ascii :=
  match rest with
  | [] => ([], [])
  | c :: r =>
      if Ascii.eqb c slash then ([], rest)
      else let '(h, p) := split_host r in (c :: h, p)
  end.

Definition sep_scheme : list ascii := String.list_ascii_of_string "://".

(** A URL [scheme://host/path]; a missing path reads as [/]. *)
Definition parse_url (u : string) : option (list ascii * list ascii * list ascii) :=
  match split_on sep_scheme (String.list_ascii_of_string u) with
  | Some (sch, rest) =>
      let '(h, p) := split_host rest in
      Some (sch, h, match p with [] => [slash] | _ => p end)
  | None => None
  end.

Lemma is_prefix_spec p s : is_prefix p s = true <-> exists t, s = p ++ t.
Proof.
  revert s. induction p as [|c p IH]; intros [|c' s]; simpl.
  - split; eauto.
  - split; eauto.
  - split; [done|]. by intros [t ?].
  - rewrite andb_true_iff, Ascii.eqb_eq, IH. split.
    + intros [-> [t ->]]. eauto.
    + intros [t Ht]. simplify_eq. eauto.
Qed.
End Url.

(** ** The generic index *)

Module Index.
Section Index.
Context {R T : Type}.
(** [parse] compiles a rule string (None: [add] throws); [covers]
  decides whether a compiled rule covers a URL; [key] identifies the
  script a value belongs to. *)
Context (covers : R -> string -> bool) (key : T -> nat).

Record index := mk_index {
ix_rules : list (R * T);
ix_excludes : list (R * T);
}.

Definition ix_empty : index := mk_index [] [].

(** [add(rule, val)]: [None] is the thrown [MalformedRuleError]. *)
Definition ix_add (parse : string -> option R) (r : string) (v : T) (ix : index) : option index :=
match parse r with
| Some p => Some (mk_index (ix_rules ix ++ [(p, v)]) (ix_excludes ix))
| None => None
end.

(** [exclude(rule, val)] *)
Definition ix_exclude (parse : string -> option R) (r : string) (v : T) (ix : index)
    : option index :=
match parse r with
| Some p => Some (mk_index (ix_rules ix) (ix_excludes ix ++ [(p, v)]))
| None => None
end.

(** [del(val)]: every rule and exclusion of that script goes. *)
Definition ix_del (v : T) (ix : index) : index :=
mk_index (filter (fun e => key e.2 <> key v) (ix_rules ix))
         (filter (fun e => key e.2 <> key v) (ix_excludes ix)).

Definition excluded (ix : index) (k : nat) (u : string) : bool :=
existsb (fun e => bool_decide (key e.2 = k) && covers e.1 u) (ix_excludes ix).

(** [match(url)] *)
Definition ix_match (u : string) (ix : index) : list T :=
map snd (filter (fun e => covers e.1 u = true /\ excluded ix (key e.2) u = false)
                (ix_rules ix)).

(** The rules of one script. *)
Definition rules_of (k : nat) (ix : index) : list (R * T) :=
filter (fun e => key e.2 = k) (ix_rules ix).
Definition excludes_of (k : nat) (ix : index) : list (R * T) :=
filter (fun e => key e.2 = k) (ix_excludes ix).

Lemma excluded_spec ix k u :
excluded ix k u = true <-> exists e, e ∈ ix_excludes ix /\ key e.2 = k /\ covers e.1 u = true.
Proof.
unfold excluded. rewrite existsb_exists. setoid_rewrite andb_true_iff.
setoid_rewrite bool_decide_eq_true. setoid_rewrite list_elem_of_In. naive_solver.
Qed.

(** A value is returned exactly when one of its rules covers the URL
  and none of the exclusions of its script does. *)
Lemma ix_match_spec u ix v :
v ∈ ix_match u ix <->
exists p, (p, v) ∈ ix_rules ix /\ covers p u = true /\ excluded ix (key v) u = false.
Proof.
unfold ix_match. rewrite list_elem_of_fmap. split.
- intros ([p v'] & -> & Hin). apply list_elem_of_filter in Hin. naive_solver.
- intros (p & Hin & Hc & He). exists (p, v). split; [done|].
  apply list_elem_of_filter. naive_solver.
Qed.

(** Whether a script is excluded depends only on its own exclusions. *)
Lemma excluded_of ix k u : excluded ix k u = existsb (fun e => covers e.1 u) (excludes_of k ix).
Proof.
apply Bool.eq_true_iff_eq. rewrite excluded_spec, existsb_exists. unfold excludes_of.
setoid_rewrite <- list_elem_of_In. setoid_rewrite list_elem_of_filter. naive_solver.
Qed.

(** [match(url)] answers a value from the rules and exclusions of its own
    script. *)
Lemma ix_match_of_rules u ix v :
v ∈ ix_match u ix <->
exists p, (p, v) ∈ rules_of (key v) ix /\ covers p u = true /\
          existsb (fun e => covers e.1 u) (excludes_of (key v) ix) = false.
Proof.
rewrite ix_match_spec, <- excluded_of. unfold rules_of.
setoid_rewrite list_elem_of_filter. naive_solver.
Qed.

Lemma excluded_del ix v k u :
k <> key v -> excluded (ix_del v ix) k u = excluded ix k u.
Proof.
intros Hk. apply Bool.eq_true_iff_eq. rewrite !excluded_spec. simpl.
setoid_rewrite list_elem_of_filter. split; [naive_solver|].
intros (e & ? & He & ?). exists e. rewrite He. naive_solver.
Qed.

(** [del] removes the script from every answer and leaves the others. *)
Theorem ix_match_del u ix v :
ix_match u (ix_del v ix) = filter (fun w => key w <> key v) (ix_match u ix).
Proof.
unfold ix_match. simpl. rewrite filter_map, !list_filter_filter.
f_equal. apply list_filter_iff. intros [p w]; simpl.
destruct (decide (key w = key v)); [naive_solver|].
rewrite excluded_del by done. naive_solver.
Qed.

Lemma rules_of_del k v ix :
rules_of k (ix_del v ix) = if decide (k = key v) then [] else rules_of k ix.
Proof.
unfold rules_of. simpl. rewrite list_filter_filter. case_decide; subst.
- apply filter_all_false. naive_solver.
- apply list_filter_iff. naive_solver.
Qed.

Lemma excludes_of_del k v ix :
excludes_of k (ix_del v ix) = if decide (k = key v) then [] else excludes_of k ix.
Proof.
unfold excludes_of. simpl. rewrite list_filter_filter. case_decide; subst.
- apply filter_all_false. naive_solver.
- apply list_filter_iff. naive_solver.
Qed.

(** [del] is idempotent. *)
Lemma ix_del_idem v ix : ix_del v (ix_del v ix) = ix_del v ix.
Proof.
unfold ix_del. simpl. rewrite !list_filter_filter. f_equal; apply list_filter_iff; naive_solver.
Qed.
(** [del(val)] followed by adding the compiled rules [ps] and the
    compiled exclusions [qs] of [val]. *)
Definition ix_replace (v : T) (ps qs : list R) (ix : index) : index :=
  mk_index (filter (fun e => key e.2 <> key v) (ix_rules ix) ++ map (fun p => (p, v)) ps)
           (filter (fun e => key e.2 <> key v) (ix_excludes ix) ++ map (fun q => (q, v)) qs).

Lemma filter_key_new k v (ps : list R) :
  filter (fun e : R * T => key e.2 = k) (map (fun p => (p, v)) ps) =
  if decide (k = key v) then map (fun p => (p, v)) ps else [].
Proof.
  case_decide; subst.
  - apply filter_all_true. intros e He. apply list_elem_of_fmap in He as (? & -> & _). done.
  - apply filter_all_false. intros e He. apply list_elem_of_fmap in He as (? & -> & _). done.
Qed.

Lemma rules_of_replace k v ps qs ix :
  rules_of k (ix_replace v ps qs ix) =
  if decide (k = key v) then map (fun p => (p, v)) ps else rules_of k ix.
Proof.
  unfold rules_of, ix_replace. simpl. rewrite filter_app, filter_key_new, list_filter_filter.
  case_decide; subst.
  - rewrite filter_all_false; [done|]. naive_solver.
  - rewrite app_nil_r. apply list_filter_iff. naive_solver.
Qed.

Lemma excludes_of_replace k v ps qs ix :
  excludes_of k (ix_replace v ps qs ix) =
  if decide (k = key v) then map (fun q => (q, v)) qs else excludes_of k ix.
Proof.
  unfold excludes_of, ix_replace. simpl. rewrite filter_app, filter_key_new, list_filter_filter.
  case_decide; subst.
  - rewrite filter_all_false; [done|]. naive_solver.
  - rewrite app_nil_r. apply list_filter_iff. naive_solver.
Qed.

Lemma excluded_replace v ps qs ix u :
  excluded (ix_replace v ps qs ix) (key v) u = existsb (fun q => covers q u) qs.
Proof.
  apply Bool.eq_true_iff_eq. rewrite excluded_spec, existsb_exists. simpl.
  setoid_rewrite elem_of_app. setoid_rewrite list_elem_of_filter.
  setoid_rewrite list_elem_of_fmap. split.
  - intros (e & [[Hk _]|(q & -> & Hq)] & He & Hc); [done|]. exists q. by rewrite <- list_elem_of_In.
  - intros (q & Hq & Hc). exists (q, v). rewrite <- list_elem_of_In in Hq. naive_solver.
Qed.

(** After a replacement, a value of the replaced script is returned for a
    URL exactly when it is the new value, one of the new rules covers the
    URL, and none of the new exclusions does. *)
Theorem ix_match_replace u v ps qs ix w :
  key w = key v ->
  w ∈ ix_match u (ix_replace v ps qs ix) <->
  w = v /\ (exists p, p ∈ ps /\ covers p u = true) /\ existsb (fun q => covers q u) qs = false.
Proof.
  intros Hk. rewrite ix_match_spec, Hk, excluded_replace. simpl.
  setoid_rewrite elem_of_app. setoid_rewrite list_elem_of_filter.
  setoid_rewrite list_elem_of_fmap. split.
  - intros (p & [[Hne _]|(p' & Heq & Hp)] & Hc & He); [simpl in Hne; congruence|].
    simplify_eq. eauto.
  - intros (-> & (p & Hp & Hc) & He). exists p. split_and!; [right; eauto|done|done].
Qed.

Lemma ix_match_replace_other u v ps qs ix w :
  key w <> key v -> w ∈ ix_match u (ix_replace v ps qs ix) <-> w ∈ ix_match u ix.
Proof.
  intros Hk. unfold ix_replace. rewrite !ix_match_spec.
  assert (Hex : excluded (mk_index (filter (fun e => key e.2 <> key v) (ix_rules ix) ++
                   map (fun p => (p, v)) ps)
                  (filter (fun e => key e.2 <> key v) (ix_excludes ix) ++
                   map (fun q => (q, v)) qs)) (key w) u = excluded ix (key w) u).
  { apply Bool.eq_true_iff_eq. rewrite !excluded_spec. simpl.
    setoid_rewrite elem_of_app. setoid_rewrite list_elem_of_filter.
    setoid_rewrite list_elem_of_fmap. split.
    - intros (e & [[_ He]|(q & -> & _)] & Hke & Hc); [eauto|simpl in Hke; congruence].
    - intros (e & He & Hke & Hc). exists e. rewrite Hke. naive_solver. }
  rewrite Hex. simpl. setoid_rewrite elem_of_app. setoid_rewrite list_elem_of_filter.
  setoid_rewrite list_elem_of_fmap. split.
  - intros (p & [[_ Hp]|(p' & Heq & _)] & Hc & He); [eauto|simplify_eq].
  - intros (p & Hp & Hc & He). exists p. naive_solver.
Qed.
End Index.
End Index.

(** ** [UrlMatch]: [scheme://host/path] patterns *)

Module UrlMatch.
Record pattern := mk_pattern {
  pat_scheme : list ascii;
  pat_host : list ascii;
  pat_path : list ascii;
}.

Definition star : list ascii := [Glob.star_char].
Definition star_dot : list ascii := String.list_ascii_of_string "*.".

(** Compile a rule; a rule without [://], with an empty scheme or without
    a path is malformed. *)
Definition parse_rule (r : string) : option pattern :=
  match Url.split_on Url.sep_scheme (String.list_ascii_of_string r) with
  | Some (sch, rest) =>
      let '(h, p) := Url.split_host rest in
      match sch, p with
      | [], _ | _, [] => None
      | _, _ => Some (mk_pattern sch h p)
      end
  | None => None
  end.

Definition scheme_covers (ps us : list ascii) : bool :=
  if decide (ps = star)
  then bool_decide (us = String.list_ascii_of_string "http" \/
                    us = String.list_ascii_of_string "https")
  else bool_decide (ps = us).

(** [*] is any host; [*.d] is [d] and every host ending in [.d]. *)
Definition host_covers (ph uh : list ascii) : bool :=
  if decide (ph = star) then true
  else if Url.is_prefix star_dot ph then
    let d := drop 2 ph in
    bool_decide (uh = d) || Url.is_prefix (rev ("."%char :: d)) (rev uh)
  else bool_decide (ph = uh).

Definition covers (p : pattern) (u : string) : bool :=
  match Url.parse_url u with
  | Some (s, h, path) =>
      scheme_covers (pat_scheme p) s && host_covers (pat_host p) h
      && Glob.glob (pat_path p) path
  | None => false
  end.

Definition UrlMatch (T : Type) : Type := Index.index (R := pattern) (T := T).
End UrlMatch.

(** ** [UrlInclude]: globs over the whole URL *)

Module UrlInclude.
Definition parse_rule (r : string) : option (list ascii) :=
  Some (String.list_ascii_of_string r).

Definition covers (g : list ascii) (u : string) : bool :=
  Glob.glob g (String.list_ascii_of_string u).

Definition UrlInclude (T : Type) : Type := Index.index (R := list ascii) (T := T).

(** Every rule string is a glob: [UrlInclude.add] never throws. *)
Lemma parse_rule_total r : is_Some (parse_rule r).
Proof. by eexists. Qed.
End UrlInclude.

Example match_example_host :
  UrlMatch.covers (default (UrlMatch.mk_pattern [] [] []) (UrlMatch.parse_rule "*://*.a.test/x*"))
    "https://www.a.test/xyz" = true.
Proof. vm_compute. reflexivity. Qed.
