(* ===== verification/Hook.v ===== *)
(** * Hooks: named multicast listener lists

    [ScriptManager.hook] and [Runtime.hook] are instances of
    [@App/app/service/hook] (not among the sources; modelled from the spec,
    sections 5 and 9): [addListener(event, fn)] appends a listener to the
    event's list, [removeListener(event, fn)] takes it out, and
    [trigger(event, ...args)] calls the event's listeners in registration
    order.  A listener is named by a value of a type of the client's choice
    (the client interprets it), so that the hook itself is a list of
    [(event, listener)] pairs. *)

From S2P Require Import Prelude.

Module Hook.
Section Hook.
Context {L : Type} `{EqDecision L}.
Implicit Types (hk : list (string * L)) (ev : string) (l : L).

(** [addListener(ev, l)] *)
Definition addListener ev l hk : list (string * L) := hk ++ [(ev, l)].

(** [removeListener(ev, l)] *)
Definition removeListener ev l hk : list (string * L) :=
  filter (fun p => p <> (ev, l)) hk.

(** The listeners [trigger(ev, ...)] calls, in the order it calls them. *)
Definition listeners ev hk : list L := map snd (filter (fun p => p.1 = ev) hk).

Lemma listeners_add ev ev' l hk :
  listeners ev (addListener ev' l hk) =
  listeners ev hk ++ (if decide (ev' = ev) then [l] else []).
Proof.
  unfold listeners, addListener. rewrite filter_app, map_app. f_equal.
  rewrite filter_cons, filter_nil. simpl. by repeat case_decide.
Qed.

Lemma listeners_remove ev l hk :
  listeners ev (removeListener ev l hk) = filter (fun l' => l' <> l) (listeners ev hk).
Proof.
  unfold listeners, removeListener. rewrite filter_map, !list_filter_filter.
  f_equal. apply list_filter_iff. intros [e l']; simpl. naive_solver.
Qed.

Lemma listeners_remove_other ev ev' l hk :
  ev <> ev' -> listeners ev (removeListener ev' l hk) = listeners ev hk.
Proof.
  intros Hne. unfold listeners, removeListener. rewrite list_filter_filter.
  f_equal. apply list_filter_iff. intros [e l']; simpl. naive_solver.
Qed.
End Hook.
End Hook.
