(* ===== verification/Script.v ===== *)
(** * The data model

    The records the runtime reads and writes, after the types the sources
    import from [@App/app/repo/scripts], [@App/app/message/message] and
    [./gm_api] (these modules are not among the sources: their shapes are
    taken from the uses in runtime.ts and event.ts and from the spec,
    section 3): [Script] and [ScriptRunResouce], the status, type and
    run-status constants, the menu [Request]s and their [Channel]s, the
    owner key of the menu registry, the effects the runtime has on the
    outside world (messages to the sandbox, injected code, badge, menus,
    channel messages, log lines) and the [Env] record of the external
    collaborators of spec section 6. *)

From S2P Require Import Prelude.

(** ** Scripts *)

Inductive script_status := SCRIPT_STATUS_ENABLE | SCRIPT_STATUS_DISABLE.
Inductive script_type := SCRIPT_TYPE_NORMAL | SCRIPT_TYPE_CRONTAB | SCRIPT_TYPE_BACKGROUND.
Inductive run_status :=
  | SCRIPT_RUN_STATUS_RUNNING | SCRIPT_RUN_STATUS_COMPLETE
  | SCRIPT_RUN_STATUS_ERROR | SCRIPT_RUN_STATUS_RETRY.

#[export] Instance script_status_eq_dec : EqDecision script_status.
Proof. solve_decision. Defined.
#[export] Instance script_type_eq_dec : EqDecision script_type.
Proof. solve_decision. Defined.
#[export] Instance run_status_eq_dec : EqDecision run_status.
Proof. solve_decision. Defined.

(** A script record: the declared metadata maps a key ([match], [include],
    [exclude], [grant], [run-at], [noframes], ...) to its list of values. *)
Record Script := mkScript {
  id : nat;
  uuid : string;
  name : string;
  code : string;
  metadata : gmap string (list string);
  selfMetadata : option (gmap string (list string));
  type : script_type;
  status : script_status;
  runStatus : option run_status;
  config : option string;
  createtime : nat;
  updatetime : option nat;
  lastruntime : option nat;
}.

Definition with_metadata (md : gmap string (list string)) (s : Script) : Script :=
  mkScript s.(id) s.(uuid) s.(name) s.(code) md s.(selfMetadata) s.(type) s.(status)
    s.(runStatus) s.(config) s.(createtime) s.(updatetime) s.(lastruntime).

Definition with_code (c : string) (s : Script) : Script :=
  mkScript s.(id) s.(uuid) s.(name) c s.(metadata) s.(selfMetadata) s.(type) s.(status)
    s.(runStatus) s.(config) s.(createtime) s.(updatetime) s.(lastruntime).

(** [script.status = st; script.updatetime = now] *)
Definition with_status (st : script_status) (now : nat) (s : Script) : Script :=
  mkScript s.(id) s.(uuid) s.(name) s.(code) s.(metadata) s.(selfMetadata) s.(type) st
    s.(runStatus) s.(config) s.(createtime) (Some now) s.(lastruntime).

(** [scriptDAO.update(id, { runStatus, lastruntime })] *)
Definition with_runStatus (rs : run_status) (now : nat) (s : Script) : Script :=
  mkScript s.(id) s.(uuid) s.(name) s.(code) s.(metadata) s.(selfMetadata) s.(type) s.(status)
    (Some rs) s.(config) s.(createtime) s.(updatetime) (Some now).

(** [script.metadata[key]]: a JS array is truthy even when empty, so the
    code's tests [if (script.metadata.match)] are tests of presence. *)
Definition meta (key : string) (s : Script) : option (list string) := s.(metadata) !! key.

Definition is_background (s : Script) : bool := bool_decide (s.(type) <> SCRIPT_TYPE_NORMAL).
Definition is_enabled (s : Script) : bool := bool_decide (s.(status) = SCRIPT_STATUS_ENABLE).

(** The resolved snapshots handed out by the value and resource stores. *)
Definition Values : Type := gmap string string.
Definition Resources : Type := gmap string string.

(** [ScriptRunResouce]: the script object extended by [buildScriptRunResource].
    The extra fields are [undefined] ([None]) when the code casts a plain
    [Script] to [ScriptRunResouce], as [unloadPageScript] does. *)
Record ScriptRunResouce := mkRes {
  res_script : Script;
  value : option Values;
  resource : option Resources;
  flag : option string;
  sourceCode : option string;
  grantMap : option (gmap string string);
}.

Definition of_script (s : Script) : ScriptRunResouce := mkRes s None None None None None.

Definition res_id (r : ScriptRunResouce) : nat := r.(res_script).(id).

Definition res_with_code (c : string) (r : ScriptRunResouce) : ScriptRunResouce :=
  mkRes (with_code c r.(res_script)) r.(value) r.(resource) r.(flag) r.(sourceCode) r.(grantMap).

(** ** Messages, menus and channels *)

(** [MessageSender]: the tab and frame of a content page, the page URL,
    and the tag of the context that sent the message. *)
Record MessageSender := mkSender {
  tabId : option nat;
  frameId : option nat;
  url : option string;
  targetTag : string;
}.

(** A [GM_registerMenuCommand] request: [params] is [[id, name, accessKey]]. *)
Record Request := mkRequest {
  sender : MessageSender;
  scriptId : nat;
  params : list jsval;
}.

(** A long-lived message channel, identified by its flag. *)
Record Channel := mkChannel { channel_flag : string }.

(** The key of [scriptMenu], a [number | TargetTag] in the code. *)
Inductive owner := Tab (tab : nat) | Tag (tag : string).

#[export] Instance owner_eq_dec : EqDecision owner.
Proof. solve_decision. Defined.

(** ** Effects on the outside world *)

Inductive run_at := document_start | document_end | document_idle.

#[export] Instance run_at_eq_dec : EqDecision run_at.
Proof. solve_decision. Defined.

(** The payload of a [syncSend] to the sandbox. *)
Inductive payload := P_res (r : ScriptRunResouce) | P_id (sid : nat) | P_empty.

Inductive effect :=
  | E_syncSend (topic : string) (p : payload)
  | E_executeScript (tab : nat) (frame : option nat) (code : string) (at_ : run_at)
  | E_setBadgeText (tab : nat) (text : string)
  | E_setBadgeBackgroundColor (tab : nat) (color : string)
  | E_disChannel (flag : string)
  | E_genScriptMenu (o : owner)
  | E_channelSend (flag : string) (sid : nat) (st : run_status)
  | E_log (msg : string).

(** ** External collaborators *)

(** What the runtime consumes and does not implement (spec section 6):
    the value and resource stores (which may reject), the compilers, the
    random-string generator (the [n]-th draw of the given length) and the
    sandbox's answer to a [syncSend].  Every theorem is stated for an
    arbitrary [Env]. *)
Record Env := mkEnv {
  getScriptValues : ScriptRunResouce -> outcome Values;
  getScriptResources : ScriptRunResouce -> outcome Resources;
  compileScriptCode : ScriptRunResouce -> string;
  compileInjectScript : ScriptRunResouce -> string;
  dealScript : string -> string;
  randomString : nat -> nat -> string;
  sandboxReply : string -> payload -> outcome unit;
}.
