(* ===== verification/Resource.v ===== *)
(** * The resource compiler: [Runtime.buildScriptRunResource]

    runtime.ts, lines 595-621.  The run resource is the script with its
    self-configured metadata merged over the declared metadata (key by key,
    [selfMetadata] winning), the value snapshot and the resource snapshot of
    the external stores, a fresh 16-character flag, the original code kept
    as [sourceCode], the compiled code, and the grant map built from the
    [grant] key.  A rejection of either store rejects the build before the
    flag is drawn.  The [seed] argument is the index of the random draw;
    the caller advances it when the build resolves. *)

From S2P Require Import Prelude Script.

Module Resource.

(** Lines 599-604. *)
Definition merge_metadata (s : Script) : gmap string (list string) :=
  match s.(selfMetadata) with
  | Some sm => sm ∪ s.(metadata)
  | None => s.(metadata)
  end.

Definition grant_ok : string := "ok".

(** Lines 614-618: [grantMap[val] = "ok"] for every granted API. *)
Definition grant_map (md : gmap string (list string)) : gmap string string :=
  match md !! "grant" with
  | Some gs => foldl (fun m g => <[g := grant_ok]> m) ∅ gs
  | None => ∅
  end.

(** Lines 595-621. *)
Definition buildScriptRunResource (env : Env) (seed : nat) (script : Script)
    : outcome ScriptRunResouce :=
  let s1 := with_metadata (merge_metadata script) script in
  match env.(getScriptValues) (of_script s1) with
  | Resolved v =>
      match env.(getScriptResources) (mkRes s1 (Some v) None None None None) with
      | Resolved rs =>
          let fl := env.(randomString) 16 seed in
          let c := env.(compileScriptCode)
                     (mkRes s1 (Some v) (Some rs) (Some fl) (Some s1.(code)) None) in
          Resolved (mkRes (with_code c s1) (Some v) (Some rs) (Some fl) (Some s1.(code))
                          (Some (grant_map s1.(metadata))))
      | Rejected e => Rejected e
      | Pending => Pending
      end
  | Rejected e => Rejected e
  | Pending => Pending
  end.

(** A build of a background script that declares one grant and overrides
    it in its own configuration, with stores that answer. *)
Definition env_ex : Env :=
  mkEnv (fun _ => Resolved ∅) (fun _ => Resolved ∅) (fun _ => "compiled") (fun _ => "injected")
    (fun c => c) (fun _ _ => "flag") (fun _ _ => Resolved tt).
Definition script_ex : Script :=
  mkScript 1 "uuid" "name" "code" (<["grant" := ["GM_xmlhttpRequest"]]> ∅)
    (Some (<["grant" := ["GM_getValue"]]> ∅)) SCRIPT_TYPE_BACKGROUND SCRIPT_STATUS_ENABLE
    None None 0 None None.
Definition res_ex : ScriptRunResouce :=
  match buildScriptRunResource env_ex 0 script_ex with Resolved r => r | _ => of_script script_ex end.

(** *** Lemmas *)

Lemma merge_metadata_lookup s k :
  merge_metadata s !! k =
  match s.(selfMetadata) with
  | Some sm => match sm !! k with Some v => Some v | None => s.(metadata) !! k end
  | None => s.(metadata) !! k
  end.
Proof.
  unfold merge_metadata. destruct (selfMetadata s) as [sm|]; [|done].
  rewrite lookup_union. by destruct (sm !! k), (metadata s !! k).
Qed.

Lemma grant_fold_lookup (gs : list string) (m : gmap string string) g :
  foldl (fun m g => <[g := grant_ok]> m) m gs !! g =
  if decide (g ∈ gs) then Some grant_ok else m !! g.
Proof.
  revert m. induction gs as [|g' gs IH]; intros m; cbn [foldl].
  - case_decide; [set_solver|done].
  - rewrite IH, lookup_insert. repeat case_decide; first [done | set_solver].
Qed.

Lemma grant_map_lookup md g :
  grant_map md !! g =
  match md !! "grant" with
  | Some gs => if decide (g ∈ gs) then Some grant_ok else None
  | None => None
  end.
Proof.
  unfold grant_map. destruct (md !! "grant") as [gs|]; [|done].
  rewrite grant_fold_lookup. by case_decide.
Qed.

(** The script a resolved build carries: the merged metadata, the same id. *)
Lemma build_resolved_script env seed s r :
  buildScriptRunResource env seed s = Resolved r ->
  r.(res_script).(metadata) = merge_metadata s /\ r.(res_script).(id) = s.(id).
Proof.
  unfold buildScriptRunResource. intros H.
  destruct (getScriptValues env _); try done. destruct (getScriptResources env _); try done.
  by injection H as <-.
Qed.

(** C32. A resolved build (runtime.ts 595-621), described by what it
    holds.
    - Its metadata has, under each key, the script's [selfMetadata] entry
      when there is one, and the script's own metadata entry otherwise
      (lines 598-604).
    - Its grant map holds ["ok"] under exactly the grants its merged
      metadata lists, and nothing else (lines 614-618).
    - The value store and then the resource store were asked with the
      merged script, and their answers are the snapshots it carries
      (lines 606-608).
    - The flag is the given draw of [randomString(16)], [sourceCode] is
      the original code, and the code is what [compileScriptCode] returns
      on the resource carrying all of these (lines 610-612).
    - Id, type and status are the script's. *)
Theorem build_resolved env seed s r :
  buildScriptRunResource env seed s = Resolved r ->
  let md := r.(res_script).(metadata) in
  (forall k, md !! k =
     match s.(selfMetadata) ≫= lookup k with Some v => Some v | None => s.(metadata) !! k end) /\
  (exists gm, r.(grantMap) = Some gm /\
     (forall g, gm !! g = Some "ok"%string <-> exists gs, md !! "grant" = Some gs /\ g ∈ gs) /\
     (forall g x, gm !! g = Some x -> x = "ok"%string)) /\
  exists v rs,
    env.(getScriptValues) (of_script (with_metadata md s)) = Resolved v /\
    env.(getScriptResources) (mkRes (with_metadata md s) (Some v) None None None None) = Resolved rs /\
    r.(value) = Some v /\ r.(resource) = Some rs /\
    r.(flag) = Some (env.(randomString) 16 seed) /\
    r.(sourceCode) = Some s.(code) /\
    r.(res_script).(code) =
      env.(compileScriptCode) (mkRes (with_metadata md s) (Some v) (Some rs)
                                 (Some (env.(randomString) 16 seed)) (Some s.(code)) None) /\
    r.(res_script).(id) = s.(id) /\ r.(res_script).(type) = s.(type) /\
    r.(res_script).(status) = s.(status).
Proof.
  unfold buildScriptRunResource. intros H.
  destruct (getScriptValues env _) as [v| |] eqn:Hv; try done.
  destruct (getScriptResources env _) as [rs| |] eqn:Hr; try done.
  injection H as <-. cbn zeta. simpl. split_and!.
  - intros k. rewrite merge_metadata_lookup. by destruct (selfMetadata s).
  - eexists. split_and!; [reflexivity| |]; intros g; rewrite grant_map_lookup.
    + destruct (merge_metadata s !! "grant") as [gs|]; split.
      * case_decide; [|done]. intros _. by exists gs.
      * intros (gs' & [= <-] & Hin). by rewrite decide_True.
      * done.
      * by intros (? & ? & ?).
    + intros x. destruct (merge_metadata s !! "grant"); [case_decide|]; by intros [= <-].
  - by exists v, rs.
Qed.

Lemma build_resolved_witness :
  res_ex.(res_script).(metadata) !! "grant" = Some ["GM_getValue"] /\
  exists gm, res_ex.(grantMap) = Some gm /\
    gm !! "GM_getValue" = Some "ok"%string /\ gm !! "GM_xmlhttpRequest" <> Some "ok"%string.
Proof.
  assert (Hb : buildScriptRunResource env_ex 0 script_ex = Resolved res_ex) by (vm_compute; reflexivity).
  destruct (build_resolved env_ex 0 script_ex res_ex Hb) as (Hmd & (gm & Hgm & Hg & _) & _).
  assert (Hgr : res_ex.(res_script).(metadata) !! "grant" = Some ["GM_getValue"])
    by (rewrite Hmd; vm_compute; reflexivity).
  split; [exact Hgr|]. exists gm. split_and!; [exact Hgm| |].
  - apply Hg. exists ["GM_getValue"]. split; [exact Hgr|by left].
  - rewrite Hg, Hgr. intros (gs & [= <-] & Hin).
    apply list_elem_of_singleton in Hin. discriminate.
Defined.

(** The build is all-or-nothing: a rejected store call rejects it with
    the same error. *)
Lemma build_values_rejected env seed s e :
  env.(getScriptValues) (of_script (with_metadata (merge_metadata s) s)) = Rejected e ->
  buildScriptRunResource env seed s = Rejected e.
Proof. unfold buildScriptRunResource. intros H. by rewrite H. Qed.
End Resource.
