(* ===== verification/Menu.v ===== *)
(** * The menu registry of [Runtime.start]

    runtime.ts, lines 157-235.  [scriptMenu] maps an owner (the tab of the
    page that registered, or the tag of the sending context when the
    sender has no tab) to a [tabMap] from script id to the list of
    [{ request, channel }] entries of the menu commands it registered.
    Both levels are JS [Map]s ([JsMap]); the code mutates the inner map and
    array in place, which the model writes as a [JsMap.set] of the owner's
    entry (a [set] of a present key keeps its position, so the two agree).

    [registerMenu] is the ["registerMenu"] listener of [GMApi.hook],
    [unregisterMenu] the ["unregisterMenu"] listener, [tabActivated] the
    [chrome.tabs.onActivated] listener.  [genScriptMenu] (in ./utils, not
    among the sources) rebuilds the context menu of an owner; it is recorded
    as the effect [E_genScriptMenu]. *)

From S2P Require Import Prelude JsMap Script.

Module Menu.

Abbreviation menu_entry := (Request * Channel)%type.
Abbreviation tab_map := (list (nat * list menu_entry)).
Abbreviation script_menu := (list (owner * tab_map)).

(** Lines 171-177 and 202-208: [if (!request.sender.tabId)]; the tab id
    [0] is falsy like [undefined]. *)
Definition senderId (req : Request) : owner :=
  match req.(sender).(tabId) with
  | Some t => if decide (t = 0) then Tag req.(sender).(targetTag) else Tab t
  | None => Tag req.(sender).(targetTag)
  end.

(** [request.params[0]]: the menu id. *)
Definition menu_id (e : menu_entry) : jsval := js_index e.1.(params) 0.

(** The loop of lines 189-195, [for (let i = 0; menuArr.length; i += 1)],
    entered only when [menuArr] is non-empty.  Its condition is the
    length, so it leaves through the [return] of a duplicate or by
    reading [menuArr[menuArr.length].request], a [TypeError]. *)
Fixpoint dup_scan (p0 : jsval) (arr : list menu_entry) : outcome unit :=
  match arr with
  | [] => Rejected (Err_type "Cannot read properties of undefined (reading 'request')")
  | e :: arr' => if strict_eq (menu_id e) p0 then Resolved tt else dup_scan p0 arr'
  end.

(** Lines 170-199.  The result is the new registry, the effects, and the
    outcome of the listener (a [Rejected] outcome is the exception it
    throws). *)
Definition registerMenu (req : Request) (ch : Channel) (sm : script_menu)
    : script_menu * list effect * outcome unit :=
  let sid := senderId req in
  let tabMap := default [] (JsMap.get sid sm) in
  let menuArr := default [] (JsMap.get req.(scriptId) tabMap) in
  let tabMap1 := JsMap.set req.(scriptId) menuArr tabMap in
  let sm1 := JsMap.set sid tabMap1 sm in
  match menuArr with
  | [] =>
      let tabMap2 := JsMap.set req.(scriptId) (menuArr ++ [(req, ch)]) tabMap1 in
      (JsMap.set sid tabMap2 sm1, [E_genScriptMenu sid], Resolved tt)
  | _ :: _ =>
      match dup_scan (js_index req.(params) 0) menuArr with
      | Resolved _ => (sm1, [E_disChannel ch.(channel_flag)], Resolved tt)
      | Rejected e => (sm1, [], Rejected e)
      | Pending => (sm1, [], Pending)
      end
  end.

(** [menuArr.splice(i, 1)] at the first entry whose menu id is [id]. *)
Fixpoint remove_first (mid : jsval) (arr : list menu_entry) : list menu_entry :=
  match arr with
  | [] => []
  | e :: arr' => if strict_eq (menu_id e) mid then arr' else e :: remove_first mid arr'
  end.

(** [Object.keys(tabMap)] where [tabMap] is a [Map]: the entries of a Map
    live in an internal slot, not in own enumerable properties, so the
    list is always empty whatever the map holds. *)
Definition object_keys_of_Map {K V} (m : list (K * V)) : list string := [].

(** Lines 201-230. *)
Definition unregisterMenu (mid : jsval) (req : Request) (sm : script_menu)
    : script_menu * list effect :=
  let sid := senderId req in
  match JsMap.get sid sm with
  | Some tabMap =>
      let tabMap' :=
        match JsMap.get req.(scriptId) tabMap with
        | Some menuArr =>
            let arr' := remove_first mid menuArr in
            let t1 := JsMap.set req.(scriptId) arr' tabMap in
            match arr' with
            | [] => JsMap.delete req.(scriptId) t1
            | _ => t1
            end
        | None => tabMap
        end in
      let sm1 := JsMap.set sid tabMap' sm in
      let sm2 := if decide (length (object_keys_of_Map tabMap') = 0)
                 then JsMap.delete sid sm1 else sm1 in
      (sm2, [E_genScriptMenu sid])
  | None => (sm, [E_genScriptMenu sid])
  end.

(** Lines 233-235. *)
Definition tabActivated (tab : nat) : list effect := [E_genScriptMenu (Tab tab)].

(** The menu entries of one script under one owner. *)
Definition entries_of (o : owner) (sid : nat) (sm : script_menu) : list menu_entry :=
  default [] (JsMap.get o sm ≫= JsMap.get sid).

(** The registry's reachable states: any sequence of registrations and
    unregistrations from the empty [new Map()] of line 158. *)
Inductive menu_step : script_menu -> script_menu -> Prop :=
  | step_register req ch sm : menu_step sm (registerMenu req ch sm).1.1
  | step_unregister mid req sm : menu_step sm (unregisterMenu mid req sm).1.

(** A well-typed owner key: the tag of a context, or a tab id the code
    reads as truthy. *)
Definition owner_ok (o : owner) : Prop :=
  match o with Tab t => t <> 0 | Tag _ => True end.

(** The registry's type: owner keys well typed, and each command filed
    under its request's owner and script id. *)
Definition menu_typed (sm : script_menu) : Prop :=
  (forall o, o ∈ JsMap.keys sm -> owner_ok o) /\
  (forall o k e, e ∈ entries_of o k sm -> senderId e.1 = o /\ e.1.(scriptId) = k).

(** *** Lemmas *)

Lemma entries_of_set o o' k (tm : tab_map) sm :
  entries_of o k (JsMap.set o' tm sm) =
  if decide (o = o') then default [] (JsMap.get k tm) else entries_of o k sm.
Proof. unfold entries_of. rewrite JsMap.get_set. by case_decide. Qed.

Lemma entries_of_delete o o' k sm :
  JsMap.wf sm ->
  entries_of o k (JsMap.delete o' sm) = if decide (o = o') then [] else entries_of o k sm.
Proof. intros Hwf. unfold entries_of. rewrite JsMap.get_delete by done. by case_decide. Qed.

Lemma entries_of_tab o k sm :
  entries_of o k sm = default [] (JsMap.get k (default [] (JsMap.get o sm))).
Proof. unfold entries_of. by destruct (JsMap.get o sm). Qed.

Lemma dup_scan_found p0 arr :
  (exists e, e ∈ arr /\ menu_id e = p0) -> dup_scan p0 arr = Resolved tt.
Proof.
  induction arr as [|e arr IH]; simpl; [set_solver|].
  intros (e' & Hin & Hid). destruct (strict_eq (menu_id e) p0) eqn:E; [done|].
  apply IH. rewrite elem_of_cons in Hin. destruct Hin as [->|Hin]; [|eauto].
  apply strict_eq_spec in Hid. congruence.
Qed.

Lemma dup_scan_missing p0 arr :
  (forall e, e ∈ arr -> menu_id e <> p0) ->
  dup_scan p0 arr = Rejected (Err_type "Cannot read properties of undefined (reading 'request')").
Proof.
  induction arr as [|e arr IH]; simpl; intros Hall; [done|].
  destruct (strict_eq (menu_id e) p0) eqn:E.
  - apply strict_eq_spec in E. exfalso. by apply (Hall e); [left|].
  - apply IH. intros e' He'. apply Hall. by right.
Qed.

(** The registry after a registration: the script's list under its
    owner becomes the one-entry list when it was empty, and is otherwise
    written back unchanged. *)
Lemma registerMenu_state req ch sm :
  let tm := default [] (JsMap.get (senderId req) sm) in
  let arr := default [] (JsMap.get req.(scriptId) tm) in
  (registerMenu req ch sm).1.1 =
  JsMap.set (senderId req)
    (JsMap.set req.(scriptId) (match arr with [] => [(req, ch)] | _ => arr end) tm) sm.
Proof.
  unfold registerMenu. cbv zeta.
  destruct (default [] (JsMap.get (scriptId req) _)) as [|e arr]; cbn [fst app].
  - by rewrite !JsMap.set_set.
  - by destruct (dup_scan _ _).
Qed.

Lemma registerMenu_entries req ch sm o k :
  entries_of o k (registerMenu req ch sm).1.1 =
  if decide (o = senderId req /\ k = req.(scriptId)) then
    match entries_of (senderId req) req.(scriptId) sm with
    | [] => [(req, ch)]
    | arr => arr
    end
  else entries_of o k sm.
Proof.
  rewrite registerMenu_state, entries_of_set, !(entries_of_tab _ _ sm). simpl.
  rewrite JsMap.get_set. repeat case_decide; try naive_solver.
  simpl. by destruct (default [] _).
Qed.

Lemma registerMenu_wf req ch sm : JsMap.wf sm -> JsMap.wf (registerMenu req ch sm).1.1.
Proof. intros Hwf. rewrite registerMenu_state. auto with js. Qed.

(** The registry after an unregistration, entry by entry: the whole owner
    is gone as soon as it had a [tabMap]. *)
Lemma unregisterMenu_entries mid req sm o k :
  JsMap.wf sm ->
  entries_of o k (unregisterMenu mid req sm).1 =
  if decide (o = senderId req /\ is_Some (JsMap.get (senderId req) sm)) then []
  else entries_of o k sm.
Proof.
  intros Hwf. unfold unregisterMenu. cbv zeta.
  destruct (JsMap.get (senderId req) sm) as [tm|] eqn:Htm; cbn [fst].
  - rewrite decide_True by done. rewrite entries_of_delete, entries_of_set by auto with js.
    repeat case_decide; naive_solver.
  - case_decide; [naive_solver|done].
Qed.

Lemma unregisterMenu_wf mid req sm : JsMap.wf sm -> JsMap.wf (unregisterMenu mid req sm).1.
Proof.
  intros Hwf. unfold unregisterMenu. cbv zeta.
  destruct (JsMap.get _ sm); cbn [fst]; [|done]. rewrite decide_True by done. auto with js.
Qed.

Lemma menu_step_wf sm sm' : menu_step sm sm' -> JsMap.wf sm -> JsMap.wf sm'.
Proof. destruct 1; [apply registerMenu_wf|apply unregisterMenu_wf]. Qed.

Lemma rtc_menu_step_wf sm : rtc menu_step [] sm -> JsMap.wf sm.
Proof.
  apply rtc_invariant; [apply JsMap.wf_empty|]. intros a b Hs. by apply menu_step_wf.
Qed.

Lemma entries_of_cons o k sm e arr :
  entries_of o k sm = e :: arr ->
  exists tm, JsMap.get o sm = Some tm /\ JsMap.get k tm = Some (e :: arr).
Proof.
  unfold entries_of. destruct (JsMap.get o sm) as [tm|]; simpl; [|done].
  destruct (JsMap.get k tm) eqn:E; simpl; intros; simplify_eq; eauto.
Qed.

(** A registration that finds its script's list non-empty writes nothing
    back: the registry is unchanged. *)
Lemma registerMenu_nonempty_state req ch sm e arr :
  entries_of (senderId req) req.(scriptId) sm = e :: arr ->
  (registerMenu req ch sm).1.1 = sm.
Proof.
  intros Hent. destruct (entries_of_cons _ _ _ _ _ Hent) as (tm & Htm & Harr).
  rewrite registerMenu_state. cbv zeta. rewrite Htm. cbn [from_option Datatypes.id]. rewrite Harr. cbn [from_option Datatypes.id].
  rewrite (JsMap.set_get (scriptId req) _ tm) by done. by rewrite JsMap.set_get.
Qed.

Lemma senderId_ok req : owner_ok (senderId req).
Proof. unfold senderId. destruct (tabId (sender req)); simpl; [case_decide|]; done. Qed.

(** A step writes under one key at most, the owner of its request. *)
Lemma menu_step_keys sm sm' o :
  menu_step sm sm' -> o ∈ JsMap.keys sm' -> o ∈ JsMap.keys sm \/ exists req, o = senderId req.
Proof.
  destruct 1 as [req ch sm|mid req sm]; intros Ho.
  - rewrite registerMenu_state in Ho. apply JsMap.elem_of_keys_set in Ho. naive_solver.
  - unfold unregisterMenu in Ho. cbv zeta in Ho.
    destruct (JsMap.get _ sm); cbn [fst] in Ho; [|by left].
    rewrite decide_True in Ho by done. apply JsMap.elem_of_keys_delete, JsMap.elem_of_keys_set in Ho.
    naive_solver.
Qed.

(** ** Properties of the registry *)

(** C5. First registration wins: registering a menu command whose id is
    already registered by the same script for the same owner closes the
    new request's channel and leaves the registry as it was. *)
Theorem registerMenu_first_wins req ch sm e :
  e ∈ entries_of (senderId req) req.(scriptId) sm ->
  menu_id e = js_index req.(params) 0 ->
  registerMenu req ch sm = (sm, [E_disChannel ch.(channel_flag)], Resolved tt).
Proof.
  intros Hin Hid.
  destruct (entries_of (senderId req) (scriptId req) sm) as [|e0 arr] eqn:Hent; [set_solver|].
  destruct (entries_of_cons _ _ _ _ _ Hent) as (tm & Htm & Harr).
  unfold registerMenu. cbv zeta. rewrite Htm. cbn [from_option Datatypes.id]. rewrite Harr. cbn [from_option Datatypes.id].
  rewrite dup_scan_found by (exists e; split; done).
  rewrite (JsMap.set_get (scriptId req) _ tm) by done. by rewrite JsMap.set_get.
Qed.

(** C6. A second menu command of the same script under the same owner,
    with a different id, is never registered: the scan of lines 189-195
    runs past the end of the array and throws a [TypeError], the registry
    is unchanged and the menu is not rebuilt. *)
Theorem registerMenu_second_command_throws req ch sm :
  entries_of (senderId req) req.(scriptId) sm <> [] ->
  (forall e, e ∈ entries_of (senderId req) req.(scriptId) sm ->
             menu_id e <> js_index req.(params) 0) ->
  registerMenu req ch sm =
    (sm, [], Rejected (Err_type "Cannot read properties of undefined (reading 'request')")).
Proof.
  intros Hne Hall.
  destruct (entries_of (senderId req) (scriptId req) sm) as [|e0 arr] eqn:Hent; [done|].
  destruct (entries_of_cons _ _ _ _ _ Hent) as (tm & Htm & Harr).
  unfold registerMenu. cbv zeta. rewrite Htm. cbn [from_option Datatypes.id].
  rewrite Harr. cbn [from_option Datatypes.id].
  rewrite dup_scan_missing by done.
  rewrite (JsMap.set_get (scriptId req) _ tm) by done. by rewrite JsMap.set_get.
Qed.

(** C7. In every reachable state of the registry, a script has at most one
    menu command under each owner. *)
Theorem menu_at_most_one_command sm :
  rtc menu_step [] sm -> forall o k, length (entries_of o k sm) <= 1.
Proof.
  intros Hr.
  cut (JsMap.wf sm /\ forall o k, length (entries_of o k sm) <= 1); [naive_solver|].
  revert Hr. apply (rtc_invariant menu_step
    (fun s => JsMap.wf s /\ forall o k, length (entries_of o k s) <= 1)).
  { split; [apply JsMap.wf_empty|]. intros o k. unfold entries_of. simpl. lia. }
  intros a b Hs [Hwf Hlen]. split; [by eapply menu_step_wf|].
  intros o k. destruct Hs as [req ch s0|mid req s0].
  - rewrite registerMenu_entries. case_decide; [|apply Hlen].
    destruct (entries_of _ _ s0) eqn:E; [simpl; lia|]. rewrite <- E. apply Hlen.
  - rewrite unregisterMenu_entries by done. case_decide; [simpl; lia|apply Hlen].
Qed.

(** C8. Unregistering any menu command of an owner that has a [tabMap]
    drops the owner's whole map: [Object.keys] of a [Map] is empty, so
    the test of line 224 always holds, and the commands of every other
    script of that tab go with it. *)
Theorem unregisterMenu_drops_owner mid req sm :
  JsMap.wf sm -> is_Some (JsMap.get (senderId req) sm) ->
  JsMap.get (senderId req) (unregisterMenu mid req sm).1 = None.
Proof.
  intros Hwf [tm Htm]. unfold unregisterMenu. cbv zeta. rewrite Htm. cbn [fst].
  rewrite decide_True by done. rewrite JsMap.get_delete_eq; auto with js.
Qed.

(** C9. The registry is well typed: in every reachable state its owner
    keys are context tags or non-zero tab ids (a tab id [0] is filed under
    the sender's tag), and every menu command is filed under the owner
    and the script id of its own request. *)
Theorem menu_registry_typed sm :
  rtc menu_step [] sm ->
  (forall o, o ∈ JsMap.keys sm -> owner_ok o) /\
  (forall o k e, e ∈ entries_of o k sm -> senderId e.1 = o /\ e.1.(scriptId) = k).
Proof.
  intros Hr. cut (JsMap.wf sm /\ menu_typed sm); [unfold menu_typed; naive_solver|].
  revert Hr. apply (rtc_invariant menu_step (fun s => JsMap.wf s /\ menu_typed s)); unfold menu_typed.
  { split_and!; [apply JsMap.wf_empty|set_solver|]. intros o k e. unfold entries_of. simpl. set_solver. }
  intros a b Hs (Hwf & Hkeys & Hent). split_and!; [by eapply menu_step_wf| |].
  { intros o Ho. destruct (menu_step_keys _ _ _ Hs Ho) as [Ho'|[req ->]]; [by apply Hkeys|apply senderId_ok]. }
  intros o k e. destruct Hs as [req ch s0|mid req s0].
  - rewrite registerMenu_entries. case_decide as Hok; [|apply Hent].
    destruct (entries_of _ _ s0) eqn:E; [|rewrite <- E; intros He; destruct Hok as [-> ->]; by apply Hent].
    rewrite list_elem_of_singleton. intros ->. naive_solver.
  - rewrite unregisterMenu_entries by done. case_decide; [set_solver|apply Hent].
Qed.

(** ** Scenarios and witnesses *)

Local Abbreviation page_sender := (mkSender (Some 5) None None "content").
Local Abbreviation req_foo := (mkRequest page_sender 7 [JNum 1; JStr "Foo"]).
Local Abbreviation req_bar := (mkRequest page_sender 7 [JNum 1; JStr "Bar"]).
Local Abbreviation req_baz := (mkRequest page_sender 7 [JNum 2; JStr "Baz"]).
Local Abbreviation req_other := (mkRequest page_sender 8 [JNum 3; JStr "Other"]).
Local Abbreviation sm_foo := (registerMenu req_foo (mkChannel "c1") []).1.1.

(** The scenario of spec section 8: [[1, "Foo"]] then [[1, "Bar"]] from
    the same script on the same tab keeps only the first (the second
    channel is closed); unregistering menu id [1] removes it and prunes the
    script's entry and, here, the tab's. *)
Theorem menu_scenario_duplicate_then_unregister :
  registerMenu req_bar (mkChannel "c2") sm_foo = (sm_foo, [E_disChannel "c2"], Resolved tt) /\
  entries_of (Tab 5) 7 sm_foo = [(req_foo, mkChannel "c1")] /\
  (unregisterMenu (JNum 1) req_foo sm_foo).1 = [].
Proof. vm_compute. repeat split. Qed.

Lemma registerMenu_first_wins_witness :
  registerMenu req_bar (mkChannel "c2") sm_foo = (sm_foo, [E_disChannel "c2"], Resolved tt).
Proof.
  apply (registerMenu_first_wins req_bar (mkChannel "c2") sm_foo (req_foo, mkChannel "c1")).
  - vm_compute. left.
  - reflexivity.
Defined.

Lemma registerMenu_second_command_throws_witness :
  registerMenu req_baz (mkChannel "c3") sm_foo =
    (sm_foo, [], Rejected (Err_type "Cannot read properties of undefined (reading 'request')")).
Proof.
  apply registerMenu_second_command_throws.
  - vm_compute. discriminate.
  - vm_compute. intros e He. inversion He; [|by inversion H1]. subst. discriminate.
Defined.

Lemma menu_at_most_one_command_witness :
  length (entries_of (Tab 5) 7 (registerMenu req_baz (mkChannel "c3") sm_foo).1.1) <= 1.
Proof.
  apply menu_at_most_one_command.
  eapply rtc_l; [apply step_register|]. eapply rtc_l; [apply step_register|]. apply rtc_refl.
Defined.

Lemma unregisterMenu_drops_owner_witness :
  JsMap.get (Tab 5)
    (unregisterMenu (JNum 1) req_foo (registerMenu req_other (mkChannel "c4") sm_foo).1.1).1
  = None.
Proof.
  change (Tab 5) with (senderId req_foo). apply unregisterMenu_drops_owner.
  - vm_compute. repeat constructor; set_solver.
  - vm_compute. eexists. reflexivity.
Defined.
Lemma menu_registry_typed_witness :
  (forall o, o ∈ JsMap.keys sm_foo -> owner_ok o) /\
  (forall o k e, e ∈ entries_of o k sm_foo -> senderId e.1 = o /\ e.1.(scriptId) = k).
Proof.
  apply menu_registry_typed. eapply rtc_l; [apply step_register|]. apply rtc_refl.
Defined.
End Menu.
