(* ===== verification/JsNumber.v ===== *)
(** * JS numbers as the badge counter uses them

    The page-load handler computes the new badge text as
    [(filter.length + (parseInt(res, 10) || 0)).toString()]
    (runtime.ts, line 411).  Every number in that expression holds an
    integer, so a JS number is modelled by the integer [z : Z] it holds,
    kept at the width of a double: [round53] rounds an exact integer to the
    nearest double (53-bit significand, ties to even), [js_add] is [+] on
    two such numbers, [parseInt10] is [parseInt(s, 10)] (leading white
    space skipped, an optional sign, then the longest run of decimal digits,
    read as the nearest double; no digit at all is [NaN], [None]), and
    [number_toString] is [Number.prototype.toString()] (ECMAScript
    Number::toString: the fewest significant digits that read back as the
    same double, printed in full below [10^21] and in exponent form from
    there on).  Magnitudes of [2^1024] and more, where JS has [Infinity],
    are not modelled: the counter saturates at [2^53] long before.  Digits
    go through the Standard Library's [Decimal.uint]. *)

From S2P Require Import Prelude.
From Stdlib Require Import NArith DecimalN DecimalFacts.

Module JsNumber.

(** ** Doubles holding integers *)

(** The double nearest [z]: with [e] the number of low bits a 53-bit
    significand cannot hold, [|z|] is rounded to a multiple of [2^e], a
    tie to the even multiple. *)
Definition round53 (z : Z) : Z :=
  let a := Z.abs z in
  let e := Z.max 0 (Z.log2 a - 52)%Z in
  let p := (2 ^ e)%Z in
  let q := (a / p)%Z in
  let r := (a mod p)%Z in
  let q' := (if 2 * r <? p then q
             else if p <? 2 * r then q + 1
             else if Z.even q then q else q + 1)%Z in
  (Z.sgn z * (q' * p))%Z.

(** [a + b] on two numbers holding integers. *)
Definition js_add (a b : Z) : Z := round53 (a + b)%Z.

(** ** Decimal digits *)

Definition digit_char (d : nat) : ascii := ascii_of_nat (48 + d).

Fixpoint uint_chars (d : Decimal.uint) : list ascii :=
  match d with
  | Decimal.Nil => []
  | Decimal.D0 d => digit_char 0 :: uint_chars d
  | Decimal.D1 d => digit_char 1 :: uint_chars d
  | Decimal.D2 d => digit_char 2 :: uint_chars d
  | Decimal.D3 d => digit_char 3 :: uint_chars d
  | Decimal.D4 d => digit_char 4 :: uint_chars d
  | Decimal.D5 d => digit_char 5 :: uint_chars d
  | Decimal.D6 d => digit_char 6 :: uint_chars d
  | Decimal.D7 d => digit_char 7 :: uint_chars d
  | Decimal.D8 d => digit_char 8 :: uint_chars d
  | Decimal.D9 d => digit_char 9 :: uint_chars d
  end.

(** The decimal digits of a non-negative integer. *)
Definition digits_of (m : Z) : list ascii := uint_chars (N.to_uint (Z.to_N m)).

Definition ndigits (m : Z) : nat := length (digits_of m).

Definition pow10 (d : nat) : Z := (10 ^ Z.of_nat d)%Z.

(** The value of a digit character, [None] for any other character. *)
Definition digit_of (c : ascii) : option (Decimal.uint -> Decimal.uint) :=
  match nat_of_ascii c with
  | 48 => Some Decimal.D0 | 49 => Some Decimal.D1 | 50 => Some Decimal.D2
  | 51 => Some Decimal.D3 | 52 => Some Decimal.D4 | 53 => Some Decimal.D5
  | 54 => Some Decimal.D6 | 55 => Some Decimal.D7 | 56 => Some Decimal.D8
  | 57 => Some Decimal.D9 | _ => None
  end.

(** The longest prefix of digits, read as a [Decimal.uint]. *)
Fixpoint digit_prefix (cs : list ascii) : Decimal.uint :=
  match cs with
  | [] => Decimal.Nil
  | c :: cs' =>
      match digit_of c with
      | Some d => d (digit_prefix cs')
      | None => Decimal.Nil
      end
  end.

(** ** [parseInt(s, 10)] *)

(** JS white space, restricted to ASCII: tab, line feed, vertical tab,
    form feed, carriage return and space. *)
Definition js_space (c : ascii) : bool :=
  bool_decide (nat_of_ascii c ∈ [9; 10; 11; 12; 13; 32]).

Fixpoint trim_start (cs : list ascii) : list ascii :=
  match cs with
  | c :: cs' => if js_space c then trim_start cs' else cs
  | [] => []
  end.

Definition minus_char : ascii := "-"%char.
Definition plus_char : ascii := "+"%char.

(** [parseInt(s, 10)]; [None] is [NaN].  The digits are read exactly and
    rounded once to the nearest double. *)
Definition parseInt10 (s : string) : option Z :=
  let cs := trim_start (String.list_ascii_of_string s) in
  let '(neg, rest) :=
    match cs with
    | c :: r => if Ascii.eqb c minus_char then (true, r)
               else if Ascii.eqb c plus_char then (false, r) else (false, cs)
    | [] => (false, cs)
    end in
  match digit_prefix rest with
  | Decimal.Nil => None
  | d => let n := Z.of_N (N.of_uint d) in Some (round53 (if neg then (- n)%Z else n))
  end.

(** [x || 0] on the result of [parseInt]: [NaN] and [0] are falsy. *)
Definition or_zero (o : option Z) : Z := default 0%Z o.

(** ** [Number.prototype.toString()] *)

(** [s * 10^d] is read back as the double [x]. *)
Definition reads_as (x s : Z) (d : nat) : bool := Z.eqb (round53 (s * pow10 d)%Z) x.

(** The significands of [d] trailing decimal places that read back as
    [x]: [x / 10^d] rounded down or up, the one nearer [x] when both do
    (a tie to the even one). *)
Definition candidate (x : Z) (d : nat) : option Z :=
  let lo := (x / pow10 d)%Z in
  let hi := (lo + 1)%Z in
  match reads_as x lo d, reads_as x hi d with
  | true, true =>
      let dl := (x - lo * pow10 d)%Z in
      let dh := (hi * pow10 d - x)%Z in
      Some (if (dl <? dh)%Z then lo else if (dh <? dl)%Z then hi else if Z.even lo then lo else hi)
  | true, false => Some lo
  | false, true => Some hi
  | false, false => None
  end.

(** Step 5 of Number::toString: the fewest significant digits, tried
    from one digit ([d] = [ndigits x - 1] trailing places) on; with no
    trailing place the number itself reads back. *)
Fixpoint shortest_from (x : Z) (d : nat) : Z * nat :=
  match candidate x d with
  | Some s => (s, d)
  | None => match d with 0 => (x, 0) | S d' => shortest_from x d' end
  end.

Definition shortest (x : Z) : Z * nat := shortest_from x (ndigits x - 1).

Fixpoint strip_zeros (cs : list ascii) : list ascii :=
  match cs with
  | [] => []
  | c :: cs' => if Ascii.eqb c (digit_char 0) then strip_zeros cs' else cs
  end.

(** Step 9: [d.ddde+n] for the significand [s] and exponent [n]. *)
Definition exponential (s : Z) (d : nat) : list ascii :=
  let ds := rev (strip_zeros (rev (digits_of s))) in
  let ex := "e"%char :: plus_char :: digits_of (Z.of_nat (ndigits (s * pow10 d)%Z - 1)) in
  match ds with
  | c :: ((_ :: _) as cs) => c :: "."%char :: cs ++ ex
  | _ => ds ++ ex
  end.

(** Steps 5-9 for a positive double [x]: step 6 (the digits of [s]
    followed by zeros) when the number has at most 21 digits, which for a
    double holding an integer is [x < 10^21]; step 9 otherwise. *)
Definition pos_toString (x : Z) : list ascii :=
  let '(s, d) := shortest x in
  if (x <? 10 ^ 21)%Z then digits_of (s * pow10 d)%Z else exponential s d.

(** [x.toString()]: step 3 writes a negative number as [-] and its
    magnitude. *)
Definition number_toString (z : Z) : string :=
  String.string_of_list_ascii
    match z with
    | Zneg p => minus_char :: pos_toString (Zpos p)
    | _ => pos_toString z
    end.

(** ** Lemmas *)

Lemma round53_opp z : round53 (- z) = (- round53 z)%Z.
Proof. unfold round53. rewrite Z.abs_opp, Z.sgn_opp. lia. Qed.

(** Integers of magnitude at most [2^53] are doubles. *)
Lemma round53_small z : (Z.abs z <= 2 ^ 53)%Z -> round53 z = z.
Proof.
  intros Hz. destruct (Z.eq_dec (Z.abs z) (2 ^ 53)) as [He|Hne].
  - destruct (Z.abs_eq_or_opp z) as [Ha|Ha]; rewrite Ha in He.
    + by rewrite <- Ha, He.
    + assert (z = - 2 ^ 53)%Z as -> by lia. reflexivity.
  - unfold round53. destruct (Z.eq_dec z 0) as [->|Hz0]; [reflexivity|].
    assert (Hlog : (Z.log2 (Z.abs z) < 53)%Z) by (apply Z.log2_lt_pow2; lia).
    rewrite Z.max_l by lia. cbn [Z.pow]. rewrite Z.div_1_r, Z.mod_1_r. simpl.
    rewrite Z.mul_1_r. by destruct z.
Qed.

Lemma digit_prefix_uint_chars d : digit_prefix (uint_chars d) = d.
Proof. induction d; simpl; by f_equal. Qed.

Lemma to_uint_nonnil n : N.to_uint n <> Decimal.Nil.
Proof.
  rewrite <- (Unsigned.of_to n), Unsigned.to_of. apply unorm_nonnil.
Qed.

Lemma uint_chars_head d :
  d <> Decimal.Nil -> exists c cs, uint_chars d = c :: cs /\ js_space c = false /\
    Ascii.eqb c minus_char = false /\ Ascii.eqb c plus_char = false.
Proof. destruct d; simpl; [done|..]; intros _; eexists _, _; split; done. Qed.

Lemma digits_value n (f : Z -> Z) :
  match N.to_uint n with
  | Decimal.Nil => None
  | d => Some (f (Z.of_N (N.of_uint d)))
  end = Some (f (Z.of_N n)).
Proof.
  pose proof (Unsigned.of_to n) as Hn. pose proof (to_uint_nonnil n) as Hnn.
  destruct (N.to_uint n); [done|..]; by rewrite Hn.
Qed.

Lemma digit_prefix_app u tail :
  digit_prefix tail = Decimal.Nil -> digit_prefix (uint_chars u ++ tail) = u.
Proof. intros Ht. induction u; simpl; by f_equal. Qed.

(** [parseInt] on the digits of [m] followed by anything that does not
    start with a digit, with or without a [-] in front. *)
Lemma parseInt10_digits_stop m tail :
  (0 <= m)%Z -> digit_prefix tail = Decimal.Nil ->
  parseInt10 (String.string_of_list_ascii (digits_of m ++ tail)) = Some (round53 m) /\
  parseInt10 (String.string_of_list_ascii (minus_char :: digits_of m ++ tail)) = Some (round53 (- m)).
Proof.
  intros Hm Ht. unfold parseInt10, digits_of. rewrite !String.list_ascii_of_string_of_list_ascii.
  destruct (uint_chars_head (N.to_uint (Z.to_N m))) as (c & cs & Hcs & Hs & Hmi & Hp); [apply to_uint_nonnil|].
  split.
  - rewrite Hcs. cbn [trim_start app]. rewrite Hs, Hmi, Hp, app_comm_cons, <- Hcs, digit_prefix_app by done.
    rewrite (digits_value (Z.to_N m) (fun x => round53 x)). by rewrite Z2N.id.
  - cbn [trim_start]. rewrite (eq_refl : js_space minus_char = false), (eq_refl : Ascii.eqb minus_char minus_char = true).
    cbv beta iota zeta. rewrite digit_prefix_app by done.
    rewrite (digits_value (Z.to_N m) (fun x => round53 (- x))). by rewrite Z2N.id.
Qed.

Lemma parseInt10_digits m :
  (0 <= m)%Z -> parseInt10 (String.string_of_list_ascii (digits_of m)) = Some (round53 m).
Proof. intros Hm. rewrite <- (List.app_nil_r (digits_of m)). by apply parseInt10_digits_stop. Qed.

Lemma parseInt10_minus_digits m :
  (0 <= m)%Z -> parseInt10 (String.string_of_list_ascii (minus_char :: digits_of m)) = Some (round53 (- m)).
Proof. intros Hm. rewrite <- (List.app_nil_r (digits_of m)). by apply parseInt10_digits_stop. Qed.

(** The significand [Number::toString] picks reads back as the number. *)
Lemma candidate_reads x d s :
  (0 <= x)%Z -> candidate x d = Some s -> round53 (s * pow10 d) = x /\ (0 <= s * pow10 d)%Z.
Proof.
  intros Hx. assert (Hp : (0 < pow10 d)%Z) by (unfold pow10; lia).
  assert (Hlo : (0 <= x / pow10 d)%Z) by (apply Z.div_pos; lia).
  unfold candidate, reads_as.
  destruct (Z.eqb_spec (round53 (x / pow10 d * pow10 d)) x) as [El|El];
    destruct (Z.eqb_spec (round53 ((x / pow10 d + 1) * pow10 d)) x) as [Eh|Eh]; intros H; try done;
    repeat case_match; simplify_eq; split; try done; apply Z.mul_nonneg_nonneg; lia.
Qed.

Lemma shortest_from_reads x d :
  round53 x = x -> (0 <= x)%Z ->
  round53 ((shortest_from x d).1 * pow10 (shortest_from x d).2) = x /\
  (0 <= (shortest_from x d).1 * pow10 (shortest_from x d).2)%Z.
Proof.
  intros Hx Hx0. induction d as [|d IH]; cbn [shortest_from];
    (destruct (candidate x _) as [s|] eqn:E; [by apply candidate_reads|]); [|done].
  simpl. rewrite Z.mul_1_r. done.
Qed.

Lemma shortest_reads x :
  round53 x = x -> (0 <= x)%Z ->
  round53 ((shortest x).1 * pow10 (shortest x).2) = x /\ (0 <= (shortest x).1 * pow10 (shortest x).2)%Z.
Proof. apply shortest_from_reads. Qed.

(** [parseInt(s, 10)] reads back what [toString] prints for a double
    below [10^21]. *)
Lemma parseInt10_number_toString z :
  round53 z = z -> (Z.abs z < 10 ^ 21)%Z -> parseInt10 (number_toString z) = Some z.
Proof.
  intros Hz Hlt. unfold number_toString, pos_toString.
  destruct z as [|p|p]; [reflexivity|..].
  - destruct (shortest_reads (Zpos p) Hz ltac:(lia)) as [Hr Hn].
    destruct (shortest (Zpos p)) as [s d]. simpl in Hr, Hn.
    rewrite (proj2 (Z.ltb_lt _ _)) by lia. rewrite parseInt10_digits by done. by rewrite Hr.
  - assert (Hz' : round53 (Zpos p) = Zpos p).
    { replace (Zpos p) with (- Zneg p)%Z by reflexivity. by rewrite round53_opp, Hz. }
    destruct (shortest_reads (Zpos p) Hz' ltac:(lia)) as [Hr Hn].
    destruct (shortest (Zpos p)) as [s d]. simpl in Hr, Hn.
    rewrite (proj2 (Z.ltb_lt _ _)) by lia. rewrite parseInt10_minus_digits by done.
    by rewrite round53_opp, Hr.
Qed.

(** The safe integers read back. *)
Lemma parseInt10_toString_safe z : (Z.abs z <= 2 ^ 53)%Z -> parseInt10 (number_toString z) = Some z.
Proof.
  intros Hz. apply parseInt10_number_toString; [by apply round53_small|].
  assert (H : (2 ^ 53 < 10 ^ 21)%Z) by reflexivity. lia.
Qed.

Lemma js_add_exact a b : (Z.abs (a + b) <= 2 ^ 53)%Z -> js_add a b = (a + b)%Z.
Proof. apply round53_small. Qed.

(** [Number::toString] switches to exponent form at [10^21], which
    [parseInt] reads as its leading digit. *)
Example toString_exponent_form :
  number_toString (10 ^ 21) = "1e+21"%string /\ parseInt10 (number_toString (10 ^ 21)) = Some 1%Z.
Proof. split; reflexivity. Qed.

Lemma uint_chars_digit u c : c ∈ uint_chars u -> exists k, (k < 10)%nat /\ c = digit_char k.
Proof.
  induction u; simpl; [by rewrite elem_of_nil|..]; rewrite elem_of_cons;
    (intros [->|Hc]; [eexists; split; [|reflexivity]; lia|by apply IHu]).
Qed.

Lemma elem_of_rev {A} (x : A) l : x ∈ rev l <-> x ∈ l.
Proof.
  rewrite !list_elem_of_In. symmetry. apply in_rev.
Qed.

Lemma elem_of_strip_zeros c cs : c ∈ strip_zeros cs -> c ∈ cs.
Proof. induction cs as [|c' cs IH]; simpl; [done|]. case_match; set_solver. Qed.

Lemma digits_of_digit k : (k < 10)%nat -> digits_of (Z.of_nat k) = [digit_char k].
Proof. intros Hk. do 10 (destruct k as [|k]; [reflexivity|]). lia. Qed.

(** [parseInt] stops at the first character that is not a digit: a
    string made of one digit and a non-digit reads as that digit. *)
Lemma parseInt10_one_digit k c rest :
  (k < 10)%nat -> digit_of c = None ->
  parseInt10 (String.string_of_list_ascii (digit_char k :: c :: rest)) = Some (Z.of_nat k) /\
  parseInt10 (String.string_of_list_ascii (minus_char :: digit_char k :: c :: rest)) = Some (- Z.of_nat k)%Z.
Proof.
  intros Hk Hc. assert (Ht : digit_prefix (c :: rest) = Decimal.Nil) by (cbn [digit_prefix]; by rewrite Hc).
  destruct (parseInt10_digits_stop (Z.of_nat k) (c :: rest) ltac:(lia) Ht) as [H1 H2].
  rewrite digits_of_digit in H1, H2 by done. rewrite round53_small in H1, H2 by lia. by split.
Qed.

(** From [10^21] on, [toString] prints an exponent form, which [parseInt]
    reads as its leading digit, or not at all. *)
Lemma parseInt10_exponential_small x :
  (10 ^ 21 <= x)%Z ->
  (forall v, parseInt10 (String.string_of_list_ascii (pos_toString x)) = Some v -> (Z.abs v < 10)%Z) /\
  (forall v, parseInt10 (String.string_of_list_ascii (minus_char :: pos_toString x)) = Some v -> (Z.abs v < 10)%Z).
Proof.
  intros Hx. unfold pos_toString. destruct (shortest x) as [s d].
  rewrite (proj2 (Z.ltb_ge _ _)) by lia. unfold exponential.
  assert (Hds : forall c, c ∈ rev (strip_zeros (rev (digits_of s))) -> exists k, (k < 10)%nat /\ c = digit_char k).
  { intros c Hc. rewrite elem_of_rev in Hc. apply elem_of_strip_zeros in Hc. rewrite elem_of_rev in Hc.
    exact (uint_chars_digit _ _ Hc). }
  set (ex := digits_of (Z.of_nat (ndigits (s * pow10 d) - 1))).
  destruct (rev (strip_zeros (rev (digits_of s)))) as [|c [|c' cs]]; cbn [app].
  - split; intros v Hv; discriminate Hv.
  - destruct (Hds c ltac:(left)) as (k & Hk & ->).
    destruct (parseInt10_one_digit k "e"%char (plus_char :: ex) Hk eq_refl) as [-> ->].
    split; intros v [= <-]; lia.
  - destruct (Hds c ltac:(left)) as (k & Hk & ->).
    destruct (parseInt10_one_digit k "."%char (c' :: cs ++ "e"%char :: plus_char :: ex) Hk eq_refl) as [-> ->].
    split; intros v [= <-]; lia.
Qed.

(** A double of [10^21] or more does not read back. *)
Lemma parseInt10_toString_large z :
  (10 ^ 21 <= Z.abs z)%Z -> parseInt10 (number_toString z) <> Some z.
Proof.
  intros Hz Heq. unfold number_toString in Heq. destruct z as [|p|p]; [lia|..].
  - destruct (parseInt10_exponential_small (Zpos p) ltac:(lia)) as [H _]. specialize (H _ Heq). lia.
  - destruct (parseInt10_exponential_small (Zpos p) ltac:(lia)) as [_ H]. specialize (H _ Heq). lia.
Qed.

(** ** Properties *)

(** [parseInt(s, 10)] reads back what [Number.prototype.toString()]
    prints exactly for the doubles holding an integer below [10^21] in
    magnitude: also above [2^53], where the digits printed are the
    shortest that read back and not the number's exact decimal expansion;
    from [10^21] on the exponent form reads back as its leading digit. *)
Lemma parseInt10_toString z :
  round53 z = z -> parseInt10 (number_toString z) = Some z <-> (Z.abs z < 10 ^ 21)%Z.
Proof.
  intros Hz. split.
  - intros Heq. destruct (Z.lt_ge_cases (Z.abs z) (10 ^ 21)) as [Hlt|Hge]; [done|].
    by apply parseInt10_toString_large in Heq.
  - by apply parseInt10_number_toString.
Qed.

End JsNumber.
