(* ===== verification/Runtime.v ===== *)
(** * The orchestrator: class [Runtime] of src/runtime/background/runtime.ts

    [World] is the state the handlers of [Runtime] read and write: the
    script store ([scriptDAO]'s table, ordered by id as [toArray] returns
    it), the two URL indexes [this.match] and [this.include], the closures'
    state of [start()] ([runBackScript], [scriptMenu], [injectedSource]),
    the listeners of the static [Runtime.hook] and of [ScriptManager.hook],
    [scriptFlag], the counter of random draws, the badge text of each tab,
    and the trace of effects on the outside world, oldest first.

    Every handler is a definition in the monad [M World] of the prelude,
    written in the order of the source: [matchUrl] (lines 457-471),
    [loadPageScript]/[unloadPageScript] (503-543), [loadBackgroundScript]/
    [unloadBackgroundScript] (546-573), [startBackgroundScript]/
    [stopBackgroundScript] (575-593), [enable]/[disable] (485-500),
    [scriptUpdate] (450-455), [scriptDelete] (474-482), the ["start"] and
    ["stop"] requests (95-125), the run-status handlers (249-261, 425-447),
    [pageLoad] (325-422), [queryPageScript] (264-322) and the start-up load
    (129-144).  A handler that is not awaited in the source is run with
    [fire]: its effects happen, its outcome is dropped. *)

From S2P Require Import Prelude JsMap Glob UrlMatch Hook Script Resource Menu JsNumber.

Module Runtime.

(** ** State *)

(** The listeners of [Runtime.hook]'s ["runStatus"] event: the cache
    updater registered by [start()] (line 249) and one watcher per
    ["watchRunStatus"] channel (line 442). *)
Inductive rs_listener := RS_backScript | RS_watch (ch : string).

(** The listeners [Runtime] puts on [ScriptManager.hook]: [scriptUpdate]
    and [scriptDelete] in the constructor (lines 86-89), the cache updates
    of [start()] (lines 237-247). *)
Inductive sm_listener := SM_scriptUpdate | SM_scriptDelete | SM_backEnable | SM_backDisable.

#[export] Instance rs_listener_eq_dec : EqDecision rs_listener.
Proof. solve_decision. Defined.
#[export] Instance sm_listener_eq_dec : EqDecision sm_listener.
Proof. solve_decision. Defined.

Abbreviation match_index := (Index.index (R := UrlMatch.pattern) (T := ScriptRunResouce)).
Abbreviation include_index := (Index.index (R := list ascii) (T := ScriptRunResouce)).

Record World := mkWorld {
  dao : list (nat * Script);
  matchIx : match_index;
  includeIx : include_index;
  runBackScript : list (nat * Script);
  scriptMenu : Menu.script_menu;
  runtimeHook : list (string * rs_listener);
  managerHook : list (string * sm_listener);
  scriptFlag : string;
  injectedSource : string;
  rng : nat;
  badge : list (nat * string);
  trace : list effect;
}.

Definition set_dao x w := mkWorld x w.(matchIx) w.(includeIx) w.(runBackScript) w.(scriptMenu)
  w.(runtimeHook) w.(managerHook) w.(scriptFlag) w.(injectedSource) w.(rng) w.(badge) w.(trace).
Definition set_matchIx x w := mkWorld w.(dao) x w.(includeIx) w.(runBackScript) w.(scriptMenu)
  w.(runtimeHook) w.(managerHook) w.(scriptFlag) w.(injectedSource) w.(rng) w.(badge) w.(trace).
Definition set_includeIx x w := mkWorld w.(dao) w.(matchIx) x w.(runBackScript) w.(scriptMenu)
  w.(runtimeHook) w.(managerHook) w.(scriptFlag) w.(injectedSource) w.(rng) w.(badge) w.(trace).
Definition set_runBackScript x w := mkWorld w.(dao) w.(matchIx) w.(includeIx) x w.(scriptMenu)
  w.(runtimeHook) w.(managerHook) w.(scriptFlag) w.(injectedSource) w.(rng) w.(badge) w.(trace).
Definition set_scriptMenu x w := mkWorld w.(dao) w.(matchIx) w.(includeIx) w.(runBackScript) x
  w.(runtimeHook) w.(managerHook) w.(scriptFlag) w.(injectedSource) w.(rng) w.(badge) w.(trace).
Definition set_runtimeHook x w := mkWorld w.(dao) w.(matchIx) w.(includeIx) w.(runBackScript)
  w.(scriptMenu) x w.(managerHook) w.(scriptFlag) w.(injectedSource) w.(rng) w.(badge) w.(trace).
Definition set_managerHook x w := mkWorld w.(dao) w.(matchIx) w.(includeIx) w.(runBackScript)
  w.(scriptMenu) w.(runtimeHook) x w.(scriptFlag) w.(injectedSource) w.(rng) w.(badge) w.(trace).
Definition set_injectedSource x w := mkWorld w.(dao) w.(matchIx) w.(includeIx) w.(runBackScript)
  w.(scriptMenu) w.(runtimeHook) w.(managerHook) w.(scriptFlag) x w.(rng) w.(badge) w.(trace).
Definition set_rng x w := mkWorld w.(dao) w.(matchIx) w.(includeIx) w.(runBackScript)
  w.(scriptMenu) w.(runtimeHook) w.(managerHook) w.(scriptFlag) w.(injectedSource) x w.(badge) w.(trace).
Definition set_badge x w := mkWorld w.(dao) w.(matchIx) w.(includeIx) w.(runBackScript)
  w.(scriptMenu) w.(runtimeHook) w.(managerHook) w.(scriptFlag) w.(injectedSource) w.(rng) x w.(trace).
Definition set_trace x w := mkWorld w.(dao) w.(matchIx) w.(includeIx) w.(runBackScript)
  w.(scriptMenu) w.(runtimeHook) w.(managerHook) w.(scriptFlag) w.(injectedSource) w.(rng) w.(badge) x.

(** ** Primitive effects *)

(** An effect on the outside world, appended to the trace. *)
Definition emit (e : effect) : M World unit := modify (fun w => set_trace (w.(trace) ++ [e]) w).

(** [this.logger.error(msg, ...)] *)
Definition log_error (msg : string) : M World unit := emit (E_log msg).

(** [this.scriptDAO.findById(id)] *)
Definition findById (sid : nat) : M World (option Script) :=
  fun w => (Resolved (JsMap.get sid w.(dao)), w).

(** [this.messageSandbox.syncSend(topic, payload)]: the message leaves, the
    sandbox's answer settles the promise. *)
Definition syncSend (env : Env) (topic : string) (p : payload) : M World unit :=
  await_ emit (E_syncSend topic p) ;; lift (env.(sandboxReply) topic p).

(** The two indexes, at the value type and key of the runtime. *)
Definition match_add (r : string) := Index.ix_add UrlMatch.parse_rule (T := ScriptRunResouce) r.
Definition match_exclude (r : string) := Index.ix_exclude UrlMatch.parse_rule (T := ScriptRunResouce) r.
Definition match_del := Index.ix_del (R := UrlMatch.pattern) res_id.
Definition match_match (u : string) := Index.ix_match UrlMatch.covers res_id u.
Definition include_add (r : string) := Index.ix_add UrlInclude.parse_rule (T := ScriptRunResouce) r.
Definition include_exclude (r : string) := Index.ix_exclude UrlInclude.parse_rule (T := ScriptRunResouce) r.
Definition include_del := Index.ix_del (R := list ascii) res_id.
Definition include_match (u : string) := Index.ix_match UrlInclude.covers res_id u.

(** ** [matchUrl] (lines 457-471) *)

(** [filter[script.id] = script] for every script not dropped by
    [filterFunc], then [Object.keys(filter).map((key) => filter[key])]. *)
Definition dedup (filterFunc : option (ScriptRunResouce -> bool))
    (scripts : list ScriptRunResouce) : list (nat * ScriptRunResouce) :=
  foldl (fun o s =>
           match filterFunc with
           | Some f => if f s then o else IntObj.oset (res_id s) s o
           | None => IntObj.oset (res_id s) s o
           end) [] scripts.

Definition matchUrl (u : string) (filterFunc : option (ScriptRunResouce -> bool)) (w : World)
    : list ScriptRunResouce :=
  let scripts := match_match u w.(matchIx) ++ include_match u w.(includeIx) in
  IntObj.ovalues (dedup filterFunc scripts).

(** ** Page scripts (lines 502-543) *)

Definition url_load_error : string := "url load error".

(** The [forEach] of lines 510-516 and 519-525: every rule is added in a
    [try] block of its own; a rule that throws is logged and skipped. *)
Fixpoint add_rules {I} (add : string -> ScriptRunResouce -> I -> option I)
    (rules : list string) (v : ScriptRunResouce) (ix : I) : I * list effect :=
  match rules with
  | [] => (ix, [])
  | r :: rs =>
      let '(ix1, l1) := match add r v ix with
                        | Some ix' => (ix', [])
                        | None => (ix, [E_log url_load_error])
                        end in
      let '(ix2, l2) := add_rules add rs v ix1 in
      (ix2, l1 ++ l2)
  end.

(** Lines 527-536: one [try] block holds [include.exclude] then
    [match.exclude]; when the first throws the second is not run. *)
Fixpoint add_excludes (rules : list string) (v : ScriptRunResouce)
    (mi : match_index) (ii : include_index) : match_index * include_index * list effect :=
  match rules with
  | [] => (mi, ii, [])
  | r :: rs =>
      let '(mi1, ii1, l1) :=
        match include_exclude r v ii with
        | None => (mi, ii, [E_log url_load_error])
        | Some ii' =>
            match match_exclude r v mi with
            | Some mi' => (mi', ii', [])
            | None => (mi, ii', [E_log url_load_error])
            end
        end in
      let '(mi2, ii2, l2) := add_excludes rs v mi1 ii1 in
      (mi2, ii2, l1 ++ l2)
  end.

(** Lines 503-538: recompile the code, delete every rule of the script from
    both indexes, then add its [match], [include] and [exclude] rules. *)
Definition loadPageScript (env : Env) (script : ScriptRunResouce) : M World bool :=
  fun w =>
    let s := res_with_code (env.(dealScript) (env.(compileInjectScript) script)) script in
    let mi0 := match_del s w.(matchIx) in
    let ii0 := include_del s w.(includeIx) in
    let '(mi1, l1) := add_rules match_add (default [] (meta "match" s.(res_script))) s mi0 in
    let '(ii1, l2) := add_rules include_add (default [] (meta "include" s.(res_script))) s ii0 in
    let '(mi2, ii2, l3) := add_excludes (default [] (meta "exclude" s.(res_script))) s mi1 ii1 in
    (Resolved true, set_trace (w.(trace) ++ l1 ++ l2 ++ l3) (set_includeIx ii2 (set_matchIx mi2 w))).

(** Lines 541-543: the plain script, cast to a run resource. *)
Definition unloadPageScript (env : Env) (script : Script) : M World bool :=
  loadPageScript env (of_script script).

(** ** Background scripts (lines 545-593) *)

Definition loadBackgroundScript (env : Env) (script : ScriptRunResouce) : M World bool :=
  catch (await_ syncSend env "enable" (P_res script) ;; ret true)
        (fun err => await_ log_error "backscript load error" ;; throw err).

Definition unloadBackgroundScript (env : Env) (script : Script) : M World bool :=
  catch (await_ syncSend env "disable" (P_id script.(id)) ;; ret true)
        (fun err => await_ log_error "backscript stop error" ;; throw err).

(** [buildScriptRunResource] in the runtime's state: a resolved build
    consumes one random draw. *)
Definition build (env : Env) (script : Script) : M World ScriptRunResouce :=
  fun w =>
    match Resource.buildScriptRunResource env w.(rng) script with
    | Resolved r => (Resolved r, set_rng (S w.(rng)) w)
    | Rejected e => (Rejected e, w)
    | Pending => (Pending, w)
    end.

(** Lines 575-579: the ["start"] message is sent and not awaited. *)
Definition startBackgroundScript (env : Env) (script : Script) : M World bool :=
  await scriptRes <- build env script ;;
  await_ fire (syncSend env "start" (P_res scriptRes)) ;;
  ret true.

Definition stopBackgroundScript (env : Env) (scriptId : nat) : M World unit :=
  catch (syncSend env "stop" (P_id scriptId))
        (fun err => await_ log_error "backscript stop error" ;; throw err).

(** ** Enable, disable, update, delete (lines 449-500) *)

Definition enable (env : Env) (script : Script) : M World bool :=
  await scriptRes <- build env script ;;
  if is_background script then loadBackgroundScript env scriptRes
  else loadPageScript env scriptRes.

Definition disable (env : Env) (script : Script) : M World bool :=
  if is_background script then unloadBackgroundScript env script
  else unloadPageScript env script.

Definition scriptUpdate (env : Env) (script : Script) : M World bool :=
  if is_enabled script then enable env script else disable env script.

Definition scriptDelete (env : Env) (script : Script) : M World bool :=
  await_ modify (fun w => set_includeIx (include_del (of_script script) w.(includeIx))
                            (set_matchIx (match_del (of_script script) w.(matchIx)) w)) ;;
  await_ (if is_enabled script then disable env script else ret true) ;;
  ret true.

(** ** The ["start"] and ["stop"] requests (lines 95-125) *)

Definition startRequest (env : Env) (sid : nat) : M World bool :=
  catch (await o <- findById sid ;;
         match o with
         | None => throw (Err_message "script not found")
         | Some script => startBackgroundScript env script
         end)
        (fun e => await_ log_error "run error" ;; throw e).

Definition stopRequest (env : Env) (sid : nat) : M World unit :=
  catch (await o <- findById sid ;;
         match o with
         | None => throw (Err_message "script not found")
         | Some _ => stopBackgroundScript env sid
         end)
        (fun e => await_ log_error "stop error" ;; throw e).

(** ** The background-script cache [runBackScript] *)

(** Lines 237-242 and 243-247: the listeners of [start()] on the
    ["enable"] and ["disable"] events. *)
Definition backEnable (script : Script) : M World unit :=
  modify (fun w => if is_background script
                   then set_runBackScript (JsMap.set script.(id) script w.(runBackScript)) w
                   else w).

Definition backDisable (script : Script) : M World unit :=
  modify (fun w => if is_background script
                   then set_runBackScript (JsMap.delete script.(id) w.(runBackScript)) w
                   else w).

(** Lines 251-260: what the ["runStatus"] listener does with the record
    it read. *)
Definition runStatus_apply (scriptId : nat) (o : option Script) : M World unit :=
  match o with
  | None => ret tt
  | Some script =>
      modify (fun w => if is_enabled script
                       then set_runBackScript (JsMap.set scriptId script w.(runBackScript)) w
                       else set_runBackScript (JsMap.delete scriptId w.(runBackScript)) w)
  end.

(** Lines 249-261: the ["runStatus"] listener re-reads the script. *)
Definition runStatusUpdate (scriptId : nat) : M World unit :=
  await o <- findById scriptId ;;
  runStatus_apply scriptId o.

(** ** Run status (lines 425-447) *)

(** [scriptDAO.update(id, changes)]: no effect on a missing record. *)
Definition dao_update_runStatus (sid : nat) (rs : run_status) (now : nat)
    (d : list (nat * Script)) : list (nat * Script) :=
  match JsMap.get sid d with
  | Some s => IntObj.oset sid (with_runStatus rs now s) d
  | None => d
  end.

Definition run_rs_listener (sid : nat) (rs : run_status) (l : rs_listener) : M World unit :=
  match l with
  | RS_backScript => runStatusUpdate sid
  | RS_watch ch => emit (E_channelSend ch sid rs)
  end.

(** [hook.trigger(...)]: every listener in registration order; a listener's
    promise is not awaited. *)
Fixpoint run_all {A} (f : A -> M World unit) (l : list A) : M World unit :=
  match l with
  | [] => ret tt
  | x :: l' => await_ fire (f x) ;; run_all f l'
  end.

(** Lines 428-435: the sandbox reports a run status. *)
Definition scriptRunStatus (sid : nat) (rs : run_status) (now : nat) : M World unit :=
  await_ modify (fun w => set_dao (dao_update_runStatus sid rs now w.(dao)) w) ;;
  await w <- get ;;
  run_all (run_rs_listener sid rs) (Hook.listeners "runStatus" w.(runtimeHook)).

(** Lines 438-446: a watch channel adds its listener, and removes it when
    the channel disconnects. *)
Definition watchRunStatus (ch : Channel) : M World unit :=
  modify (fun w => set_runtimeHook
            (Hook.addListener "runStatus" (RS_watch ch.(channel_flag)) w.(runtimeHook)) w).

Definition watchDisconnect (ch : Channel) : M World unit :=
  modify (fun w => set_runtimeHook
            (Hook.removeListener "runStatus" (RS_watch ch.(channel_flag)) w.(runtimeHook)) w).

(** ** Page load (lines 324-422) *)

Definition dq : ascii := ascii_of_nat 34.

(** The injection template of lines 350-357 and 392-399 around [code]
    (its white space elided). *)
Definition inject_wrapper (code : string) : string :=
  String.append "(function(){ let temp = document.createElement('script'); temp.setAttribute('type', 'text/javascript'); temp.innerHTML = "
  (String.String dq (String.append code (String.String dq
  (String.append "; temp.className = " (String.String dq (String.append "injected-js"
  (String.String dq "; document.documentElement.appendChild(temp); temp.remove(); }())"))))))).

(** Lines 370-389: [runAt] starts as ["document_idle"], takes the first
    [run-at] value when the key is present ([[runAt] = []] leaves
    [undefined]), and the [switch] compares it with [===] case by case. *)
Definition normalize_run_at (runAt : option string) : run_at :=
  match runAt with
  | Some v =>
      if decide (v = "document-body") then document_start
      else if decide (v = "document-menu") then document_start
      else if decide (v = "document-start") then document_start
      else if decide (v = "document-end") then document_end
      else if decide (v = "document-idle") then document_idle
      else document_idle
  | None => document_idle
  end.

Definition run_at_of (script : ScriptRunResouce) : run_at :=
  normalize_run_at (match meta "run-at" script.(res_script) with
                    | Some l => head l
                    | None => Some "document_idle"
                    end).

(** Lines 338-344: the scripts [pageLoad] drops: not enabled, or declaring
    [noframes] (any value, an array being truthy) when the sender has a
    [frameId]. *)
Definition pageLoad_filter (sd : MessageSender) (script : ScriptRunResouce) : bool :=
  negb (is_enabled script.(res_script))
  || (bool_decide (is_Some sd.(frameId)) && bool_decide (is_Some (meta "noframes" script.(res_script)))).

(** [sender.url && sender.tabId]: the empty URL and the tab [0] are falsy. *)
Definition truthy_url (u : option string) : option string :=
  match u with Some "" | None => None | Some s => Some s end.
Definition truthy_tab (t : option nat) : option nat :=
  match t with Some 0 | None => None | Some n => Some n end.

(** The badge text of a tab, [""] until one is set. *)
Definition badge_text (tab : nat) (w : World) : string := default "" (JsMap.get tab w.(badge)).

(** [chrome.browserAction.getBadgeText({ tabId })] (lines 405-407): the
    text its callback receives.  The browser serves the extension's API
    calls in the order they are made, so the text is the one shown when
    the call is made. *)
Definition getBadgeText (tab : nat) : M World string :=
  fun w => (Resolved (badge_text tab w), w).

(** Lines 408-413: the callback writes the count of injected scripts plus
    the number [res] the badge showed. *)
Definition badge_callback (tab : nat) (n : nat) (res : string) : M World unit :=
  fun w =>
    let text := JsNumber.number_toString
                  (JsNumber.js_add (Z.of_nat n) (JsNumber.or_zero (JsNumber.parseInt10 res))) in
    (Resolved tt, set_trace (w.(trace) ++ [E_setBadgeText tab text])
                    (set_badge (JsMap.set tab text w.(badge)) w)).

(** Lines 404-415, with the callback run at once. *)
Definition badge_update (tab : nat) (n : nat) : M World unit :=
  await res <- getBadgeText tab ;; badge_callback tab n res.

Definition badge_color : string := "#4594d5".

(** Lines 325-422.  A sender without a URL or a tab gets no answer at all:
    the promise never settles.  The badge background colour is set before
    the badge text, which is written by an asynchronous callback. *)
Definition pageLoad (env : Env) (snd : option MessageSender)
    : M World (string * list ScriptRunResouce) :=
  match snd with
  | None => pending
  | Some sd =>
      match truthy_url sd.(url), truthy_tab sd.(tabId) with
      | Some u, Some tab =>
          await w <- get ;;
          let filter := matchUrl u (Some (pageLoad_filter sd)) w in
          await_ emit (E_executeScript tab sd.(frameId) (inject_wrapper w.(injectedSource))
                         document_start) ;;
          match filter with
          | [] => ret (w.(scriptFlag), [])
          | _ :: _ =>
              await_ run_all (fun script =>
                        emit (E_executeScript tab sd.(frameId)
                                (inject_wrapper script.(res_script).(code)) (run_at_of script)))
                      filter ;;
              await_ emit (E_setBadgeBackgroundColor tab badge_color) ;;
              await_ badge_update tab (length filter) ;;
              ret (w.(scriptFlag), filter)
          end
      | _, _ => pending
      end
  end.

(** ** [queryPageScript] (lines 264-322) *)

Record ScriptMenuItem := mkMenuItem {
  item_id : jsval;
  item_name : jsval;
  item_accessKey : jsval;
  item_sender : MessageSender;
  item_channelFlag : string;
}.

Record ScriptMenu := mkScriptMenu {
  menu_script_id : nat;
  menu_script_name : string;
  menu_enable : bool;
  menu_updatetime : nat;
  menu_hasUserConfig : bool;
  menu_runStatus : option run_status;
  menu_items : list ScriptMenuItem;
}.

Definition menu_item (e : Menu.menu_entry) : ScriptMenuItem :=
  mkMenuItem (js_index e.1.(params) 0) (js_index e.1.(params) 1) (js_index e.1.(params) 2)
             e.1.(sender) e.2.(channel_flag).

(** [item.updatetime || item.createtime] *)
Definition update_or_create (s : Script) : nat :=
  match s.(updatetime) with Some (S n) => S n | _ => s.(createtime) end.

Definition menus_of (tabMap : option Menu.tab_map) (sid : nat) : list ScriptMenuItem :=
  match tabMap with
  | Some tm => map menu_item (default [] (JsMap.get sid tm))
  | None => []
  end.

Definition queryPageScript (u : string) (tab : nat) (w : World)
    : list ScriptMenu * list ScriptMenu :=
  let tabMap := JsMap.get (Tab tab) w.(scriptMenu) in
  let scriptList :=
    map (fun item => let s := item.(res_script) in
           mkScriptMenu s.(id) s.(name) (is_enabled s) (update_or_create s)
             (bool_decide (is_Some s.(config))) None (menus_of tabMap s.(id)))
        (matchUrl u None w) in
  let sandboxMenuMap := JsMap.get (Tag "sandbox") w.(scriptMenu) in
  let backScriptList :=
    map (fun s => mkScriptMenu s.(id) s.(name) (is_enabled s) (update_or_create s)
                    (bool_decide (is_Some s.(config))) s.(runStatus) (menus_of sandboxMenuMap s.(id)))
        (JsMap.values w.(runBackScript)) in
  (scriptList, backScriptList).

(** ** Construction and start (lines 73-90, 92-144) *)

(** The constructor: empty indexes, [scriptFlag = randomString(8)] (the
    first random draw), and the four listeners on [ScriptManager.hook]. *)
Definition runtime_new (env : Env) (d : list (nat * Script)) : World :=
  mkWorld d Index.ix_empty Index.ix_empty [] [] []
    [("upsert", SM_scriptUpdate); ("delete", SM_scriptDelete);
     ("enable", SM_scriptUpdate); ("disable", SM_scriptUpdate)]
    (env.(randomString) 8 0) "" 1 [] [].

(** Lines 132-143, for one stored script. *)
Definition startup_item (env : Env) (item : Script) : M World unit :=
  if is_enabled item then
    await_ fire (enable env item) ;;
    (if is_background item
     then modify (fun w => set_runBackScript (JsMap.set item.(id) item w.(runBackScript)) w)
     else ret tt)
  else if negb (is_background item) then fire (disable env item)
  else ret tt.

(** [start()]: the listeners it registers synchronously (lines 237-261),
    then the callback of [scriptDAO.table.toArray] (lines 131-144). *)
Definition start (env : Env) : M World unit :=
  await_ modify (fun w =>
    set_runtimeHook (Hook.addListener "runStatus" RS_backScript w.(runtimeHook))
      (set_managerHook (Hook.addListener "disable" SM_backDisable
                          (Hook.addListener "enable" SM_backEnable w.(managerHook))) w)) ;;
  await w <- get ;;
  run_all (startup_item env) (JsMap.values w.(dao)).

(** Lines 149-155: the fetch of [inject.js] resolves, later. *)
Definition injectSourceLoaded (env : Env) (source : string) : M World unit :=
  modify (fun w => set_injectedSource
    (env.(dealScript) (String.append "(function (ScriptFlag) {" (String.String "010"%char
      (String.append source (String.String "010"%char (String.append "})('"
        (String.append w.(scriptFlag) "')"))))))) w).

(** ** A concrete system

    Collaborators that always answer: empty value and resource snapshots,
    the compiler returning the script's own code, a sandbox that
    acknowledges every message.  Script 1 is the page script A of the
    spec's scenario (section 8), script 2 the background script B; both
    start disabled. *)
Definition env0 : Env :=
  mkEnv (fun _ => Resolved ∅) (fun _ => Resolved ∅) (fun r => r.(res_script).(code))
    (fun r => r.(res_script).(code)) (fun c => c) (fun _ _ => "flag") (fun _ _ => Resolved tt).

(** The same collaborators, with a value store that rejects. *)
Definition env_values_fail : Env :=
  mkEnv (fun _ => Rejected (Err_message "values unavailable")) (fun _ => Resolved ∅)
    (fun r => r.(res_script).(code)) (fun r => r.(res_script).(code)) (fun c => c)
    (fun _ _ => "flag") (fun _ _ => Resolved tt).

Definition scriptA : Script :=
  mkScript 1 "uuid-a" "A" "console.log('A')"
    (<["match" := ["*://a.test/*"]]> (<["version" := ["1.0"]]> ∅)) None
    SCRIPT_TYPE_NORMAL SCRIPT_STATUS_DISABLE None None 0 None None.

Definition scriptB : Script :=
  mkScript 2 "uuid-b" "B" "console.log('B')" (<["version" := ["1.0"]]> ∅) None
    SCRIPT_TYPE_BACKGROUND SCRIPT_STATUS_DISABLE None None 0 None None.

Definition store0 : list (nat * Script) := [(1, scriptA); (2, scriptB)].

(** The runtime started on [store0]. *)
Definition initial (env : Env) : World := outcome_state (Runtime.start env) (runtime_new env store0).

Definition w0 : World := initial env0.

(** A resolved value, [d] otherwise. *)
Definition resolved_or {A} (d : A) (o : outcome A) : A :=
  match o with Resolved a => a | _ => d end.

(** Collaborators whose sandbox rejects every message. *)
Definition env_sandbox_fail : Env :=
  mkEnv (fun _ => Resolved ∅) (fun _ => Resolved ∅) (fun r => r.(res_script).(code))
    (fun r => r.(res_script).(code)) (fun c => c) (fun _ _ => "flag")
    (fun _ _ => Rejected (Err_message "sandbox error")).

(** Script A enabled, the run resource of script B, a page of [a.test] in
    tab 3, the pattern of A's [match] rule. *)
Definition scriptA_on : Script := with_status SCRIPT_STATUS_ENABLE 0 scriptA.
Definition resB : ScriptRunResouce :=
  resolved_or (of_script scriptB) (Resource.buildScriptRunResource env0 w0.(rng) scriptB).
Definition sender_a : MessageSender := mkSender (Some 3) (Some 0) (Some "https://a.test/x") "".
Definition pattern_a : UrlMatch.pattern :=
  default (UrlMatch.mk_pattern [] [] []) (UrlMatch.parse_rule "*://a.test/*").

(** The script of the spec's exclusion example (section 8), enabled. *)
Definition scriptE : Script :=
  mkScript 3 "uuid-e" "E" "console.log('E')"
    (<["exclude" := ["*://example.com/private/*"]]>
       (<["match" := ["*://example.com/*"]]> (<["version" := ["1.0"]]> ∅)))
    None SCRIPT_TYPE_NORMAL SCRIPT_STATUS_ENABLE None None 0 None None.
Definition wE_on : World := outcome_state (enable env0 scriptE) w0.

(** The runtime with A enabled, then after one page load of [a.test]. *)
Definition wA_on : World := outcome_state (enable env0 scriptA_on) w0.
Definition wA_loaded : World := outcome_state (pageLoad env0 (Some sender_a)) wA_on.
(** Script A edited into a background script, still enabled. *)
Definition scriptA_bg : Script :=
  mkScript 1 scriptA_on.(uuid) scriptA_on.(name) scriptA_on.(code) scriptA_on.(metadata)
    scriptA_on.(selfMetadata) SCRIPT_TYPE_BACKGROUND SCRIPT_STATUS_ENABLE scriptA_on.(runStatus)
    scriptA_on.(config) scriptA_on.(createtime) scriptA_on.(updatetime) scriptA_on.(lastruntime).
(** The same state with the badge of tab 3 showing [2^53]. *)
Definition wA_full : World :=
  set_badge (JsMap.set 3 (JsNumber.number_toString (2 ^ 53)%Z) wA_loaded.(badge)) wA_loaded.
Definition loaded_scripts (w : World) : list ScriptRunResouce :=
  match outcome_of (pageLoad env0 (Some sender_a)) w with Resolved (_, l) => l | _ => [] end.

(** ** Properties *)

(** *** [matchUrl] *)

Definition keep (filterFunc : option (ScriptRunResouce -> bool)) (s : ScriptRunResouce) : bool :=
  match filterFunc with Some f => negb (f s) | None => true end.

Lemma dedup_foldl (f : option (ScriptRunResouce -> bool)) (l : list ScriptRunResouce)
    (o : list (nat * ScriptRunResouce)) :
  foldl (fun o s => match f with
                    | Some g => if g s then o else IntObj.oset (res_id s) s o
                    | None => IntObj.oset (res_id s) s o
                    end) o l =
  foldl (fun o kv => IntObj.oset kv.1 kv.2 o) o
        (map (fun s => (res_id s, s)) (filter (fun s => keep f s = true) l)).
Proof.
  revert o. induction l as [|s l IH]; intros o; [done|]. simpl.
  rewrite filter_cons. destruct f as [g|].
  - destruct (g s) eqn:E.
    + rewrite decide_False by (unfold keep; rewrite E; done). apply IH.
    + rewrite decide_True by (unfold keep; rewrite E; done). apply IH.
  - rewrite decide_True by done. apply IH.
Qed.

Lemma map_snd_keyed {V : Type} (kf : V -> nat) (o : list (nat * V)) :
  (forall kv, kv ∈ o -> kf kv.2 = kv.1) -> map kf (map snd o) = map fst o.
Proof.
  induction o as [|[k v] o IH]; intros Hk; [done|]. simpl.
  f_equal; [apply (Hk (k, v)); set_solver|]. apply IH. intros kv Hin. apply Hk. set_solver.
Qed.

(** What [matchUrl] returns, in terms of what the indexes return. *)
Lemma matchUrl_dedup u f w :
  let scripts := filter (fun s => keep f s = true)
                   (match_match u w.(matchIx) ++ include_match u w.(includeIx)) in
  StronglySorted lt (map res_id (matchUrl u f w)) /\
  (forall r, r ∈ matchUrl u f w -> r ∈ scripts) /\
  (forall k, k ∈ map res_id (matchUrl u f w) <-> k ∈ map res_id scripts).
Proof.
  intros scripts. unfold matchUrl, dedup. rewrite dedup_foldl. fold scripts.
  set (o := foldl _ [] _).
  assert (Hkey : forall kv, kv ∈ o -> res_id kv.2 = kv.1).
  { intros kv Hin. destruct (IntObj.elem_of_foldl_oset _ _ _ Hin) as [Hin'|Hin']; [set_solver|].
    apply list_elem_of_fmap in Hin' as (s & -> & _). done. }
  unfold IntObj.ovalues. rewrite (map_snd_keyed res_id o Hkey).
  split; [|split].
  - apply IntObj.sorted_foldl_oset. constructor.
  - intros r Hr. destruct (IntObj.ovalues_foldl_oset _ _ Hr) as [k Hk].
    apply list_elem_of_fmap in Hk as (s & Heq & Hs). by simplify_eq.
  - intros k. change (map fst o) with (IntObj.okeys o). unfold o.
    rewrite IntObj.okeys_foldl_oset, map_map. simpl. set_solver.
Qed.

(** C1. [matchUrl] answers each script once, in ascending id order: its
    ids are exactly the ids of the scripts that the match index and the
    include index return for the URL and that [filterFunc] keeps, and every
    script it returns is one of those. *)
Theorem matchUrl_spec u f w :
  let scripts := filter (fun s => keep f s = true)
                   (match_match u w.(matchIx) ++ include_match u w.(includeIx)) in
  StronglySorted lt (map res_id (matchUrl u f w)) /\
  (forall r, r ∈ matchUrl u f w -> r ∈ scripts) /\
  (forall k, k ∈ map res_id (matchUrl u f w) <-> k ∈ map res_id scripts).
Proof. apply matchUrl_dedup. Qed.

(** *** Loading a page script *)

Lemma add_rules_spec {R} (parse : string -> option R) rules v (ix : Index.index) :
  add_rules (fun r => Index.ix_add parse r) rules v ix =
  (Index.mk_index (Index.ix_rules ix ++ map (fun p => (p, v)) (omap parse rules))
                  (Index.ix_excludes ix),
   map (fun _ => E_log url_load_error) (filter (fun r => parse r = None) rules)).
Proof.
  revert ix. induction rules as [|r rules IH]; intros [rs ex]; simpl.
  - by rewrite app_nil_r.
  - unfold Index.ix_add at 1. simpl. rewrite filter_cons.
    destruct (parse r) as [p|] eqn:E; simpl; rewrite IH; simpl.
    + by rewrite <- app_assoc.
    + done.
Qed.

Lemma add_excludes_spec rules v (mi : match_index) (ii : include_index) :
  add_excludes rules v mi ii =
  (Index.mk_index (Index.ix_rules mi)
     (Index.ix_excludes mi ++ map (fun q => (q, v)) (omap UrlMatch.parse_rule rules)),
   Index.mk_index (Index.ix_rules ii)
     (Index.ix_excludes ii ++ map (fun r => (String.list_ascii_of_string r, v)) rules),
   map (fun _ => E_log url_load_error) (filter (fun r => UrlMatch.parse_rule r = None) rules)).
Proof.
  revert mi ii. induction rules as [|r rules IH]; intros [mrs mex] [irs iex]; simpl.
  - by rewrite !app_nil_r.
  - unfold include_exclude, match_exclude, Index.ix_exclude. simpl. rewrite filter_cons.
    destruct (UrlMatch.parse_rule r) as [p|] eqn:E; simpl; rewrite IH; simpl.
    + by rewrite <- !app_assoc.
    + by rewrite <- !app_assoc.
Qed.

(** The new value stored for a page script: the run resource with its
    code recompiled by [compileInjectScript] (line 505). *)
Definition page_value (env : Env) (r : ScriptRunResouce) : ScriptRunResouce :=
  res_with_code (env.(dealScript) (env.(compileInjectScript) r)) r.

Definition rules_key (k : string) (r : ScriptRunResouce) : list string :=
  default [] (meta k r.(res_script)).

Lemma meta_res_with_code k c r : meta k (res_with_code c r).(res_script) = meta k r.(res_script).
Proof. reflexivity. Qed.

(** [loadPageScript] replaces the script's entries of both indexes by the
    compiled rules of its metadata, and logs one line per rule that does not
    compile. *)
Lemma loadPageScript_state env r w :
  loadPageScript env r w =
  (Resolved true,
   set_trace (w.(trace)
       ++ map (fun _ => E_log url_load_error)
              (filter (fun x => UrlMatch.parse_rule x = None) (rules_key "match" r))
       ++ map (fun _ => E_log url_load_error)
              (filter (fun x => UrlInclude.parse_rule x = None) (rules_key "include" r))
       ++ map (fun _ => E_log url_load_error)
              (filter (fun x => UrlMatch.parse_rule x = None) (rules_key "exclude" r)))
   (set_includeIx (Index.ix_replace res_id (page_value env r)
                     (map String.list_ascii_of_string (rules_key "include" r))
                     (map String.list_ascii_of_string (rules_key "exclude" r)) w.(includeIx))
   (set_matchIx (Index.ix_replace res_id (page_value env r)
                   (omap UrlMatch.parse_rule (rules_key "match" r))
                   (omap UrlMatch.parse_rule (rules_key "exclude" r)) w.(matchIx)) w))).
Proof.
  unfold loadPageScript, match_add, include_add. cbv zeta.
  rewrite !add_rules_spec, add_excludes_spec.
  assert (Hinc : forall l, omap UrlInclude.parse_rule l = map String.list_ascii_of_string l).
  { induction l; simpl; by f_equal. }
  assert (Hnone : forall l, filter (fun x => UrlInclude.parse_rule x = None) l = []).
  { intros l. by apply filter_all_false. }
  rewrite Hinc, !Hnone.
  unfold Index.ix_replace, include_del, match_del, Index.ix_del, page_value, rules_key. simpl.
  by rewrite !map_map.
Qed.

Lemma res_id_page_value env r : res_id (page_value env r) = res_id r.
Proof. reflexivity. Qed.

(** The rules of every script after [loadPageScript]. *)
Lemma loadPageScript_rules env r w k :
  let w' := outcome_state (loadPageScript env r) w in
  let v := page_value env r in
  Index.rules_of res_id k w'.(matchIx) =
    (if decide (k = res_id r)
     then map (fun p => (p, v)) (omap UrlMatch.parse_rule (rules_key "match" r))
     else Index.rules_of res_id k w.(matchIx)) /\
  Index.excludes_of res_id k w'.(matchIx) =
    (if decide (k = res_id r)
     then map (fun p => (p, v)) (omap UrlMatch.parse_rule (rules_key "exclude" r))
     else Index.excludes_of res_id k w.(matchIx)) /\
  Index.rules_of res_id k w'.(includeIx) =
    (if decide (k = res_id r)
     then map (fun g => (g, v)) (map String.list_ascii_of_string (rules_key "include" r))
     else Index.rules_of res_id k w.(includeIx)) /\
  Index.excludes_of res_id k w'.(includeIx) =
    (if decide (k = res_id r)
     then map (fun g => (g, v)) (map String.list_ascii_of_string (rules_key "exclude" r))
     else Index.excludes_of res_id k w.(includeIx)).
Proof.
  unfold outcome_state. rewrite loadPageScript_state. simpl.
  rewrite !Index.rules_of_replace, !Index.excludes_of_replace, !res_id_page_value. done.
Qed.

(** C2. Loading a page script deletes all its entries from both indexes
    before adding the compiled rules of its current metadata: afterwards
    the script's rules and exclusions in the match index and in the include
    index are exactly those of its [match], [include] and [exclude] keys,
    and the entries of every other script are unchanged. *)
Theorem loadPageScript_replaces_rules env r w k :
  let w' := outcome_state (loadPageScript env r) w in
  let v := page_value env r in
  Index.rules_of res_id k w'.(matchIx) =
    (if decide (k = res_id r)
     then map (fun p => (p, v)) (omap UrlMatch.parse_rule (rules_key "match" r))
     else Index.rules_of res_id k w.(matchIx)) /\
  Index.excludes_of res_id k w'.(matchIx) =
    (if decide (k = res_id r)
     then map (fun p => (p, v)) (omap UrlMatch.parse_rule (rules_key "exclude" r))
     else Index.excludes_of res_id k w.(matchIx)) /\
  Index.rules_of res_id k w'.(includeIx) =
    (if decide (k = res_id r)
     then map (fun g => (g, v)) (map String.list_ascii_of_string (rules_key "include" r))
     else Index.rules_of res_id k w.(includeIx)) /\
  Index.excludes_of res_id k w'.(includeIx) =
    (if decide (k = res_id r)
     then map (fun g => (g, v)) (map String.list_ascii_of_string (rules_key "exclude" r))
     else Index.excludes_of res_id k w.(includeIx)).
Proof. apply loadPageScript_rules. Qed.

(** *** Enabling and disabling *)

Lemma build_state env s w r :
  Resource.buildScriptRunResource env w.(rng) s = Resolved r ->
  build env s w = (Resolved r, set_rng (S w.(rng)) w).
Proof. unfold build. intros H. by rewrite H. Qed.

Lemma enable_page env s w r :
  is_background s = false ->
  Resource.buildScriptRunResource env w.(rng) s = Resolved r ->
  enable env s w = loadPageScript env r (set_rng (S w.(rng)) w).
Proof.
  intros Hbg Hb. unfold enable. rewrite (bind_resolved _ _ _ _ _ (build_state env s w r Hb)).
  by rewrite Hbg.
Qed.

(** C3. Enabling a page script twice in a row leaves one set of index
    entries for it: as many rules in each index as its merged metadata
    declares compilable rules, not twice as many. *)
Theorem enable_page_twice_single_entries env s w w1 w2 :
  is_background s = false ->
  enable env s w = (Resolved true, w1) -> enable env s w1 = (Resolved true, w2) ->
  length (Index.rules_of res_id s.(id) w2.(matchIx)) =
    length (omap UrlMatch.parse_rule (default [] (Resource.merge_metadata s !! "match"))) /\
  length (Index.rules_of res_id s.(id) w2.(includeIx)) =
    length (default [] (Resource.merge_metadata s !! "include")).
Proof.
  intros Hbg H1 H2. unfold enable in H2.
  destruct (build env s w1) as [[r| |] w1'] eqn:Hb; unfold bind in H2; rewrite Hb in H2; try done.
  rewrite Hbg in H2. unfold build in Hb.
  destruct (Resource.buildScriptRunResource env (rng w1) s) eqn:Hr; simplify_eq.
  destruct (Resource.build_resolved_script _ _ _ _ Hr) as [Hmd Hid].
  pose proof (loadPageScript_rules env r (set_rng (S (rng w1)) w1) s.(id)) as Hrep.
  unfold outcome_state in Hrep. rewrite H2 in Hrep. simpl in Hrep.
  rewrite !decide_True in Hrep by (symmetry; exact Hid).
  destruct Hrep as (-> & _ & -> & _). unfold rules_key, meta. rewrite Hmd.
  by rewrite !length_map.
Qed.

Lemma enable_page_twice_single_entries_witness :
  length (Index.rules_of res_id 1 (outcome_state (enable env0 scriptA_on) wA_on).(matchIx)) = 1 /\
  length (Index.rules_of res_id 1 (outcome_state (enable env0 scriptA_on) wA_on).(includeIx)) = 0.
Proof.
  apply (enable_page_twice_single_entries env0 scriptA_on w0 wA_on); vm_compute; reflexivity.
Defined.

Lemma enable_build_rejected env s w e :
  env.(getScriptValues)
    (of_script (with_metadata (Resource.merge_metadata s) s)) = Rejected e ->
  enable env s w = (Rejected e, w).
Proof.
  intros He. unfold enable. apply (bind_rejected _ _ _ e w).
  unfold build. by rewrite (Resource.build_values_rejected env (rng w) s e He).
Qed.

(** C4. A run-resource build whose value-store lookup rejects makes
    [enable] reject with the same error and leaves the whole state as it
    was: no index entry, no message to the sandbox, no random draw. *)
Theorem enable_build_rejected_unchanged env s w e :
  env.(getScriptValues)
    (of_script (with_metadata (Resource.merge_metadata s) s)) = Rejected e ->
  enable env s w = (Rejected e, w).
Proof. apply enable_build_rejected. Qed.

Lemma enable_build_rejected_unchanged_witness :
  enable env_values_fail scriptA_on w0 = (Rejected (Err_message "values unavailable"), w0).
Proof. apply enable_build_rejected_unchanged. vm_compute. reflexivity. Defined.

(** C10. Enabling a background script sends exactly one ["enable"]
    message, carrying the built run resource, and touches no index; the
    sandbox's acknowledgement resolves [enable]. *)
Theorem enable_background_sends_once env s w r :
  is_background s = true ->
  Resource.buildScriptRunResource env w.(rng) s = Resolved r ->
  env.(sandboxReply) "enable" (P_res r) = Resolved tt ->
  enable env s w =
    (Resolved true, set_trace (w.(trace) ++ [E_syncSend "enable" (P_res r)]) (set_rng (S w.(rng)) w)).
Proof.
  intros Hbg Hb Hrep. unfold enable. rewrite (bind_resolved _ _ _ _ _ (build_state env s w r Hb)).
  rewrite Hbg. unfold loadBackgroundScript, syncSend, catch. js_simpl. by rewrite Hrep.
Qed.

Lemma enable_background_sends_once_witness :
  enable env0 scriptB w0 =
    (Resolved true, set_trace (w0.(trace) ++ [E_syncSend "enable" (P_res resB)]) (set_rng (S w0.(rng)) w0)).
Proof. apply enable_background_sends_once; vm_compute; reflexivity. Defined.

(** C11. Disabling a background script sends exactly one ["disable"]
    message, carrying the script's id. *)
Theorem disable_background_sends_once env s w :
  is_background s = true ->
  env.(sandboxReply) "disable" (P_id s.(id)) = Resolved tt ->
  disable env s w = (Resolved true, set_trace (w.(trace) ++ [E_syncSend "disable" (P_id s.(id))]) w).
Proof.
  intros Hbg Hrep. unfold disable. rewrite Hbg.
  unfold unloadBackgroundScript, syncSend, catch. js_simpl. by rewrite Hrep.
Qed.

Lemma disable_background_sends_once_witness :
  disable env0 scriptB w0 = (Resolved true, set_trace (w0.(trace) ++ [E_syncSend "disable" (P_id 2)]) w0).
Proof. apply (disable_background_sends_once env0 scriptB w0); vm_compute; reflexivity. Defined.

(** *** A script that becomes a background script *)

(** The indexes, as [matchUrl] reads them, are left alone by a
    background script's update: [enable] builds and sends, [disable]
    sends. *)
Lemma scriptUpdate_background_indexes env s w :
  is_background s = true ->
  (outcome_state (scriptUpdate env s) w).(matchIx) = w.(matchIx) /\
  (outcome_state (scriptUpdate env s) w).(includeIx) = w.(includeIx).
Proof.
  intros Hbg. revert w.
  cut (forall M I, keeps (fun w => w.(matchIx) = M /\ w.(includeIx) = I) (scriptUpdate env s));
    [intros H w; by apply H|].
  intros M I. assert (He : forall e, keeps (fun w => w.(matchIx) = M /\ w.(includeIx) = I) (emit e))
    by (intros e; apply keeps_modify; by intros []).
  assert (Hs : forall t p, keeps (fun w => w.(matchIx) = M /\ w.(includeIx) = I) (syncSend env t p))
    by (intros; unfold syncSend; eauto with keeps).
  unfold scriptUpdate, enable, disable, loadBackgroundScript, unloadBackgroundScript, log_error.
  rewrite Hbg. destruct (is_enabled s); [apply keeps_bind; [|intros r]|]; eauto with keeps.
  intros w Hw. unfold outcome_state, build. by case_match; destruct w.
Qed.

(** C34. A page script edited into a background script keeps its page
    rules: updating a background script (on [upsert], [enable] or
    [disable]) never touches the match and include indexes, so [matchUrl]
    answers what it answered before, and the script's old page run
    resource stays matched and injected, although the spec (section 5)
    says background scripts are never indexed. *)
Theorem scriptUpdate_background_keeps_page_rules env s w u f :
  is_background s = true -> matchUrl u f (outcome_state (scriptUpdate env s) w) = matchUrl u f w.
Proof.
  intros Hbg. destruct (scriptUpdate_background_indexes env s w Hbg) as [Hm Hi].
  unfold matchUrl. by rewrite Hm, Hi.
Qed.

Lemma scriptUpdate_background_keeps_page_rules_witness :
  matchUrl "https://a.test/x" None (outcome_state (scriptUpdate env0 scriptA_bg) wA_on) =
    matchUrl "https://a.test/x" None wA_on /\
  map res_id (matchUrl "https://a.test/x" None wA_on) = [1].
Proof.
  split; [apply scriptUpdate_background_keeps_page_rules; reflexivity|vm_compute; reflexivity].
Defined.

(** *** What [matchUrl] answers after a page script is loaded *)

Lemma keep_None s : keep None s = true.
Proof. reflexivity. Qed.

Lemma filter_keep_None (l : list ScriptRunResouce) : filter (fun s => keep None s = true) l = l.
Proof. by apply filter_all_true. Qed.

(** When both indexes hold the replaced entries of [v], and one of its
    match rules covers a URL that none of its match exclusions covers,
    [matchUrl] answers [v] itself for its id. *)
Lemma matchUrl_replaced w v ps qs gs hs mi ii u p :
  w.(matchIx) = Index.ix_replace res_id v ps qs mi ->
  w.(includeIx) = Index.ix_replace res_id v gs hs ii ->
  p ∈ ps -> UrlMatch.covers p u = true ->
  existsb (fun q => UrlMatch.covers q u) qs = false ->
  v ∈ matchUrl u None w.
Proof.
  intros Hm Hi Hp Hc He.
  destruct (matchUrl_dedup u None w) as (_ & Hin & Hkeys). rewrite filter_keep_None in Hin, Hkeys.
  assert (Hv : v ∈ match_match u (matchIx w)).
  { unfold match_match. rewrite Hm. apply (Index.ix_match_replace UrlMatch.covers res_id); [done|].
    split; [done|]. split; [eauto|done]. }
  assert (Hk : res_id v ∈ map res_id (matchUrl u None w)).
  { apply Hkeys. apply list_elem_of_fmap. exists v. set_solver. }
  apply list_elem_of_fmap in Hk as (x & Hx & Hxin).
  pose proof (Hin x Hxin) as Hxs. apply elem_of_app in Hxs as [Hxs|Hxs].
  - unfold match_match in Hxs. rewrite Hm in Hxs.
    by apply Index.ix_match_replace in Hxs as (-> & _).
  - unfold include_match in Hxs. rewrite Hi in Hxs.
    by apply Index.ix_match_replace in Hxs as (-> & _).
Qed.

(** A loaded page script whose [match] rule covers a URL that none of its
    exclusions covers is answered by [matchUrl], as the value the index
    stored for it. *)
Lemma matchUrl_loaded env r w u p :
  p ∈ omap UrlMatch.parse_rule (rules_key "match" r) -> UrlMatch.covers p u = true ->
  existsb (fun q => UrlMatch.covers q u) (omap UrlMatch.parse_rule (rules_key "exclude" r)) = false ->
  page_value env r ∈ matchUrl u None (outcome_state (loadPageScript env r) w).
Proof.
  intros Hp Hc He. unfold outcome_state. rewrite loadPageScript_state.
  eapply matchUrl_replaced; [reflexivity|reflexivity|done..].
Qed.

Lemma existsb_pair {A B} (f : A -> string -> bool) (u : string) (l : list A) (v : B) :
  existsb (fun e => f e.1 u) (map (fun q => (q, v)) l) = existsb (fun q => f q u) l.
Proof. induction l as [|q l IH]; simpl; [done|]. by rewrite IH. Qed.

(** When all the entries of [v]'s script in the match index and its rules
    in the include index are [v]'s, one of its match rules covers a URL
    and none of its match exclusions does, [matchUrl] answers [v]. *)
Lemma matchUrl_of_entries u w v ps qs gs p :
  Index.rules_of res_id (res_id v) w.(matchIx) = map (fun p => (p, v)) ps ->
  Index.excludes_of res_id (res_id v) w.(matchIx) = map (fun q => (q, v)) qs ->
  Index.rules_of res_id (res_id v) w.(includeIx) = map (fun g => (g, v)) gs ->
  p ∈ ps -> UrlMatch.covers p u = true -> existsb (fun q => UrlMatch.covers q u) qs = false ->
  v ∈ matchUrl u None w.
Proof.
  intros Hm He Hi Hp Hc Hx.
  destruct (matchUrl_dedup u None w) as (_ & Hin & Hkeys). rewrite filter_keep_None in Hin, Hkeys.
  assert (Hv : v ∈ match_match u (matchIx w)).
  { unfold match_match. apply Index.ix_match_of_rules. exists p. rewrite Hm, He, existsb_pair.
    split_and!; [apply list_elem_of_fmap; by exists p|done|done]. }
  assert (Hk : res_id v ∈ map res_id (matchUrl u None w)).
  { apply Hkeys. apply list_elem_of_fmap. exists v. set_solver. }
  apply list_elem_of_fmap in Hk as (x & Hxv & Hxin).
  enough (x = v) by (by subst x).
  pose proof (Hin x Hxin) as Hxs. apply elem_of_app in Hxs as [Hxs|Hxs];
    apply Index.ix_match_of_rules in Hxs as (p' & Hp' & _); rewrite <- Hxv in Hp';
    [rewrite Hm in Hp'|rewrite Hi in Hp']; apply list_elem_of_fmap in Hp' as (? & [= _ ->] & _); done.
Qed.

(** C12. Disabling a page script does not take it out of the indexes: the
    disable path re-runs [loadPageScript] on the plain script (line 542),
    so [matchUrl] keeps answering it, now with the disabled status (the
    spec's scenario expects an empty answer). *)
Theorem disable_page_script_still_matched env s w u p :
  is_background s = false -> s.(status) = SCRIPT_STATUS_DISABLE ->
  p ∈ omap UrlMatch.parse_rule (default [] (meta "match" s)) -> UrlMatch.covers p u = true ->
  existsb (fun q => UrlMatch.covers q u) (omap UrlMatch.parse_rule (default [] (meta "exclude" s))) = false ->
  exists x, x ∈ matchUrl u None (outcome_state (scriptUpdate env s) w) /\
            res_id x = s.(id) /\ x.(res_script).(status) = SCRIPT_STATUS_DISABLE.
Proof.
  intros Hbg Hst Hp Hc He. unfold scriptUpdate, is_enabled.
  rewrite bool_decide_false by (rewrite Hst; done). unfold disable. rewrite Hbg.
  exists (page_value env (of_script s)). split; [|split; [done|apply Hst]].
  by apply (matchUrl_loaded env (of_script s) w u p).
Qed.

Lemma disable_page_script_still_matched_witness :
  exists x, x ∈ matchUrl "https://a.test/x" None (outcome_state (scriptUpdate env0 scriptA) w0) /\
            res_id x = 1 /\ x.(res_script).(status) = SCRIPT_STATUS_DISABLE.
Proof.
  apply (disable_page_script_still_matched env0 scriptA w0 "https://a.test/x" pattern_a);
    [vm_compute; reflexivity|vm_compute; reflexivity|vm_compute; left|vm_compute; reflexivity..].
Defined.

(** Deleting an enabled page script leaves it matched. *)
Lemma scriptDelete_enabled_page_still_matched env s w u p :
  is_background s = false -> s.(status) = SCRIPT_STATUS_ENABLE ->
  p ∈ omap UrlMatch.parse_rule (default [] (meta "match" s)) -> UrlMatch.covers p u = true ->
  existsb (fun q => UrlMatch.covers q u) (omap UrlMatch.parse_rule (default [] (meta "exclude" s))) = false ->
  exists x, x ∈ matchUrl u None (outcome_state (scriptDelete env s) w) /\
            res_id x = s.(id) /\ is_enabled x.(res_script) = true.
Proof.
  intros Hbg Hst Hp Hc He. unfold outcome_state, scriptDelete.
  unfold is_enabled at 1. rewrite bool_decide_true by done.
  unfold disable. rewrite Hbg. js_simpl.
  destruct (unloadPageScript env s _) as [o w'] eqn:Hu.
  unfold unloadPageScript in Hu. rewrite loadPageScript_state in Hu. simplify_eq/=.
  exists (page_value env (of_script s)). split; [|split; [done|unfold is_enabled; by rewrite bool_decide_true]].
  pose proof (matchUrl_loaded env (of_script s)
    (set_includeIx (include_del (of_script s) (includeIx w))
       (set_matchIx (match_del (of_script s) (matchIx w)) w)) u p) as H.
  unfold outcome_state in H. rewrite loadPageScript_state in H. by apply H.
Qed.

(** Deleting a disabled script removes it from both indexes. *)
Lemma scriptDelete_disabled_unmatched env s w u f :
  s.(status) = SCRIPT_STATUS_DISABLE ->
  s.(id) ∉ map res_id (matchUrl u f (outcome_state (scriptDelete env s) w)).
Proof.
  intros Hst. unfold outcome_state, scriptDelete. unfold is_enabled at 1.
  rewrite bool_decide_false by (rewrite Hst; done). js_simpl.
  destruct (matchUrl_dedup u f (set_includeIx (include_del (of_script s) (includeIx w))
       (set_matchIx (match_del (of_script s) (matchIx w)) w))) as (_ & _ & Hk).
  rewrite Hk, list_elem_of_fmap. intros (x & Hx & Hin).
  apply list_elem_of_filter in Hin as [_ Hin]. simpl in Hin.
  unfold match_match, include_match, match_del, include_del in Hin.
  rewrite !Index.ix_match_del in Hin.
  apply elem_of_app in Hin as [Hin|Hin]; apply list_elem_of_filter in Hin as [Hne _]; by apply Hne.
Qed.

(** C14. What [scriptDelete] leaves in the indexes depends on the
    script's status.  An enabled page script stays matched: [scriptDelete]
    removes its rules and then, the script being enabled, calls [disable],
    which adds them back; the stale entry still carries the enabled
    status, so later page loads keep injecting a deleted script.  A
    disabled script is removed from both indexes: no URL matches it any
    more, whatever the filter (spec section 8: removal is complete). *)
Theorem scriptDelete_indexes env s w :
  (forall u p,
     is_background s = false -> s.(status) = SCRIPT_STATUS_ENABLE ->
     p ∈ omap UrlMatch.parse_rule (default [] (meta "match" s)) -> UrlMatch.covers p u = true ->
     existsb (fun q => UrlMatch.covers q u) (omap UrlMatch.parse_rule (default [] (meta "exclude" s))) = false ->
     exists x, x ∈ matchUrl u None (outcome_state (scriptDelete env s) w) /\
               res_id x = s.(id) /\ is_enabled x.(res_script) = true) /\
  (s.(status) = SCRIPT_STATUS_DISABLE ->
   forall u f, s.(id) ∉ map res_id (matchUrl u f (outcome_state (scriptDelete env s) w))).
Proof.
  split.
  - intros u p. apply scriptDelete_enabled_page_still_matched.
  - intros Hst u f. by apply scriptDelete_disabled_unmatched.
Qed.

Lemma scriptDelete_indexes_witness :
  (exists x, x ∈ matchUrl "https://a.test/x" None (outcome_state (scriptDelete env0 scriptA_on) wA_on) /\
             res_id x = 1 /\ is_enabled x.(res_script) = true) /\
  1 ∉ map res_id (matchUrl "https://a.test/x" None (outcome_state (scriptDelete env0 scriptA) w0)).
Proof.
  split.
  - apply (proj1 (scriptDelete_indexes env0 scriptA_on wA_on) "https://a.test/x" pattern_a);
      [vm_compute; reflexivity|vm_compute; reflexivity|vm_compute; left|vm_compute; reflexivity..].
  - apply (proj2 (scriptDelete_indexes env0 scriptA w0)). reflexivity.
Defined.

(** Exclusions are conjunctive (spec section 8): once the script with
    [match *://example.com/*] and [exclude *://example.com/private/*] is
    enabled, [matchUrl] answers it for [https://example.com/a] and not for
    [https://example.com/private/x]. *)
Example exclude_rules_conjunctive :
  map res_id (matchUrl "https://example.com/a" None wE_on) = [3] /\
  map res_id (matchUrl "https://example.com/private/x" None wE_on) = [].
Proof. vm_compute. split; reflexivity. Qed.

(** *** Page load *)

Lemma set_trace_twice x y w : set_trace x (set_trace y w) = set_trace x w.
Proof. by destruct w. Qed.

Lemma run_all_emit {A} (f : A -> effect) l w :
  run_all (fun x => emit (f x)) l w = (Resolved tt, set_trace (w.(trace) ++ map f l) w).
Proof.
  revert w. induction l as [|x l IH]; intros w; simpl.
  - rewrite app_nil_r. by destruct w.
  - unfold bind, fire, emit, modify. simpl. rewrite IH. simpl.
    by rewrite set_trace_twice, <- app_assoc.
Qed.

(** What [pageLoad] does for a sender with a URL and a tab: the bootstrap
    is injected, then, when some script applies, each one in [matchUrl]
    order, the badge colour, and the badge text. *)
Lemma pageLoad_spec env sd w u tab :
  truthy_url sd.(url) = Some u -> truthy_tab sd.(tabId) = Some tab ->
  let filter := matchUrl u (Some (pageLoad_filter sd)) w in
  let w1 := set_trace (w.(trace) ++ [E_executeScript tab sd.(frameId)
                                       (inject_wrapper w.(injectedSource)) document_start]) w in
  pageLoad env (Some sd) w =
    match filter with
    | [] => (Resolved (w.(scriptFlag), []), w1)
    | _ :: _ =>
        (Resolved (w.(scriptFlag), filter),
         outcome_state (badge_update tab (length filter))
           (set_trace (w1.(trace)
              ++ map (fun script => E_executeScript tab sd.(frameId)
                                      (inject_wrapper script.(res_script).(code)) (run_at_of script))
                     filter
              ++ [E_setBadgeBackgroundColor tab badge_color]) w1))
    end.
Proof.
  intros Hu Ht. cbv zeta. unfold pageLoad. rewrite Hu, Ht.
  unfold bind at 1, get. cbv beta iota. unfold bind at 1. unfold emit at 1, modify. cbv beta iota.
  destruct (matchUrl u (Some (pageLoad_filter sd)) w) as [|x l] eqn:Hf; [done|].
  unfold bind at 1. rewrite run_all_emit. unfold bind, emit, modify. simpl.
  unfold ret, outcome_state, badge_update, badge_text.
  destruct w; unfold set_trace, set_badge; simpl. rewrite <- !app_assoc. simpl.
  by rewrite <- ?app_assoc.
Qed.

(** C13. [pageLoad] answers and injects only enabled scripts, and never a
    [noframes] script into a sender that reports a frame id. *)
Theorem pageLoad_injects_only_enabled env sd w flag l w' :
  pageLoad env (Some sd) w = (Resolved (flag, l), w') ->
  forall r, r ∈ l -> is_enabled r.(res_script) = true /\
    (is_Some sd.(frameId) -> meta "noframes" r.(res_script) = None).
Proof.
  intros Hpl r Hr.
  destruct (truthy_url sd.(url)) as [u|] eqn:Hu; [|unfold pageLoad in Hpl; by rewrite Hu in Hpl].
  destruct (truthy_tab sd.(tabId)) as [tab|] eqn:Ht;
    [|unfold pageLoad in Hpl; rewrite Hu, Ht in Hpl; done].
  rewrite (pageLoad_spec env sd w u tab Hu Ht) in Hpl.
  assert (Hin : r ∈ matchUrl u (Some (pageLoad_filter sd)) w).
  { destruct (matchUrl u (Some (pageLoad_filter sd)) w) eqn:E; simplify_eq/=;
      [set_solver|done]. }
  destruct (matchUrl_dedup u (Some (pageLoad_filter sd)) w) as (_ & Hsub & _).
  apply Hsub, list_elem_of_filter in Hin as [Hkeep _].
  unfold keep, pageLoad_filter in Hkeep. apply negb_true_iff, orb_false_iff in Hkeep as [He Hf].
  apply negb_false_iff in He. split; [done|]. intros Hfr.
  apply andb_false_iff in Hf as [Hf|Hf]; apply bool_decide_eq_false in Hf; [done|].
  destruct (meta "noframes" (res_script r)); [exfalso; apply Hf; by eexists|done].
Qed.

Lemma pageLoad_injects_only_enabled_witness :
  loaded_scripts wA_on <> [] /\
  forall r, r ∈ loaded_scripts wA_on -> is_enabled r.(res_script) = true /\
    (is_Some sender_a.(frameId) -> meta "noframes" r.(res_script) = None).
Proof.
  split; [vm_compute; discriminate|].
  apply (pageLoad_injects_only_enabled env0 sender_a wA_on "flag" (loaded_scripts wA_on) wA_loaded).
  vm_compute. reflexivity.
Defined.

(** C15. A page-load report without a sender, a URL or a tab id (the tab
    [0] included) gets no answer: the handler returns without resolving,
    and nothing is injected. *)
Theorem pageLoad_no_answer env snd w :
  match snd with
  | None => True
  | Some sd => truthy_url sd.(url) = None \/ truthy_tab sd.(tabId) = None
  end ->
  pageLoad env snd w = (Pending, w).
Proof.
  destruct snd as [sd|]; [|done]. intros [Hu|Ht]; unfold pageLoad.
  - by rewrite Hu.
  - rewrite Ht. by destruct (truthy_url _).
Qed.

Lemma pageLoad_no_answer_witness :
  pageLoad env0 (Some (mkSender None (Some 0) (Some "https://a.test/x") "")) wA_on = (Pending, wA_on).
Proof. apply pageLoad_no_answer. right. reflexivity. Defined.

(** C35. A page-load report with a URL and a tab always gets the session
    flag, and the bootstrap is injected first, at [document_start], before
    any script and whether or not a script matches (spec section 4.4). *)
Theorem pageLoad_bootstrap_first env sd w u tab :
  truthy_url sd.(url) = Some u -> truthy_tab sd.(tabId) = Some tab ->
  exists l rest,
    (pageLoad env (Some sd) w).1 = Resolved (w.(scriptFlag), l) /\
    (pageLoad env (Some sd) w).2.(trace) =
      w.(trace) ++ E_executeScript tab sd.(frameId) (inject_wrapper w.(injectedSource)) document_start
                   :: rest.
Proof.
  intros Hu Ht. rewrite (pageLoad_spec env sd w u tab Hu Ht).
  destruct (matchUrl u (Some (pageLoad_filter sd)) w) as [|x l].
  - exists [], []. by destruct w.
  - destruct w. eexists (x :: l), _. split; [done|]. unfold outcome_state, badge_update. simpl.
    rewrite <- !app_assoc. simpl. reflexivity.
Qed.

Lemma pageLoad_bootstrap_first_witness :
  exists l rest,
    (pageLoad env0 (Some sender_a) wA_on).1 = Resolved (wA_on.(scriptFlag), l) /\
    (pageLoad env0 (Some sender_a) wA_on).2.(trace) =
      wA_on.(trace) ++ E_executeScript 3 (Some 0) (inject_wrapper wA_on.(injectedSource)) document_start
                       :: rest.
Proof. apply (pageLoad_bootstrap_first env0 sender_a wA_on "https://a.test/x" 3); reflexivity. Defined.

Lemma normalize_run_at_start x :
  normalize_run_at (Some x) = document_start <->
  x = "document-start" \/ x = "document-body" \/ x = "document-menu".
Proof.
  unfold normalize_run_at. repeat case_decide; subst; split; intros Hx; try done; try naive_solver;
    destruct Hx as [Hx|[Hx|Hx]]; congruence.
Qed.

Lemma normalize_run_at_end x : normalize_run_at (Some x) = document_end <-> x = "document-end".
Proof. unfold normalize_run_at. repeat case_decide; subst; split; intros Hx; try done; congruence. Qed.

(** C16. The injection timing: the first [run-at] value is mapped to
    [document_start] for its three spellings ["document-start"],
    ["document-body"] and ["document-menu"], to [document_end] for
    ["document-end"], and to [document_idle] for everything else, an absent
    key or an empty list included. *)
Theorem run_at_of_spec r :
  let v := match meta "run-at" r.(res_script) with Some l => head l | None => None end in
  (run_at_of r = document_start <->
     exists x, v = Some x /\ x ∈ ["document-start"; "document-body"; "document-menu"]) /\
  (run_at_of r = document_end <-> v = Some "document-end").
Proof.
  intros v. unfold run_at_of, v.
  destruct (meta "run-at" _) as [[|x l]|]; cbn [head].
  - split; split; intros H; try done; destruct H as (? & ? & _); done.
  - rewrite normalize_run_at_start, normalize_run_at_end.
    setoid_rewrite elem_of_cons. setoid_rewrite elem_of_cons. setoid_rewrite list_elem_of_singleton. naive_solver.
  - split; split; intros H; try done; destruct H as (? & ? & _); done.
Qed.

Lemma badge_text_set_trace tab x w : badge_text tab (set_trace x w) = badge_text tab w.
Proof. by destruct w. Qed.

Lemma badge_update_text tab n w :
  badge_text tab (outcome_state (badge_update tab n) w) =
  JsNumber.number_toString (JsNumber.js_add (Z.of_nat n) (JsNumber.or_zero (JsNumber.parseInt10 (badge_text tab w)))).
Proof. unfold outcome_state, badge_update, badge_text at 1. simpl. by rewrite JsMap.get_set_eq. Qed.

(** C17. The badge counts injections, exactly up to [2^53]: when a tab's
    badge shows the number [k] before a page load of that tab, it shows
    [k] plus the number of scripts the load injected afterwards, as long
    as that sum is at most [2^53] (JS numbers are doubles; from there on
    the sum is rounded, see [pageLoad_badge_saturates]). *)
Theorem pageLoad_badge_counts env sd w tab flag l w' (k : nat) :
  truthy_tab sd.(tabId) = Some tab ->
  pageLoad env (Some sd) w = (Resolved (flag, l), w') ->
  badge_text tab w = JsNumber.number_toString (Z.of_nat k) ->
  (Z.of_nat (k + length l) <= 2 ^ 53)%Z ->
  badge_text tab w' = JsNumber.number_toString (Z.of_nat (k + length l)).
Proof.
  intros Ht Hpl Hk Hb.
  destruct (truthy_url sd.(url)) as [u|] eqn:Hu; [|unfold pageLoad in Hpl; by rewrite Hu in Hpl].
  rewrite (pageLoad_spec env sd w u tab Hu Ht) in Hpl.
  destruct (matchUrl u (Some (pageLoad_filter sd)) w) as [|x xs]; simplify_eq.
  - by rewrite Nat.add_0_r.
  - rewrite badge_update_text, !badge_text_set_trace, Hk.
    rewrite JsNumber.parseInt10_toString_safe by (clear - Hb; lia).
    unfold JsNumber.or_zero. cbn [default from_option Datatypes.id]. rewrite JsNumber.js_add_exact by lia. f_equal. lia.
Qed.

Lemma pageLoad_badge_counts_witness :
  badge_text 3 (outcome_state (pageLoad env0 (Some sender_a)) wA_loaded) =
    JsNumber.number_toString (Z.of_nat (1 + length (loaded_scripts wA_loaded))).
Proof.
  apply (pageLoad_badge_counts env0 sender_a wA_loaded 3 "flag"); vm_compute; try reflexivity; discriminate.
Defined.

(** Beyond [2^53] the badge stops counting: a page load that injects one
    script into a tab showing [9007199254740992] leaves it showing the same
    text, the sum being rounded back to the even double. *)
Example pageLoad_badge_saturates :
  badge_text 3 (outcome_state (pageLoad env0 (Some sender_a)) wA_full) = "9007199254740992"%string.
Proof. vm_compute. reflexivity. Qed.

(** *** The ["start"] and ["stop"] requests *)

(** A ["start"] request for an id the store does not hold. *)
Lemma startRequest_not_found env sid w :
  JsMap.get sid w.(dao) = None ->
  startRequest env sid w =
    (Rejected (Err_message "script not found"), set_trace (w.(trace) ++ [E_log "run error"]) w).
Proof. intros Hn. unfold startRequest, findById, catch. js_simpl. by rewrite Hn. Qed.

(** A ["start"] request whose message the sandbox rejects. *)
Lemma startRequest_swallows_rejection env sid w s r e :
  JsMap.get sid w.(dao) = Some s ->
  Resource.buildScriptRunResource env w.(rng) s = Resolved r ->
  env.(sandboxReply) "start" (P_res r) = Rejected e ->
  startRequest env sid w =
    (Resolved true, set_trace (w.(trace) ++ [E_syncSend "start" (P_res r)]) (set_rng (S w.(rng)) w)).
Proof.
  intros Hs Hb Hr. unfold startRequest, findById, catch. js_simpl. rewrite Hs.
  unfold startBackgroundScript. rewrite (bind_resolved _ _ _ _ _ (build_state env s w r Hb)).
  unfold syncSend. js_simpl. done.
Qed.

(** C25. The error paths of a ["start"] request (lines 95-110, 575-590).
    For an id the store does not hold, the request is rejected with
    ["script not found"] after one log line and changes nothing else.
    The ["start"] message of a single run is not awaited (line 577): a
    sandbox that rejects it does not make the request fail, and nothing is
    logged, although the spec requires every RPC rejection to be logged
    and re-raised. *)
Theorem startRequest_error_paths env sid w :
  (JsMap.get sid w.(dao) = None ->
   startRequest env sid w =
     (Rejected (Err_message "script not found"), set_trace (w.(trace) ++ [E_log "run error"]) w)) /\
  (forall s r e,
   JsMap.get sid w.(dao) = Some s ->
   Resource.buildScriptRunResource env w.(rng) s = Resolved r ->
   env.(sandboxReply) "start" (P_res r) = Rejected e ->
   startRequest env sid w =
     (Resolved true, set_trace (w.(trace) ++ [E_syncSend "start" (P_res r)]) (set_rng (S w.(rng)) w))).
Proof. split; [apply startRequest_not_found|intros; eapply startRequest_swallows_rejection; eauto]. Qed.

Lemma startRequest_error_paths_witness :
  startRequest env0 7 w0 =
    (Rejected (Err_message "script not found"), set_trace (w0.(trace) ++ [E_log "run error"]) w0) /\
  startRequest env_sandbox_fail 2 w0 =
    (Resolved true, set_trace (w0.(trace) ++ [E_syncSend "start" (P_res resB)]) (set_rng (S w0.(rng)) w0)).
Proof.
  split.
  - apply (proj1 (startRequest_error_paths env0 7 w0)). vm_compute. reflexivity.
  - apply (proj2 (startRequest_error_paths env_sandbox_fail 2 w0) scriptB resB (Err_message "sandbox error"));
      vm_compute; reflexivity.
Defined.

(** C27. A ["stop"] request whose message the sandbox rejects is rejected
    with the sandbox's error, after the message and two log lines. *)
Theorem stopRequest_rejection_propagates env sid w s e :
  JsMap.get sid w.(dao) = Some s ->
  env.(sandboxReply) "stop" (P_id sid) = Rejected e ->
  stopRequest env sid w =
    (Rejected e, set_trace (w.(trace) ++ [E_syncSend "stop" (P_id sid);
                                          E_log "backscript stop error"; E_log "stop error"]) w).
Proof.
  intros Hs Hr. unfold stopRequest, findById, catch. js_simpl. rewrite Hs.
  unfold stopBackgroundScript, syncSend. js_simpl. rewrite Hr. simpl.
  by rewrite <- !app_assoc.
Qed.

Lemma stopRequest_rejection_propagates_witness :
  stopRequest env_sandbox_fail 2 w0 =
    (Rejected (Err_message "sandbox error"),
     set_trace (w0.(trace) ++ [E_syncSend "stop" (P_id 2); E_log "backscript stop error"; E_log "stop error"]) w0).
Proof. apply (stopRequest_rejection_propagates env_sandbox_fail 2 w0 scriptB); vm_compute; reflexivity. Defined.

(** *** Run status *)

Definition watcher_sends (sid : nat) (rs : run_status) (ls : list rs_listener) : list effect :=
  omap (fun l => match l with RS_watch f => Some (E_channelSend f sid rs) | RS_backScript => None end) ls.

Lemma trace_set_runBackScript x w : (set_runBackScript x w).(trace) = w.(trace).
Proof. by destruct w. Qed.

Lemma runStatusUpdate_trace sid w : (outcome_state (runStatusUpdate sid) w).(trace) = w.(trace).
Proof.
  unfold outcome_state, runStatusUpdate, findById. js_simpl.
  destruct (JsMap.get sid (dao w)); simpl; [|done]. by case_match.
Qed.

Lemma run_all_rs_trace sid rs ls w :
  (outcome_state (run_all (run_rs_listener sid rs) ls) w).(trace) =
  w.(trace) ++ watcher_sends sid rs ls.
Proof.
  revert w. induction ls as [|l ls IH]; intros w; simpl.
  - by rewrite app_nil_r.
  - unfold outcome_state in *. unfold bind, fire. simpl. rewrite IH.
    destruct l; simpl.
    + pose proof (runStatusUpdate_trace sid w) as H. unfold outcome_state in H. by rewrite H.
    + by rewrite <- app_assoc.
Qed.

(** C24. A run-status report sends one message to each watch channel
    whose listener is registered, in registration order, and nothing to a
    channel whose watch has been disconnected. *)
Theorem scriptRunStatus_sends_to_watchers sid rs now w ch :
  let w1 := outcome_state (watchDisconnect ch) w in
  (outcome_state (scriptRunStatus sid rs now) w).(trace) =
    w.(trace) ++ watcher_sends sid rs (Hook.listeners "runStatus" w.(runtimeHook)) /\
  forall st, E_channelSend ch.(channel_flag) sid st ∉
    watcher_sends sid rs (Hook.listeners "runStatus" w1.(runtimeHook)).
Proof.
  split.
  - unfold outcome_state, scriptRunStatus. js_simpl.
    pose proof (run_all_rs_trace sid rs (Hook.listeners "runStatus" (runtimeHook w))
                  (set_dao (dao_update_runStatus sid rs now (dao w)) w)) as H.
    unfold outcome_state in H. destruct w; exact H.
  - intros st. unfold outcome_state, watchDisconnect, modify. simpl.
    rewrite Hook.listeners_remove. unfold watcher_sends. rewrite list_elem_of_omap.
    intros ([|f] & Hin & Heq); [done|]. simplify_eq.
    apply list_elem_of_filter in Hin as [Hne _]. done.
Qed.

(** *** The background cache refines a finite map *)

(** C36. Read as a finite map ([JsMap.to_gmap]), the background cache is
    updated by the ["enable"] and ["disable"] listeners as an abstract map
    by [insert] and [delete] of the script's id, for background scripts
    only; a page script leaves it unchanged.  Deletion needs the cache to
    be a map (one entry per key), which every reachable state satisfies. *)
Theorem backScript_cache_refines_gmap s w :
  JsMap.wf w.(runBackScript) ->
  JsMap.to_gmap (outcome_state (backEnable s) w).(runBackScript) =
    (if is_background s then <[s.(id) := s]> (JsMap.to_gmap w.(runBackScript))
     else JsMap.to_gmap w.(runBackScript)) /\
  JsMap.to_gmap (outcome_state (backDisable s) w).(runBackScript) =
    (if is_background s then delete s.(id) (JsMap.to_gmap w.(runBackScript))
     else JsMap.to_gmap w.(runBackScript)).
Proof.
  intros Hwf. unfold outcome_state, backEnable, backDisable, modify. simpl.
  destruct (is_background s); simpl; [|done].
  split; [apply JsMap.to_gmap_set|by apply JsMap.to_gmap_delete].
Qed.

Lemma backScript_cache_refines_gmap_witness :
  JsMap.to_gmap (outcome_state (backEnable scriptB) w0).(runBackScript) =
    (if is_background scriptB then <[scriptB.(id) := scriptB]> (JsMap.to_gmap w0.(runBackScript))
     else JsMap.to_gmap w0.(runBackScript)) /\
  JsMap.to_gmap (outcome_state (backDisable scriptB) w0).(runBackScript) =
    (if is_background scriptB then delete scriptB.(id) (JsMap.to_gmap w0.(runBackScript))
     else JsMap.to_gmap w0.(runBackScript)).
Proof. apply backScript_cache_refines_gmap. vm_compute. constructor. Defined.

(** *** The two listeners of the ["enable"] event commute *)

(** A handler is framed with respect to [runBackScript] when it neither
    reads nor writes it. *)
Definition rbs_frame {A} (c : M World A) : Prop :=
  forall x w, c (set_runBackScript x w) = ((c w).1, set_runBackScript x (c w).2).

Lemma rbs_set_runBackScript_same w : set_runBackScript w.(runBackScript) w = w.
Proof. by destruct w. Qed.

Lemma rbs_frame_preserves {A} (c : M World A) w :
  rbs_frame c -> (c w).2.(runBackScript) = w.(runBackScript).
Proof.
  intros Hc. pose proof (Hc w.(runBackScript) w) as H.
  rewrite rbs_set_runBackScript_same in H. rewrite H. simpl. by destruct (c w).2.
Qed.

Lemma rbs_frame_ret {A} (a : A) : rbs_frame (ret a).
Proof. done. Qed.

Lemma rbs_frame_throw {A} e : rbs_frame (A := A) (throw e).
Proof. done. Qed.

Lemma rbs_frame_emit e : rbs_frame (emit e).
Proof. intros x w. by destruct w. Qed.

Lemma rbs_frame_lift {A} (o : outcome A) : rbs_frame (lift o).
Proof. done. Qed.

Lemma rbs_frame_bind {A B} (c : M World A) (k : A -> M World B) :
  rbs_frame c -> (forall a, rbs_frame (k a)) -> rbs_frame (bind c k).
Proof.
  intros Hc Hk x w. unfold bind. rewrite Hc.
  destruct (c w) as [[a| |] w']; simpl; [apply Hk|done|done].
Qed.

Lemma rbs_frame_catch {A} (c : M World A) (h : js_error -> M World A) :
  rbs_frame c -> (forall e, rbs_frame (h e)) -> rbs_frame (catch c h).
Proof.
  intros Hc Hh x w. unfold catch. rewrite Hc.
  destruct (c w) as [[a|e|] w']; simpl; [done|apply Hh|done].
Qed.

Lemma rbs_frame_build env s : rbs_frame (build env s).
Proof. intros x w. unfold build. destruct w; simpl. by case_match. Qed.

Lemma rbs_frame_loadPageScript env r : rbs_frame (loadPageScript env r).
Proof. intros x w. rewrite !loadPageScript_state. by destruct w. Qed.

#[local] Hint Resolve rbs_frame_ret rbs_frame_throw rbs_frame_emit rbs_frame_lift
  rbs_frame_bind rbs_frame_catch rbs_frame_build rbs_frame_loadPageScript : js.

Lemma rbs_frame_syncSend env t p : rbs_frame (syncSend env t p).
Proof. unfold syncSend. auto with js. Qed.

#[local] Hint Resolve rbs_frame_syncSend : js.

Lemma rbs_frame_scriptUpdate env s : rbs_frame (scriptUpdate env s).
Proof.
  unfold scriptUpdate, enable, disable, loadBackgroundScript, unloadBackgroundScript,
    unloadPageScript, log_error.
  destruct (is_enabled s), (is_background s); auto 10 with js.
Qed.

Lemma scriptUpdate_backEnable_swap env s w :
  outcome_state (await_ fire (scriptUpdate env s) ;; backEnable s) w =
  outcome_state (await_ backEnable s ;; fire (scriptUpdate env s)) w.
Proof.
  unfold outcome_state, backEnable, fire, bind, modify. simpl.
  destruct (is_background s).
  - rewrite (rbs_frame_scriptUpdate env s). simpl.
    by rewrite (rbs_frame_preserves _ _ (rbs_frame_scriptUpdate env s)).
  - done.
Qed.

(** C26. The two listeners [Runtime] puts on the ["enable"] event,
    [scriptUpdate] (line 88) and the background cache update (line 237),
    touch disjoint parts of the state: running them in either order gives
    the same state.  The source runs the cache update while [scriptUpdate]
    awaits its run resource; the model's atomic order is equivalent. *)
Theorem enable_listeners_commute env s w :
  outcome_state (await_ fire (scriptUpdate env s) ;; backEnable s) w =
  outcome_state (await_ backEnable s ;; fire (scriptUpdate env s)) w.
Proof. apply scriptUpdate_backEnable_swap. Qed.

(** *** Handlers that leave a part of the state alone *)

Section Preserves.
(** A part of the state, read by [getf], that the primitive writes of the
    handlers below do not touch. *)
Context {X : Type} (getf : World -> X).
Hypothesis getf_set_trace : forall x w, getf (set_trace x w) = getf w.
Hypothesis getf_set_rng : forall x w, getf (set_rng x w) = getf w.
Hypothesis getf_set_matchIx : forall x w, getf (set_matchIx x w) = getf w.
Hypothesis getf_set_includeIx : forall x w, getf (set_includeIx x w) = getf w.
Hypothesis getf_set_badge : forall x w, getf (set_badge x w) = getf w.

Definition preserves {A} (c : M World A) : Prop := forall w, getf (c w).2 = getf w.

Lemma preserves_ret {A} (a : A) : preserves (ret a).
Proof. done. Qed.
Lemma preserves_throw {A} e : preserves (A := A) (throw e).
Proof. done. Qed.
Lemma preserves_pending {A} : preserves (A := A) pending.
Proof. done. Qed.
Lemma preserves_lift {A} (o : outcome A) : preserves (lift o).
Proof. done. Qed.
Lemma preserves_get : preserves get.
Proof. done. Qed.
Lemma preserves_emit e : preserves (emit e).
Proof. intros w. apply getf_set_trace. Qed.
Lemma preserves_findById sid : preserves (findById sid).
Proof. done. Qed.

Lemma preserves_bind {A B} (c : M World A) (k : A -> M World B) :
  preserves c -> (forall a, preserves (k a)) -> preserves (bind c k).
Proof.
  intros Hc Hk w. unfold bind. specialize (Hc w).
  destruct (c w) as [[a| |] w']; simpl in *; [by rewrite Hk|done|done].
Qed.

Lemma preserves_catch {A} (c : M World A) h :
  preserves c -> (forall e, preserves (h e)) -> preserves (catch c h).
Proof.
  intros Hc Hh w. unfold catch. specialize (Hc w).
  destruct (c w) as [[a|e|] w']; simpl in *; [done|by rewrite Hh|done].
Qed.

Lemma preserves_fire {A} (c : M World A) : preserves c -> preserves (fire c).
Proof. intros Hc w. apply Hc. Qed.

Lemma preserves_build env s : preserves (build env s).
Proof. intros w. unfold build. case_match; simpl; [apply getf_set_rng|done|done]. Qed.

Lemma preserves_loadPageScript env r : preserves (loadPageScript env r).
Proof.
  intros w. rewrite loadPageScript_state. simpl.
  by rewrite getf_set_trace, getf_set_includeIx, getf_set_matchIx.
Qed.

Lemma preserves_run_all {A} (f : A -> M World unit) l :
  (forall x, preserves (f x)) -> preserves (run_all f l).
Proof.
  intros Hf. induction l as [|x l IH]; simpl; [apply preserves_ret|].
  apply preserves_bind; [by apply preserves_fire|done].
Qed.

#[local] Hint Resolve preserves_ret preserves_throw preserves_pending preserves_lift
  preserves_get preserves_emit preserves_findById preserves_bind preserves_catch
  preserves_fire preserves_build preserves_loadPageScript preserves_run_all : js.

Lemma preserves_syncSend env t p : preserves (syncSend env t p).
Proof. unfold syncSend. auto with js. Qed.

#[local] Hint Resolve preserves_syncSend : js.

Lemma preserves_enable env s : preserves (enable env s).
Proof. unfold enable, loadBackgroundScript, log_error. destruct (is_background s); auto 10 with js. Qed.

Lemma preserves_disable env s : preserves (disable env s).
Proof.
  unfold disable, unloadBackgroundScript, unloadPageScript, log_error.
  destruct (is_background s); auto 10 with js.
Qed.

#[local] Hint Resolve preserves_enable preserves_disable : js.

Lemma preserves_scriptUpdate env s : preserves (scriptUpdate env s).
Proof.
  unfold scriptUpdate. destruct (is_enabled s); auto with js.
Qed.

Lemma preserves_scriptDelete env s : preserves (scriptDelete env s).
Proof.
  unfold scriptDelete. apply preserves_bind.
  - intros w. unfold modify. simpl. by rewrite getf_set_includeIx, getf_set_matchIx.
  - intros _. apply preserves_bind; [|auto with js].
    destruct (is_enabled s); auto with js.
Qed.

Lemma preserves_startRequest env sid : preserves (startRequest env sid).
Proof.
  unfold startRequest, startBackgroundScript, log_error.
  apply preserves_catch; [apply preserves_bind; [auto with js|]|auto with js].
  intros [s|]; auto 10 with js.
Qed.

Lemma preserves_stopRequest env sid : preserves (stopRequest env sid).
Proof.
  unfold stopRequest, stopBackgroundScript, log_error.
  apply preserves_catch; [apply preserves_bind; [auto with js|]|auto with js].
  intros [s|]; auto 10 with js.
Qed.

Lemma preserves_badge_callback tab n res : preserves (badge_callback tab n res).
Proof. intros w. unfold badge_callback. simpl. by rewrite getf_set_trace, getf_set_badge. Qed.

Lemma preserves_badge_update tab n : preserves (badge_update tab n).
Proof. intros w. apply preserves_badge_callback. Qed.

Lemma preserves_pageLoad env snd : preserves (pageLoad env snd).
Proof.
  unfold pageLoad. destruct snd as [sd|]; [|auto with js].
  destruct (truthy_url sd.(url)), (truthy_tab sd.(tabId)); try auto with js.
  apply preserves_bind; [auto with js|]. intros w.
  apply preserves_bind; [auto with js|]. intros _.
  destruct (matchUrl _ _ w); [auto with js|].
  pose proof preserves_badge_update. auto 10 with js.
Qed.
End Preserves.

(** A property of the part of the state a computation preserves is kept. *)
Lemma keeps_of_preserves {X A} (getf : World -> X) (Q : X -> Prop) (c : M World A) :
  preserves getf c -> keeps (fun w => Q (getf w)) c.
Proof. intros Hc w. unfold outcome_state. by rewrite Hc. Qed.

Lemma keeps_run_all {A} (P : World -> Prop) (f : A -> M World unit) l :
  (forall x, keeps P (f x)) -> keeps P (run_all f l).
Proof. intros Hf. induction l; simpl; auto with keeps. Qed.

Lemma run_all_cons_state {A} (f : A -> M World unit) x l w :
  outcome_state (run_all f (x :: l)) w = outcome_state (run_all f l) (outcome_state (f x) w).
Proof. reflexivity. Qed.

Lemma run_all_app_state {A} (f : A -> M World unit) l1 l2 w :
  outcome_state (run_all f (l1 ++ l2)) w = outcome_state (run_all f l2) (outcome_state (run_all f l1) w).
Proof. revert w. induction l1 as [|x l1 IH]; intros w; [done|]. apply IH. Qed.

Lemma keeps_run_all_in {A} (P : World -> Prop) (f : A -> M World unit) l :
  (forall x, x ∈ l -> keeps P (f x)) -> keeps P (run_all f l).
Proof.
  induction l as [|x l IH]; intros Hf; simpl; [auto with keeps|].
  apply keeps_bind; [apply keeps_fire, Hf; left|intros _; apply IH; intros y Hy; apply Hf; by right].
Qed.

(** *** The entries of one script in the indexes *)

Definition entries (k : nat) (w : World) :=
  (Index.rules_of res_id k w.(matchIx), Index.excludes_of res_id k w.(matchIx),
   Index.rules_of res_id k w.(includeIx), Index.excludes_of res_id k w.(includeIx)).

Lemma keeps_entries_loadPageScript env r k E :
  res_id r <> k -> keeps (fun w => entries k w = E) (loadPageScript env r).
Proof.
  intros Hk w <-. unfold entries. destruct (loadPageScript_rules env r w k) as (H1 & H2 & H3 & H4).
  rewrite H1, H2, H3, H4. by rewrite !decide_False.
Qed.

Lemma keeps_entries_emit k E e : keeps (fun w => entries k w = E) (emit e).
Proof. apply keeps_modify. by intros w <-. Qed.

#[local] Hint Resolve keeps_entries_emit : keeps.

Lemma keeps_entries_background env k E r s :
  keeps (fun w => entries k w = E) (loadBackgroundScript env r) /\
  keeps (fun w => entries k w = E) (unloadBackgroundScript env s).
Proof. unfold loadBackgroundScript, unloadBackgroundScript, syncSend, log_error. split; auto 10 with keeps. Qed.

Lemma keeps_entries_enable env item k E :
  item.(id) <> k -> keeps (fun w => entries k w = E) (enable env item).
Proof.
  intros Hk w Hw. unfold enable, outcome_state, bind, build.
  destruct (Resource.buildScriptRunResource env (rng w) item) as [r| |] eqn:Hb; [|done|done].
  destruct (Resource.build_resolved_script _ _ _ _ Hb) as [_ Hid].
  assert (Hs : entries k (set_rng (S (rng w)) w) = E) by (rewrite <- Hw; by destruct w).
  destruct (is_background item).
  - by apply (proj1 (keeps_entries_background env k E r item)).
  - apply (keeps_entries_loadPageScript env r k E); [|done]. unfold res_id. by rewrite Hid.
Qed.

Lemma keeps_entries_disable env item k E :
  item.(id) <> k -> keeps (fun w => entries k w = E) (disable env item).
Proof.
  intros Hk. unfold disable. case_match; [apply (keeps_entries_background env k E (of_script item))|].
  by apply keeps_entries_loadPageScript.
Qed.

(** A start-up item of another script leaves a script's entries alone. *)
Lemma keeps_entries_startup_item env item k E :
  item.(id) <> k -> keeps (fun w => entries k w = E) (startup_item env item).
Proof.
  intros Hk. pose proof (keeps_entries_enable env item k E Hk).
  pose proof (keeps_entries_disable env item k E Hk).
  unfold startup_item. repeat case_match; auto with keeps; apply keeps_modify; by intros w <-.
Qed.

End Runtime.
