(* ===== verification/Events.v ===== *)
(** * The script event listener and the system's steps

    src/app/service/script/event.ts: [ScriptEventListener]'s handlers
    [upsertHandler] (lines 50-75), [enableHandler] (84-108),
    [disableHandler] (110-134) and [deleteHandler] (136-162) read and write
    the script store and trigger [ScriptManager.hook], whose listeners are
    the ones [Runtime] registered ([Runtime.managerHook]); [trigger] runs
    them in registration order ([Hook.listeners]).  The store's answers to
    [save] and [delete] come from a [DaoEnv].  The [fetch] and
    [checkUpdate] handlers, and the registration of all six handlers with
    the manager, are in [Listener].

    [step] is the system's transition relation: one handler of event.ts or
    of [Runtime] run to completion, a menu registration, a run-status
    report, a watch or its disconnection, the arrival of the inject
    source.  [reachable] states are those [step]s lead to from a runtime
    started on a store; the invariants of the caches are proved on them by
    rule induction. *)

From stdpp Require Import sorting.
From S2P Require Import Prelude JsMap Glob UrlMatch Hook Script Resource Menu JsNumber Runtime.

Module Events.
Import Runtime.

(** The script store's answers to the writes of event.ts. *)
Record DaoEnv := mkDaoEnv {
  save_result : Script -> outcome unit;
  delete_result : nat -> outcome unit;
}.

(** ** Writes to the store *)

(** [dao.save(script)]: a put by id. *)
Definition dao_save (dv : DaoEnv) (script : Script) : M World unit :=
  await_ lift (dv.(save_result) script) ;;
  modify (fun w => set_dao (IntObj.oset script.(id) script w.(dao)) w).

(** [dao.delete(id)] *)
Definition dao_delete (dv : DaoEnv) (sid : nat) : M World unit :=
  await_ lift (dv.(delete_result) sid) ;;
  modify (fun w => set_dao (JsMap.delete sid w.(dao)) w).

(** ** [ScriptManager.hook.trigger(event, script)] *)

Definition run_sm_listener (env : Env) (script : Script) (l : sm_listener) : M World unit :=
  match l with
  | SM_scriptUpdate => fire (scriptUpdate env script)
  | SM_scriptDelete => fire (scriptDelete env script)
  | SM_backEnable => backEnable script
  | SM_backDisable => backDisable script
  end.

Definition trigger (env : Env) (ev : string) (script : Script) : M World unit :=
  await w <- get ;;
  run_all (run_sm_listener env script) (Hook.listeners ev w.(managerHook)).

(** ** The handlers of event.ts *)

(** [script.metadata.version[0]]: a [TypeError] when the key is absent. *)
Definition version_read (script : Script) : M World unit :=
  match meta "version" script with
  | Some _ => ret tt
  | None => throw (Err_type "Cannot read properties of undefined (reading '0')")
  end.

(** Lines 50-75: the promise resolves with [{ id: script.id }]. *)
Definition upsertHandler (dv : DaoEnv) (env : Env) (script : Script) : M World nat :=
  await_ version_read script ;;
  catch (await_ dao_save dv script ;;
         await_ trigger env "upsert" script ;;
         ret script.(id))
        (fun e => await_ log_error "script upsert failed" ;; throw e).

Definition script_missing : js_error := Err_message "script does not exist".

(** Lines 84-108.  The [save] is not awaited. *)
Definition enableHandler (dv : DaoEnv) (env : Env) (sid : nat) (now : nat) : M World nat :=
  await o <- findById sid ;;
  match o with
  | None => throw script_missing
  | Some script =>
      if is_enabled script then ret 1
      else
        let script' := with_status SCRIPT_STATUS_ENABLE now script in
        await_ fire (dao_save dv script') ;;
        await_ trigger env "enable" script' ;;
        ret 1
  end.

(** Lines 110-134. *)
Definition disableHandler (dv : DaoEnv) (env : Env) (sid : nat) (now : nat) : M World nat :=
  await o <- findById sid ;;
  match o with
  | None => throw script_missing
  | Some script =>
      if is_enabled script then
        let script' := with_status SCRIPT_STATUS_DISABLE now script in
        await_ fire (dao_save dv script') ;;
        await_ trigger env "disable" script' ;;
        ret 1
      else ret 1
  end.

(** Lines 136-162.  The rejection of a missing script, and a [TypeError]
    of the version read, are returned from inside a [then] callback whose
    promise nobody observes: the handler's own promise never settles. *)
Definition deleteHandler (dv : DaoEnv) (env : Env) (sid : nat) : M World nat :=
  await o <- findById sid ;;
  match o with
  | None => pending
  | Some script =>
      match meta "version" script with
      | None => pending
      | Some _ =>
          catch (await_ dao_delete dv script.(id) ;;
                 await_ trigger env "delete" script ;;
                 ret 1)
                (fun e => await_ log_error "script delete failed" ;; throw e)
      end
  end.

(** ** The system *)

Inductive step (dv : DaoEnv) (env : Env) : World -> World -> Prop :=
  | st_upsert script w : step dv env w (outcome_state (upsertHandler dv env script) w)
  | st_enable sid now w : step dv env w (outcome_state (enableHandler dv env sid now) w)
  | st_disable sid now w : step dv env w (outcome_state (disableHandler dv env sid now) w)
  | st_delete sid w : step dv env w (outcome_state (deleteHandler dv env sid) w)
  | st_start_request sid w : step dv env w (outcome_state (startRequest env sid) w)
  | st_stop_request sid w : step dv env w (outcome_state (stopRequest env sid) w)
  | st_run_status sid rs now w : step dv env w (outcome_state (scriptRunStatus sid rs now) w)
  | st_watch ch w : step dv env w (outcome_state (watchRunStatus ch) w)
  | st_disconnect ch w : step dv env w (outcome_state (watchDisconnect ch) w)
  | st_register req ch w :
      step dv env w (let '(sm, effs, _) := Menu.registerMenu req ch w.(scriptMenu) in
                     set_trace (w.(trace) ++ effs) (set_scriptMenu sm w))
  | st_unregister mid req w :
      step dv env w (let '(sm, effs) := Menu.unregisterMenu mid req w.(scriptMenu) in
                     set_trace (w.(trace) ++ effs) (set_scriptMenu sm w))
  | st_tab_activated tab w :
      step dv env w (set_trace (w.(trace) ++ Menu.tabActivated tab) w)
  | st_page_load snd w : step dv env w (outcome_state (pageLoad env snd) w)
  | st_inject_source src w : step dv env w (outcome_state (injectSourceLoaded env src) w).

(** A store as [toArray] hands it over: keys ascending, each record under
    its own id. *)
Definition dao_ok (d : list (nat * Script)) : Prop :=
  IntObj.sorted d /\ forall k s, (k, s) ∈ d -> s.(id) = k.

(** The states of a runtime constructed and started on a store. *)
Definition reachable (dv : DaoEnv) (env : Env) (w : World) : Prop :=
  exists d, dao_ok d /\
    rtc (step dv env) (outcome_state (Runtime.start env) (runtime_new env d)) w.

(** The listeners of [ScriptManager.hook] once [start()] has run: the four
    of the constructor (lines 53-67), then the two of lines 237-247. *)
Definition manager_hooks : list (string * sm_listener) :=
  [("upsert", SM_scriptUpdate); ("delete", SM_scriptDelete);
   ("enable", SM_scriptUpdate); ("disable", SM_scriptUpdate);
   ("enable", SM_backEnable); ("disable", SM_backDisable)].

(** Every record of a cache of scripts is stored under its own id. *)
Definition keyed (m : list (nat * Script)) : Prop := forall k s, (k, s) ∈ m -> s.(id) = k.

(** The invariant of the reachable states: the store is a well-formed
    object, the background cache and the menu registry are maps (one entry
    per key) holding each script under its id, and the script manager's
    hook is the one [start()] left. *)
Record inv (w : World) : Prop := {
  inv_dao : dao_ok w.(dao);
  inv_rbs_wf : JsMap.wf w.(runBackScript);
  inv_rbs_keyed : keyed w.(runBackScript);
  inv_menu_wf : JsMap.wf w.(scriptMenu);
  inv_hooks : w.(managerHook) = manager_hooks;
}.

(** ** A concrete system

    The collaborators, scripts and started runtime of [Runtime]'s
    examples; the store acknowledges every write. *)
Definition dv0 : DaoEnv := mkDaoEnv (fun _ => Resolved tt) (fun _ => Resolved tt).


(** The ids [matchUrl] returns for a URL. *)
Definition matched_ids (u : string) (w : World) : list nat := map res_id (matchUrl u None w).

(** The sandbox messages of a trace: topic and script id. *)
Definition sent (t : list effect) : list (string * nat) :=
  omap (fun e => match e with
                 | E_syncSend topic (P_res r) => Some (topic, res_id r)
                 | E_syncSend topic (P_id i) => Some (topic, i)
                 | _ => None
                 end) t.

(** The ids of the scripts a page load of [u] in tab 3 injects. *)
Definition injected_ids (u : string) (w : World) : option (list nat) :=
  match outcome_of (pageLoad env0 (Some (mkSender (Some 3) (Some 0) (Some u) ""))) w with
  | Resolved (_, l) => Some (map res_id l)
  | _ => None
  end.

(** Scenario A: enable, then disable, the page script. *)
Definition wA1 : World := outcome_state (enableHandler dv0 env0 1 10) w0.
Definition wA2 : World := outcome_state (disableHandler dv0 env0 1 11) wA1.

(** Scenario B: enable the background script, then disable or delete it. *)
Definition wB1 : World := outcome_state (enableHandler dv0 env0 2 10) w0.
Definition wB2 : World := outcome_state (disableHandler dv0 env0 2 11) wB1.
Definition wB3 : World := outcome_state (deleteHandler dv0 env0 2) wB1.

(** ** Properties *)

(** *** The invariant *)

Lemma keyed_set k s m : keyed m -> s.(id) = k -> keyed (JsMap.set k s m).
Proof. intros Hm Hs k' s' Hin. apply JsMap.elem_of_set in Hin as [Hin|Hin]; simplify_eq; auto. Qed.

Lemma keyed_delete k m : keyed m -> keyed (JsMap.delete k m).
Proof. intros Hm k' s' Hin. apply Hm. by eapply JsMap.elem_of_delete. Qed.

Lemma keyed_oset k s m : keyed m -> s.(id) = k -> keyed (IntObj.oset k s m).
Proof. intros Hm Hs k' s' Hin. apply IntObj.elem_of_oset in Hin as [Hin|Hin]; simplify_eq; auto. Qed.

Lemma keyed_get k s m : keyed m -> JsMap.get k m = Some s -> s.(id) = k.
Proof. intros Hm Hg. by apply Hm, JsMap.get_Some_in. Qed.

(** A computation that touches none of the parts [inv] speaks of. *)
Lemma keeps_inv_preserving {A} (c : M World A) :
  (forall X (getf : World -> X),
     (forall x w, getf (set_trace x w) = getf w) ->
     (forall x w, getf (set_rng x w) = getf w) ->
     (forall x w, getf (set_matchIx x w) = getf w) ->
     (forall x w, getf (set_includeIx x w) = getf w) ->
     (forall x w, getf (set_badge x w) = getf w) -> preserves getf c) ->
  keeps inv c.
Proof.
  intros Hc w [Hd Hr Hk Hm Hh]. unfold outcome_state.
  split; [rewrite (Hc _ dao)|rewrite (Hc _ runBackScript)|rewrite (Hc _ runBackScript)
         |rewrite (Hc _ scriptMenu)|rewrite (Hc _ managerHook)]; by intros.
Qed.

Ltac keeps_inv_by lem := apply keeps_inv_preserving; intros; eapply lem; eauto.

Lemma keeps_inv_emit e : keeps inv (emit e).
Proof. keeps_inv_by @preserves_emit. Qed.
Lemma keeps_inv_scriptUpdate env s : keeps inv (scriptUpdate env s).
Proof. keeps_inv_by @preserves_scriptUpdate. Qed.
Lemma keeps_inv_scriptDelete env s : keeps inv (scriptDelete env s).
Proof. keeps_inv_by @preserves_scriptDelete. Qed.
Lemma keeps_inv_enable env s : keeps inv (enable env s).
Proof. keeps_inv_by @preserves_enable. Qed.
Lemma keeps_inv_disable env s : keeps inv (disable env s).
Proof. keeps_inv_by @preserves_disable. Qed.
Lemma keeps_inv_startRequest env sid : keeps inv (startRequest env sid).
Proof. keeps_inv_by @preserves_startRequest. Qed.
Lemma keeps_inv_stopRequest env sid : keeps inv (stopRequest env sid).
Proof. keeps_inv_by @preserves_stopRequest. Qed.
Lemma keeps_inv_pageLoad env snd : keeps inv (pageLoad env snd).
Proof. keeps_inv_by @preserves_pageLoad. Qed.
Lemma keeps_inv_badge_callback tab n res : keeps inv (badge_callback tab n res).
Proof. keeps_inv_by @preserves_badge_callback. Qed.

#[export] Hint Resolve keeps_inv_emit keeps_inv_scriptUpdate keeps_inv_scriptDelete
  keeps_inv_enable keeps_inv_disable keeps_inv_startRequest keeps_inv_stopRequest
  keeps_inv_pageLoad keeps_inv_badge_callback keeps_run_all : keeps.

(** Writes to the parts [inv] speaks of. *)
Lemma inv_set_dao d w : inv w -> dao_ok d -> inv (set_dao d w).
Proof. by destruct 1; split. Qed.
Lemma inv_set_runBackScript m w : inv w -> JsMap.wf m -> keyed m -> inv (set_runBackScript m w).
Proof. by destruct 1; split. Qed.
Lemma inv_set_scriptMenu sm w : inv w -> JsMap.wf sm -> inv (set_scriptMenu sm w).
Proof. by destruct 1; split. Qed.
Lemma inv_set_trace t w : inv w -> inv (set_trace t w).
Proof. by destruct 1; split. Qed.
Lemma inv_set_runtimeHook h w : inv w -> inv (set_runtimeHook h w).
Proof. by destruct 1; split. Qed.
Lemma inv_set_injectedSource x w : inv w -> inv (set_injectedSource x w).
Proof. by destruct 1; split. Qed.

Lemma keeps_inv_log_error msg : keeps inv (log_error msg).
Proof. apply keeps_inv_emit. Qed.

Lemma keeps_inv_dao_save dv script : keeps inv (dao_save dv script).
Proof.
  unfold dao_save. apply keeps_bind; [apply keeps_lift|]. intros _.
  apply keeps_modify. intros w Hw. apply inv_set_dao; [done|].
  destruct (inv_dao w Hw). split; [auto with js|by apply keyed_oset].
Qed.

Lemma keeps_inv_dao_delete dv sid : keeps inv (dao_delete dv sid).
Proof.
  unfold dao_delete. apply keeps_bind; [apply keeps_lift|]. intros _.
  apply keeps_modify. intros w Hw. apply inv_set_dao; [done|].
  destruct (inv_dao w Hw). split; [auto with js|by apply keyed_delete].
Qed.

Lemma keeps_inv_backEnable script : keeps inv (backEnable script).
Proof.
  apply keeps_modify. intros w Hw. case_match; [|done].
  apply inv_set_runBackScript; [done|auto using inv_rbs_wf with js|].
  apply keyed_set; [apply Hw|done].
Qed.

Lemma keeps_inv_backDisable script : keeps inv (backDisable script).
Proof.
  apply keeps_modify. intros w Hw. case_match; [|done].
  apply inv_set_runBackScript; [done|auto using inv_rbs_wf with js|].
  apply keyed_delete, Hw.
Qed.

#[export] Hint Resolve keeps_inv_log_error keeps_inv_dao_save keeps_inv_dao_delete
  keeps_inv_backEnable keeps_inv_backDisable : keeps.

Lemma keeps_inv_trigger env ev script : keeps inv (trigger env ev script).
Proof.
  unfold trigger. apply keeps_bind; [apply keeps_get|]. intros w.
  apply keeps_run_all. intros []; simpl; auto with keeps.
Qed.

#[export] Hint Resolve keeps_inv_trigger : keeps.

Lemma keeps_inv_upsertHandler dv env script : keeps inv (upsertHandler dv env script).
Proof. unfold upsertHandler, version_read. case_match; auto 10 with keeps. Qed.

Lemma keeps_inv_enableHandler dv env sid now : keeps inv (enableHandler dv env sid now).
Proof.
  unfold enableHandler. apply keeps_bind; [by intros w|]. intros [script|]; [|auto with keeps].
  case_match; auto 10 with keeps.
Qed.

Lemma keeps_inv_disableHandler dv env sid now : keeps inv (disableHandler dv env sid now).
Proof.
  unfold disableHandler. apply keeps_bind; [by intros w|]. intros [script|]; [|auto with keeps].
  case_match; auto 10 with keeps.
Qed.

Lemma keeps_inv_deleteHandler dv env sid : keeps inv (deleteHandler dv env sid).
Proof.
  unfold deleteHandler. apply keeps_bind; [by intros w|]. intros [script|]; [|auto with keeps].
  case_match; auto 10 with keeps.
Qed.

(** The run-status listener re-reads the script from a keyed store. *)
Lemma keeps_inv_runStatusUpdate sid : keeps inv (runStatusUpdate sid).
Proof.
  intros w Hw. unfold runStatusUpdate, outcome_state, findById, bind. simpl.
  destruct (JsMap.get sid (dao w)) as [script|] eqn:Hg; [|done]. simpl.
  destruct (inv_dao w Hw) as [_ Hk]. pose proof (keyed_get _ _ _ Hk Hg).
  case_match; (apply inv_set_runBackScript; [done|auto using inv_rbs_wf with js|]).
  - apply keyed_set; [apply Hw|done].
  - apply keyed_delete, Hw.
Qed.

Lemma dao_ok_update_runStatus sid rs now d : dao_ok d -> dao_ok (dao_update_runStatus sid rs now d).
Proof.
  intros [Hs Hk]. unfold dao_update_runStatus.
  destruct (JsMap.get sid d) as [s|] eqn:Hg; [|by split].
  split; [auto with js|]. apply keyed_oset; [done|]. apply (keyed_get _ _ _ Hk Hg).
Qed.

Lemma keeps_inv_scriptRunStatus sid rs now : keeps inv (scriptRunStatus sid rs now).
Proof.
  unfold scriptRunStatus. apply keeps_bind.
  - apply keeps_modify. intros w Hw. apply inv_set_dao; [done|].
    apply dao_ok_update_runStatus, Hw.
  - intros _. apply keeps_bind; [apply keeps_get|]. intros w.
    apply keeps_run_all. intros []; [apply keeps_inv_runStatusUpdate|apply keeps_inv_emit].
Qed.

(** Every step keeps the invariant. *)
Lemma step_inv dv env w w' : step dv env w w' -> inv w -> inv w'.
Proof.
  destruct 1; intros Hw.
  - by apply keeps_inv_upsertHandler.
  - by apply keeps_inv_enableHandler.
  - by apply keeps_inv_disableHandler.
  - by apply keeps_inv_deleteHandler.
  - by apply keeps_inv_startRequest.
  - by apply keeps_inv_stopRequest.
  - by apply keeps_inv_scriptRunStatus.
  - by apply inv_set_runtimeHook.
  - by apply inv_set_runtimeHook.
  - pose proof (Menu.registerMenu_wf req ch (scriptMenu w) (inv_menu_wf w Hw)).
    destruct (Menu.registerMenu _ _ _) as [[sm effs] o].
    by apply inv_set_trace, inv_set_scriptMenu.
  - pose proof (Menu.unregisterMenu_wf mid req (scriptMenu w) (inv_menu_wf w Hw)).
    destruct (Menu.unregisterMenu _ _ _) as [sm effs].
    by apply inv_set_trace, inv_set_scriptMenu.
  - by apply inv_set_trace.
  - by apply keeps_inv_pageLoad.
  - by apply inv_set_injectedSource.
Qed.

Lemma keeps_inv_startup_item env item : keeps inv (startup_item env item).
Proof.
  unfold startup_item. repeat case_match; auto with keeps.
  apply keeps_bind; [auto with keeps|]. intros _.
  apply keeps_modify. intros w Hw.
  apply inv_set_runBackScript; auto using inv_rbs_wf with js. apply keyed_set; [apply Hw|done].
Qed.

(** [start()] on a well-formed store establishes the invariant. *)
Lemma start_inv env d : dao_ok d -> inv (outcome_state (Runtime.start env) (runtime_new env d)).
Proof.
  intros Hd. unfold Runtime.start, outcome_state, bind, modify, get. simpl.
  apply (keeps_run_all inv _ _ (keeps_inv_startup_item env)).
  split; [done|constructor|by intros ??; rewrite elem_of_nil|constructor|done].
Qed.

(** *** Running the handlers *)

Lemma listeners_enable : Hook.listeners "enable" manager_hooks = [SM_scriptUpdate; SM_backEnable].
Proof. reflexivity. Qed.
Lemma set_dao_same w : set_dao w.(dao) w = w.
Proof. by destruct w. Qed.
Lemma fire_dao_save dv script w : exists d, fire (dao_save dv script) w = (Resolved tt, set_dao d w).
Proof.
  unfold fire, dao_save, bind, lift, modify. destruct (save_result dv script); simpl; eauto;
  exists (dao w); by rewrite set_dao_same.
Qed.
Lemma trigger_run ev env script w :
  trigger env ev script w = run_all (run_sm_listener env script) (Hook.listeners ev w.(managerHook)) w.
Proof. reflexivity. Qed.
Lemma findById_run sid w : findById sid w = (Resolved (JsMap.get sid w.(dao)), w).
Proof. reflexivity. Qed.
Lemma listeners_delete : Hook.listeners "delete" manager_hooks = [SM_scriptDelete].
Proof. reflexivity. Qed.
Lemma scriptDelete_frame env s w :
  (scriptDelete env s w).2.(runBackScript) = w.(runBackScript) /\ (scriptDelete env s w).2.(dao) = w.(dao) /\
  (scriptDelete env s w).2.(scriptMenu) = w.(scriptMenu).
Proof.
  split_and!; [apply (preserves_scriptDelete runBackScript)|apply (preserves_scriptDelete dao)
              |apply (preserves_scriptDelete scriptMenu)]; by intros.
Qed.

Lemma keeps_missing_scriptRunStatus sid rs now R :
  keeps (fun w => w.(runBackScript) = R /\ JsMap.get sid w.(dao) = None) (scriptRunStatus sid rs now).
Proof.
  unfold scriptRunStatus. apply keeps_bind.
  - apply keeps_modify. intros w [Hr Hd]. unfold dao_update_runStatus. simpl. by rewrite Hd.
  - intros _. apply keeps_bind; [apply keeps_get|]. intros w. apply keeps_run_all.
    intros [].
    + intros w' [Hr Hd]. unfold outcome_state, run_rs_listener, runStatusUpdate, bind, findById. rewrite Hd. done.
    + intros w' Hw'. apply Hw'.
Qed.

Lemma listeners_upsert : Hook.listeners "upsert" manager_hooks = [SM_scriptUpdate].
Proof. reflexivity. Qed.

Lemma dao_save_run dv script w :
  dv.(save_result) script = Resolved tt ->
  dao_save dv script w = (Resolved tt, set_dao (IntObj.oset script.(id) script w.(dao)) w).
Proof. intros H. unfold dao_save, bind, lift. by rewrite H. Qed.

Lemma scriptUpdate_dao env s w : (scriptUpdate env s w).2.(dao) = w.(dao).
Proof. apply (preserves_scriptUpdate dao); by intros. Qed.

Lemma store0_ok : dao_ok store0.
Proof.
  split; [repeat constructor; lia|].
  intros k s Hin. repeat (apply elem_of_cons in Hin as [Hin|Hin]; [by simplify_eq|]).
  by apply elem_of_nil in Hin.
Qed.

Lemma reachable_initial dv env : reachable dv env (initial env).
Proof. exists store0. split; [apply store0_ok|apply rtc_refl]. Qed.

(** *** Reachable states *)

Lemma reachable_invariant dv env w : reachable dv env w -> inv w.
Proof.
  intros (d & Hd & Hr). eapply (rtc_invariant _ inv); [by apply start_inv| |exact Hr].
  intros a b Hab. by apply (step_inv dv env).
Qed.

Lemma reachable_step dv env w w' : reachable dv env w -> step dv env w w' -> reachable dv env w'.
Proof. intros (d & Hd & Hr) Hs. exists d. split; [done|]. by eapply rtc_r. Qed.

(** C18: in every state the system reaches from a runtime started on a
    well-formed store, the store is sorted and keyed by id, the background
    cache and the menu registry hold one entry per key, the background
    cache holds each script under its id, and the script manager's hook
    has the six listeners [start()] leaves. *)
Theorem reachable_inv dv env w : reachable dv env w -> inv w.
Proof. apply reachable_invariant. Qed.

Lemma reachable_inv_witness : reachable dv0 env0 w0 /\ inv w0.
Proof.
  pose proof (reachable_initial dv0 env0) as Hr.
  split; [exact Hr|]. apply (reachable_inv dv0 env0 w0 Hr).
Defined.

(** *** Failures that leave the caches inconsistent *)

(** C19: enabling a disabled background script whose build fails (the
    value store rejects) still puts it into the background cache: the
    ["enable"] hook's [backEnable] listener runs whether or not the
    [scriptUpdate] listener fired before it succeeded, and the handler
    resolves with 1.  No message reaches the sandbox.  The spec (section 7)
    says a script that fails to enable has no entry in the background set. *)
Theorem enable_failed_background_cached dv env w sid s now e :
  reachable dv env w ->
  JsMap.get sid w.(dao) = Some s ->
  is_enabled s = false -> is_background s = true ->
  env.(getScriptValues) (of_script (with_metadata (Resource.merge_metadata
     (with_status SCRIPT_STATUS_ENABLE now s)) (with_status SCRIPT_STATUS_ENABLE now s))) = Rejected e ->
  (enableHandler dv env sid now w).1 = Resolved 1 /\
  JsMap.get sid (enableHandler dv env sid now w).2.(runBackScript) = Some (with_status SCRIPT_STATUS_ENABLE now s) /\
  (enableHandler dv env sid now w).2.(trace) = w.(trace).
Proof.
  intros Hr Hg Hen Hbg He. destruct (reachable_invariant _ _ _ Hr) as [[_ Hk] _ _ _ Hh].
  pose proof (keyed_get _ _ _ Hk Hg) as Hid.
  destruct (fire_dao_save dv (with_status SCRIPT_STATUS_ENABLE now s) w) as [d Hd].
  unfold enableHandler. rewrite (bind_resolved _ _ _ _ _ (findById_run sid w)), Hg, Hen.
  rewrite (bind_resolved _ _ _ _ _ Hd).
  set (s' := with_status SCRIPT_STATUS_ENABLE now s).
  assert (Ht : trigger env "enable" s' (set_dao d w) =
    (Resolved tt, set_runBackScript (JsMap.set sid s' (set_dao d w).(runBackScript)) (set_dao d w))).
  { rewrite trigger_run. cbn [managerHook set_dao]. rewrite Hh, listeners_enable.
    cbn [run_all run_sm_listener]. unfold bind at 1, fire at 1.
    unfold fire at 2. unfold scriptUpdate. replace (is_enabled s') with true by done.
    rewrite (enable_build_rejected _ _ _ _ He). cbn.
    unfold backEnable, modify. replace (is_background s') with true by done.
    by rewrite Hid. }
  rewrite (bind_resolved _ _ _ _ _ Ht). cbn. rewrite JsMap.get_set_eq. done.
Qed.


Lemma enable_failed_background_cached_witness :
  (enableHandler dv0 env_values_fail 2 10 (initial env_values_fail)).1 = Resolved 1 /\
  JsMap.get 2 (enableHandler dv0 env_values_fail 2 10 (initial env_values_fail)).2.(runBackScript)
    = Some (with_status SCRIPT_STATUS_ENABLE 10 scriptB) /\
  (enableHandler dv0 env_values_fail 2 10 (initial env_values_fail)).2.(trace)
    = (initial env_values_fail).(trace).
Proof.
  apply (enable_failed_background_cached dv0 env_values_fail _ 2 scriptB 10
           (Err_message "values unavailable"));
    [apply reachable_initial|vm_compute; reflexivity..].
Defined.

(** C20: deleting a script leaves the background cache as it was: no
    listener of ["delete"] touches it, so an enabled background script
    stays cached after its record is gone from the store, and a run-status
    report for it cannot remove it any more ([runStatusUpdate] finds no
    record and returns); the popup's list of background scripts
    ([queryPageScript]) is the same as before the delete. *)
Theorem delete_background_stays_cached dv env w sid s v :
  reachable dv env w -> JsMap.get sid w.(dao) = Some s -> meta "version" s = Some v ->
  dv.(delete_result) sid = Resolved tt ->
  (deleteHandler dv env sid w).1 = Resolved 1 /\
  JsMap.get sid (deleteHandler dv env sid w).2.(dao) = None /\
  (deleteHandler dv env sid w).2.(runBackScript) = w.(runBackScript) /\
  (forall rs now,
    (outcome_state (scriptRunStatus sid rs now) (deleteHandler dv env sid w).2).(runBackScript)
    = w.(runBackScript)) /\
  forall u tab, (queryPageScript u tab (deleteHandler dv env sid w).2).2 = (queryPageScript u tab w).2.
Proof.
  intros Hr Hg Hv Hdel. destruct (reachable_invariant _ _ _ Hr) as [[Hs Hk] _ _ _ Hh].
  pose proof (keyed_get _ _ _ Hk Hg) as Hid.
  assert (Hrun : deleteHandler dv env sid w =
    (Resolved 1, (scriptDelete env s (set_dao (JsMap.delete sid w.(dao)) w)).2)).
  { unfold deleteHandler. rewrite (bind_resolved _ _ _ _ _ (findById_run sid w)), Hg, Hv.
    unfold catch. rewrite Hid.
    assert (Hd : dao_delete dv sid w = (Resolved tt, set_dao (JsMap.delete sid w.(dao)) w)).
    { unfold dao_delete, bind, lift. by rewrite Hdel. }
    assert (Ht : trigger env "delete" s (set_dao (JsMap.delete sid w.(dao)) w) =
      (Resolved tt, (scriptDelete env s (set_dao (JsMap.delete sid w.(dao)) w)).2)).
    { rewrite trigger_run. cbn [managerHook set_dao]. by rewrite Hh, listeners_delete. }
    by rewrite (bind_resolved _ _ _ _ _ Hd), (bind_resolved _ _ _ _ _ Ht). }
  assert (Hnone : JsMap.get sid (JsMap.delete sid (dao w)) = None).
  { apply JsMap.get_delete_eq. by apply IntObj.sorted_NoDup. }
  rewrite Hrun. destruct (scriptDelete_frame env s (set_dao (JsMap.delete sid (dao w)) w)) as (Hr1 & Hd1 & Hm1).
  cbn [fst snd]. split_and!; [done|by rewrite Hd1|by rewrite Hr1| |].
  - intros rs now. apply (keeps_missing_scriptRunStatus sid rs now (runBackScript w)).
    split; [by rewrite Hr1|by rewrite Hd1].
  - intros u tab. unfold queryPageScript. cbn [snd]. by rewrite Hr1, Hm1.
Qed.

Lemma delete_background_stays_cached_witness :
  JsMap.get 2 wB1.(runBackScript) = Some (with_status SCRIPT_STATUS_ENABLE 10 scriptB) /\
  (deleteHandler dv0 env0 2 wB1).1 = Resolved 1 /\
  JsMap.get 2 (deleteHandler dv0 env0 2 wB1).2.(dao) = None /\
  (deleteHandler dv0 env0 2 wB1).2.(runBackScript) = wB1.(runBackScript) /\
  (forall rs now,
    (outcome_state (scriptRunStatus 2 rs now) (deleteHandler dv0 env0 2 wB1).2).(runBackScript)
    = wB1.(runBackScript)) /\
  forall u tab, (queryPageScript u tab (deleteHandler dv0 env0 2 wB1).2).2 = (queryPageScript u tab wB1).2.
Proof.
  split; [vm_compute; reflexivity|].
  apply (delete_background_stays_cached dv0 env0 wB1 2 (with_status SCRIPT_STATUS_ENABLE 10 scriptB)
           ["1.0"]); [|vm_compute; reflexivity..].
  exists store0. split; [apply store0_ok|]. eapply rtc_l; [apply (st_enable dv0 env0 2 10 w0)|apply rtc_refl].
Defined.

(** *** Missing scripts *)

(** C21: the handlers' error paths.  An upsert of a script without a
    [@version] rejects with the [TypeError] of reading [version[0]]
    (event.ts, line 60) before anything is saved.  For an id the store
    does not hold, [enableHandler] and [disableHandler] reject with "script
    does not exist" and change nothing, while [deleteHandler] never
    settles: its rejection is returned inside a [then] callback (event.ts,
    lines 140-142). *)
Theorem handlers_reject_bad_requests dv env s sid now w :
  (meta "version" s = None ->
   upsertHandler dv env s w = (Rejected (Err_type "Cannot read properties of undefined (reading '0')"), w)) /\
  (JsMap.get sid w.(dao) = None ->
   enableHandler dv env sid now w = (Rejected script_missing, w) /\
   disableHandler dv env sid now w = (Rejected script_missing, w) /\
   deleteHandler dv env sid w = (Pending, w)).
Proof.
  split.
  - intros Hv. unfold upsertHandler, version_read. by rewrite Hv.
  - intros Hg. unfold enableHandler, disableHandler, deleteHandler.
    rewrite !(bind_resolved _ _ _ _ _ (findById_run sid w)), Hg. done.
Qed.

Lemma handlers_reject_bad_requests_witness :
  meta "version" (with_metadata ∅ scriptA) = None /\ JsMap.get 7 w0.(dao) = None /\
  upsertHandler dv0 env0 (with_metadata ∅ scriptA) w0 =
    (Rejected (Err_type "Cannot read properties of undefined (reading '0')"), w0) /\
  enableHandler dv0 env0 7 0 w0 = (Rejected script_missing, w0) /\
  disableHandler dv0 env0 7 0 w0 = (Rejected script_missing, w0) /\
  deleteHandler dv0 env0 7 w0 = (Pending, w0).
Proof.
  assert (Hv : meta "version" (with_metadata ∅ scriptA) = None) by reflexivity.
  assert (Hg : JsMap.get 7 w0.(dao) = None) by (vm_compute; reflexivity).
  destruct (handlers_reject_bad_requests dv0 env0 (with_metadata ∅ scriptA) 7 0 w0) as [Hu Hm].
  split; [exact Hv|]. split; [exact Hg|]. split; [exact (Hu Hv)|exact (Hm Hg)].
Defined.

(** *** Start-up indexes the disabled page scripts *)

(** In a store as [toArray] hands it over, the records before and after
    a script's own are those of other scripts. *)
Lemma dao_ok_split d1 d2 s :
  dao_ok (d1 ++ (s.(id), s) :: d2) ->
  (forall x, x ∈ JsMap.values d1 -> x.(id) <> s.(id)) /\
  (forall x, x ∈ JsMap.values d2 -> x.(id) <> s.(id)).
Proof.
  intros [Hs Hk]. unfold IntObj.sorted, IntObj.okeys in Hs. rewrite map_app in Hs. simpl in Hs.
  split; intros x Hx; unfold JsMap.values in Hx; apply list_elem_of_fmap in Hx as ([k' x'] & -> & Hin);
    simpl; rewrite (Hk k' x') by set_solver.
  - assert (k' < id s); [|lia].
    apply (StronglySorted_app_1_elem_of lt _ _ k' (id s) Hs); [|by left].
    apply list_elem_of_fmap. by exists (k', x').
  - apply StronglySorted_app_1_r, StronglySorted_cons in Hs as [Hf _].
    rewrite Forall_forall in Hf. assert (id s < k'); [|lia].
    apply Hf, list_elem_of_fmap. by exists (k', x').
Qed.

Lemma start_runs_items env d :
  exists w1, outcome_state (Runtime.start env) (runtime_new env d) =
             outcome_state (run_all (startup_item env) (JsMap.values d)) w1.
Proof. eexists. reflexivity. Qed.

(** C22. [start()] indexes every disabled page script of the store
    (runtime.ts 131-144): a disabled page script goes through [disable],
    whose [unloadPageScript] re-adds its rules (line 542), and no later
    start-up item of another script removes them.  So whenever one of its
    match rules covers a URL and none of its exclusions does, [matchUrl]
    answers it, with its disabled status, before it was ever enabled.  The
    spec says disabled scripts are not in the matcher. *)
Theorem start_indexes_disabled_page env d s u p :
  dao_ok d -> (s.(id), s) ∈ d -> is_enabled s = false -> is_background s = false ->
  p ∈ omap UrlMatch.parse_rule (default [] (meta "match" s)) -> UrlMatch.covers p u = true ->
  existsb (fun q => UrlMatch.covers q u) (omap UrlMatch.parse_rule (default [] (meta "exclude" s))) = false ->
  exists x, x ∈ matchUrl u None (outcome_state (Runtime.start env) (runtime_new env d)) /\
            res_id x = s.(id) /\ is_enabled x.(res_script) = false.
Proof.
  intros Hd Hin Hen Hbg Hp Hc Hx.
  destruct (list_elem_of_split _ _ Hin) as (d1 & d2 & ->).
  destruct (dao_ok_split d1 d2 s Hd) as [H1 H2].
  set (r := of_script s). set (v := page_value env r).
  set (E := (map (fun p => (p, v)) (omap UrlMatch.parse_rule (rules_key "match" r)),
             map (fun q => (q, v)) (omap UrlMatch.parse_rule (rules_key "exclude" r)),
             map (fun g => (g, v)) (map String.list_ascii_of_string (rules_key "include" r)),
             map (fun h => (h, v)) (map String.list_ascii_of_string (rules_key "exclude" r)))).
  destruct (start_runs_items env (d1 ++ (id s, s) :: d2)) as [w1 ->].
  assert (Hv : JsMap.values (d1 ++ (id s, s) :: d2) = JsMap.values d1 ++ s :: JsMap.values d2)
    by (unfold JsMap.values; by rewrite map_app).
  rewrite Hv, run_all_app_state, run_all_cons_state.
  set (w2 := outcome_state (run_all (startup_item env) (JsMap.values d1)) w1).
  assert (Hs : outcome_state (startup_item env s) w2 = outcome_state (loadPageScript env r) w2).
  { unfold startup_item, disable, unloadPageScript, fire, outcome_state. rewrite Hen, Hbg. reflexivity. }
  assert (HE : entries (id s) (outcome_state (startup_item env s) w2) = E).
  { rewrite Hs. unfold entries. destruct (loadPageScript_rules env r w2 (id s)) as (E1 & E2 & E3 & E4).
    rewrite E1, E2, E3, E4. by rewrite !decide_True. }
  pose proof (keeps_run_all_in (fun w => entries (id s) w = E) (startup_item env) (JsMap.values d2)
                (fun x Hx => keeps_entries_startup_item env x (id s) E (H2 x Hx)) _ HE) as Hfin.
  unfold entries in Hfin. injection Hfin as F1 F2 F3 F4.
  exists v. split_and!; [|done|exact Hen].
  by apply (matchUrl_of_entries u _ v _ _ _ p F1 F2 F3).
Qed.

Lemma start_indexes_disabled_page_witness :
  exists x, x ∈ matchUrl "https://a.test/x" None w0 /\ res_id x = 1 /\ is_enabled x.(res_script) = false.
Proof.
  apply (start_indexes_disabled_page env0 store0 scriptA "https://a.test/x" pattern_a);
    [apply store0_ok|by left|reflexivity|reflexivity|vm_compute; left|vm_compute; reflexivity..].
Defined.

(** *** The scenarios of the spec, section 8 *)

(** Scenario A.  The page script A (match [*://a.test/*]) is in the
    match index from start-up on, although it is disabled: [start()]
    calls [disable], which re-adds the rules of a page script.  After
    [enable] [matchUrl] returns [A]; after [disable] it still returns [A]
    (the spec expects [[]]).  Only the page-load filter keeps the disabled
    script from being injected. *)
Example scenario_page_script_A :
  matched_ids "https://a.test/x" w0 = [1] /\ injected_ids "https://a.test/x" w0 = Some [] /\
  matched_ids "https://a.test/x" wA1 = [1] /\ injected_ids "https://a.test/x" wA1 = Some [1] /\
  matched_ids "https://a.test/x" wA2 = [1] /\ injected_ids "https://a.test/x" wA2 = Some [].
Proof. vm_compute. split_and!; reflexivity. Qed.

(** Scenario B.  Enabling the background script B sends one
    ["enable"] message, disabling it one ["disable"] message with B's id;
    B is never in the match index.  Deleting B after enabling it removes
    its record and leaves it in the background cache. *)
Example scenario_background_script_B :
  sent wB1.(trace) = [("enable", 2)] /\
  sent wB2.(trace) = [("enable", 2); ("disable", 2)] /\
  matched_ids "https://a.test/x" wB1 = [1] /\ matched_ids "https://a.test/x" wB2 = [1] /\
  map fst wB2.(runBackScript) = [] /\
  outcome_of (deleteHandler dv0 env0 2) wB1 = Resolved 1 /\
  map fst wB3.(dao) = [1] /\ map fst wB3.(runBackScript) = [2].
Proof. vm_compute. split_and!; reflexivity. Qed.

(** *** Upsert, and requests that change nothing *)

(** C33. An upsert of a script with a [@version], in a reachable state,
    whose save the store acknowledges, resolves with the script's id and
    leaves the script in the store under its id; the ["upsert"] hook runs
    [scriptUpdate], which does not touch the store. *)
Theorem upsertHandler_saves dv env w s v :
  reachable dv env w -> meta "version" s = Some v -> dv.(save_result) s = Resolved tt ->
  (upsertHandler dv env s w).1 = Resolved s.(id) /\
  JsMap.get s.(id) (upsertHandler dv env s w).2.(dao) = Some s.
Proof.
  intros Hr Hv Hs. destruct (reachable_invariant _ _ _ Hr) as [_ _ _ _ Hh].
  set (w1 := set_dao (IntObj.oset s.(id) s w.(dao)) w).
  assert (Ht : trigger env "upsert" s w1 = (Resolved tt, (scriptUpdate env s w1).2)).
  { rewrite trigger_run. cbn [managerHook w1 set_dao]. by rewrite Hh, listeners_upsert. }
  assert (Hrun : upsertHandler dv env s w = (Resolved s.(id), (scriptUpdate env s w1).2)).
  { unfold upsertHandler, version_read. rewrite Hv, bind_ret_l. unfold catch.
    by rewrite (bind_resolved _ _ _ _ _ (dao_save_run dv s w Hs)), (bind_resolved _ _ _ _ _ Ht). }
  rewrite Hrun. split; [done|]. cbn [snd]. rewrite scriptUpdate_dao. apply IntObj.get_oset_eq.
Qed.

Lemma upsertHandler_saves_witness :
  (upsertHandler dv0 env0 scriptA w0).1 = Resolved 1 /\
  JsMap.get 1 (upsertHandler dv0 env0 scriptA w0).2.(dao) = Some scriptA.
Proof.
  apply (upsertHandler_saves dv0 env0 w0 scriptA ["1.0"]);
    [apply reachable_initial|vm_compute; reflexivity..].
Defined.

(** Enabling an enabled script, or disabling a disabled one, resolves
    with 1 and changes nothing: no save, no hook (event.ts, lines 94 and
    120). *)
Theorem handlers_noop_on_same_status dv env sid now w s :
  JsMap.get sid w.(dao) = Some s ->
  (is_enabled s = true -> enableHandler dv env sid now w = (Resolved 1, w)) /\
  (is_enabled s = false -> disableHandler dv env sid now w = (Resolved 1, w)).
Proof.
  intros Hg. unfold enableHandler, disableHandler.
  rewrite !(bind_resolved _ _ _ _ _ (findById_run sid w)), Hg.
  split; intros He; by rewrite He.
Qed.

Lemma handlers_noop_on_same_status_witness :
  (is_enabled scriptA = true -> enableHandler dv0 env0 1 5 w0 = (Resolved 1, w0)) /\
  (is_enabled scriptA = false -> disableHandler dv0 env0 1 5 w0 = (Resolved 1, w0)).
Proof. apply handlers_noop_on_same_status. vm_compute. reflexivity. Defined.

End Events.
