(* ===== verification/Listener.v ===== *)
(** * The event registry of [ScriptEventListener] and its manager

    src/app/service/script/event.ts, lines 13-47: the handlers of the
    class are registered by a decorator.  [ListenEventDecorator(event)]
    (lines 23-27) writes the decorated method into the module's [events]
    object (line 21) under the event's name when the class is defined;
    the constructor (lines 39-47) then hands every entry of [events],
    bound to the new instance, to [ScriptManager.listenEvent].

    The manager is a collaborator outside the sources: what the listener
    relies on is the [EventManager] interface, a class of two operations
    ([listenEvent] and the [handlers] a request for an event reaches, in
    order) with one law, [EventManagerLaws].  The spec (section 9) asks for
    an explicit mapping from event name to a list of handler functions;
    the [Hook] lists are such a mapping and the instance [hook_manager]
    discharges the law.

    The handlers of lines 50-167 are the ones of [Events]; [fetchInfoHandler]
    (lines 77-82) reads the global cache and [checkUpdateHandler]
    (lines 164-167) delegates to [ScriptManager.checkUpdate]: both answers
    come from a [ListenerEnv]. *)

From S2P Require Import Prelude JsMap Hook Script Runtime Events.

Module Listener.
Import Runtime Events.

(** Lines 13-19: [type ScriptEvent]. *)
Inductive ScriptEvent := ev_upsert | ev_fetch | ev_enable | ev_disable | ev_delete | ev_checkUpdate.

#[export] Instance ScriptEvent_eq_dec : EqDecision ScriptEvent.
Proof. solve_decision. Defined.

Definition event_name (e : ScriptEvent) : string :=
  match e with
  | ev_upsert => "upsert" | ev_fetch => "fetch" | ev_enable => "enable"
  | ev_disable => "disable" | ev_delete => "delete" | ev_checkUpdate => "checkUpdate"
  end.

(** The decorated methods of the class, by property name. *)
Inductive method :=
  | upsertHandler_m | fetchInfoHandler_m | enableHandler_m
  | disableHandler_m | deleteHandler_m | checkUpdateHandler_m.

#[export] Instance method_eq_dec : EqDecision method.
Proof. solve_decision. Defined.

(** Lines 23-27: [events[event] = target[propertyName]], a property
    write on a plain object with string keys (insertion order, a second
    write in place). *)
Definition ListenEventDecorator (ev : ScriptEvent) (propertyName : method)
    (events : list (string * method)) : list (string * method) :=
  JsMap.set (event_name ev) propertyName events.

(** The decorators in the order the class body declares them (lines 50,
    77, 84, 110, 136, 164); they run once, when the class is defined. *)
Definition class_decorators : list (ScriptEvent * method) :=
  [(ev_upsert, upsertHandler_m); (ev_fetch, fetchInfoHandler_m);
   (ev_enable, enableHandler_m); (ev_disable, disableHandler_m);
   (ev_delete, deleteHandler_m); (ev_checkUpdate, checkUpdateHandler_m)].

(** Line 21 and the decorators: the module's [events] object. *)
Definition events : list (string * method) :=
  foldl (fun evs d => ListenEventDecorator d.1 d.2 evs) [] class_decorators.

(** ** The manager's interface *)

(** [listenEvent(action, handler)] and the handlers a request for
    [action] reaches, in the order they are called. *)
Class EventManager (Mgr H : Type) := {
  listenEvent : string -> H -> Mgr -> Mgr;
  handlers : string -> Mgr -> list H;
}.

Class EventManagerLaws (Mgr H : Type) `{!EventManager Mgr H} : Prop := {
  handlers_listenEvent ev ev' h m :
    handlers ev' (listenEvent ev h m) = handlers ev' m ++ (if decide (ev = ev') then [h] else []);
}.

(** The mapping of the spec: event name to the list of its handlers. *)
#[export] Instance hook_manager (H : Type) : EventManager (list (string * H)) H := {
  listenEvent ev h m := Hook.addListener ev h m;
  handlers ev m := Hook.listeners ev m;
}.

#[export] Instance hook_manager_laws (H : Type) : EventManagerLaws (list (string * H)) H.
Proof. constructor. intros ev ev' h m. apply Hook.listeners_add. Qed.

(** A handler as [events[event].bind(this)]: the instance and the method. *)
Abbreviation bound := (nat * method)%type.

(** Lines 39-47: the constructor, on a manager [m], for the instance
    [this]; [events[event]] is read for each key of [Object.keys(events)]. *)
Definition new_ScriptEventListener {Mgr} `{!EventManager Mgr bound} (this : nat) (m : Mgr) : Mgr :=
  foldl (fun m ev => match JsMap.get ev events with
                     | Some p => listenEvent ev (this, p) m
                     | None => m
                     end) m (JsMap.keys events).

(** ** The handlers *)

(** The collaborators of the two handlers that are not store writes. *)
Record ListenerEnv (Info : Type) := mkListenerEnv {
  scriptInfo_key : string -> string;   (** [CacheKey.scriptInfo] *)
  cache_get : string -> option Info;   (** [Cache.getInstance().get] *)
  check_update : nat -> outcome bool;  (** [ScriptManager.checkUpdate(id, "user")] *)
}.
Arguments scriptInfo_key {Info}. Arguments cache_get {Info}. Arguments check_update {Info}.

(** The data a request carries ([data: any] in the code). *)
Inductive data (Info : Type) := D_script (s : Script) | D_id (n : nat) | D_uuid (u : string).
Arguments D_script {Info}. Arguments D_id {Info}. Arguments D_uuid {Info}.

(** The values the handlers resolve with. *)
Inductive reply (Info : Type) :=
  | R_id (id : nat)                  (** [{ id: script.id }] *)
  | R_num (n : nat)                  (** [1] *)
  | R_info (i : option Info)         (** the cached script info, [undefined] when absent *)
  | R_bool (b : bool).               (** the answer of [checkUpdate] *)
Arguments R_id {Info}. Arguments R_num {Info}. Arguments R_info {Info}. Arguments R_bool {Info}.

Section Handlers.
Context {Info : Type} (lenv : ListenerEnv Info) (dv : DaoEnv) (env : Env).

(** Lines 77-82. *)
Definition fetchInfoHandler (uuid : string) : M World (reply Info) :=
  ret (R_info (lenv.(cache_get) (lenv.(scriptInfo_key) uuid))).

(** Lines 164-167. *)
Definition checkUpdateHandler (sid : nat) : M World (reply Info) :=
  await b <- lift (lenv.(check_update) sid) ;; ret (R_bool b).

(** Calling a bound method on a request's data at time [now]; [None] when
    the data is not of the method's parameter type, a call the model does
    not cover. *)
Definition invoke (h : bound) (d : data Info) (now : nat) : option (M World (reply Info)) :=
  match h.2, d with
  | upsertHandler_m, D_script s => Some (await i <- upsertHandler dv env s ;; ret (R_id i))
  | fetchInfoHandler_m, D_uuid u => Some (fetchInfoHandler u)
  | enableHandler_m, D_id sid => Some (await n <- enableHandler dv env sid now ;; ret (R_num n))
  | disableHandler_m, D_id sid => Some (await n <- disableHandler dv env sid now ;; ret (R_num n))
  | deleteHandler_m, D_id sid => Some (await n <- deleteHandler dv env sid ;; ret (R_num n))
  | checkUpdateHandler_m, D_id sid => Some (checkUpdateHandler sid)
  | _, _ => None
  end.
End Handlers.

(** The data each event's request carries. *)
Definition event_fits {Info} (e : ScriptEvent) (d : data Info) : bool :=
  match e, d with
  | ev_upsert, D_script _ | ev_fetch, D_uuid _ => true
  | (ev_enable | ev_disable | ev_delete | ev_checkUpdate), D_id _ => true
  | _, _ => false
  end.

(** A cache that holds nothing and a [checkUpdate] that finds no update. *)
Definition lenv0 : ListenerEnv nat := mkListenerEnv nat (fun u => u) (fun _ => None) (fun _ => Resolved false).

(** ** Properties *)

(** *** Registration *)

Lemma events_eq :
  events = [("upsert", upsertHandler_m); ("fetch", fetchInfoHandler_m);
            ("enable", enableHandler_m); ("disable", disableHandler_m);
            ("delete", deleteHandler_m); ("checkUpdate", checkUpdateHandler_m)].
Proof. reflexivity. Qed.

Lemma events_wf : JsMap.wf events.
Proof. rewrite events_eq. unfold JsMap.wf, JsMap.keys. simpl. repeat constructor; set_solver. Qed.

Section Registration.
Context {Mgr : Type} `{!EventManager Mgr bound, !EventManagerLaws Mgr bound}.

(** The [forEach] of lines 44-46 over a list of distinct keys of a map
    [evs]: the name [ev] gains the handler [evs] holds for it when [ev] is
    among the keys visited. *)
Lemma handlers_forEach this evs ev l m :
  NoDup l ->
  handlers ev (foldl (fun m k => match JsMap.get k evs with
                                 | Some p => listenEvent k (this, p) m
                                 | None => m
                                 end) m l) =
  handlers ev m ++ (if decide (ev ∈ l) then from_option (fun p => [(this, p)]) [] (JsMap.get ev evs) else []).
Proof.
  revert m. induction l as [|k l IH]; intros m Hnd; cbn [foldl].
  { rewrite decide_False by set_solver. by rewrite app_nil_r. }
  apply NoDup_cons in Hnd as [Hk Hnd]. rewrite IH by done.
  assert (Hm : handlers ev (match JsMap.get k evs with Some p => listenEvent k (this, p) m | None => m end) =
               handlers ev m ++ (if decide (k = ev) then from_option (fun p => [(this, p)]) [] (JsMap.get k evs) else [])).
  { destruct (JsMap.get k evs); rewrite ?handlers_listenEvent; destruct (decide (k = ev)); simpl; by rewrite ?app_nil_r. }
  rewrite Hm, <- app_assoc. f_equal. destruct (decide (k = ev)) as [->|Hne].
  - rewrite decide_False, decide_True by set_solver. by rewrite app_nil_r.
  - simpl.
    destruct (decide (ev ∈ l)); [rewrite decide_True by set_solver|rewrite decide_False by set_solver]; done.
Qed.

Lemma new_ScriptEventListener_handlers this m ev :
  handlers ev (new_ScriptEventListener this m) =
  handlers ev m ++ from_option (fun p => [(this, p)]) [] (JsMap.get ev events).
Proof.
  unfold new_ScriptEventListener. rewrite handlers_forEach by apply events_wf.
  case_decide; [done|]. by rewrite (proj2 (JsMap.get_None_not_in ev events)).
Qed.
End Registration.

(** *** Requests *)

(** A registered handler called with data of its event's type is a step
    of the system, or leaves the state as it is. *)
Lemma invoke_event_step {Info} (lenv : ListenerEnv Info) dv env this e (d : data Info) p now w :
  JsMap.get (event_name e) events = Some p -> event_fits e d = true -> reachable dv env w ->
  exists c, invoke lenv dv env (this, p) d now = Some c /\ reachable dv env (outcome_state c w).
Proof.
  intros Hp Hd Hw. rewrite events_eq in Hp.
  destruct e; vm_compute in Hp; injection Hp as <-; destruct d; try discriminate Hd;
    eexists; (split; [reflexivity|]); cbn [invoke snd]; unfold checkUpdateHandler, fetchInfoHandler;
    rewrite ?outcome_state_bind_ret; try done; (eapply reachable_step; [exact Hw|]);
    first [apply st_upsert|apply st_enable|apply st_disable|apply st_delete].
Qed.

(** ** The listener's registrations *)

(** C29. Constructing a [ScriptEventListener] on any manager that obeys
    the [EventManager] law adds, for every name, exactly the method the
    class's decorators stored under it in [events], bound to the new
    instance, after the handlers already there; a name no decorator used
    gains nothing. *)
Theorem listener_registers_events `{!EventManager Mgr bound, !EventManagerLaws Mgr bound} this m ev :
  handlers ev (new_ScriptEventListener this m) =
  handlers ev m ++ from_option (fun p => [(this, p)]) [] (JsMap.get ev events).
Proof. apply new_ScriptEventListener_handlers. Qed.

Lemma listener_registers_events_witness :
  handlers (Mgr := list (string * bound)) "enable" (new_ScriptEventListener 7 []) =
  handlers (Mgr := list (string * bound)) "enable" [] ++
  from_option (fun p => [(7, p)]) [] (JsMap.get "enable" events).
Proof. apply (listener_registers_events (Mgr := list (string * bound))). Defined.

(** The listener composes with the system: on a manager with no
    handler yet for an event, every handler the constructor registers for
    it, called with data of the event's type on a reachable state, runs a
    handler of event.ts and leaves a reachable state (an [upsert],
    [enable], [disable] or [delete] step of [Events.step]; [fetch] and
    [checkUpdate] change nothing). *)
Lemma listener_requests_are_steps `{!EventManager Mgr bound, !EventManagerLaws Mgr bound}
    {Info} (lenv : ListenerEnv Info) dv env this m e (d : data Info) h now w :
  handlers (event_name e) m = [] ->
  h ∈ handlers (event_name e) (new_ScriptEventListener this m) ->
  event_fits e d = true -> reachable dv env w ->
  exists c, invoke lenv dv env h d now = Some c /\ reachable dv env (outcome_state c w).
Proof.
  intros Hm Hh Hd Hw. rewrite new_ScriptEventListener_handlers, Hm in Hh.
  destruct (JsMap.get (event_name e) events) as [p|] eqn:Hp; cbn [from_option app] in Hh;
    [|by apply elem_of_nil in Hh].
  apply list_elem_of_singleton in Hh as ->. by eapply invoke_event_step.
Qed.

End Listener.
