(* ===== verification/Interleave.v ===== *)
(** * The handlers interleaved at the callbacks the event loop runs later

    [Events.step] runs a handler to completion before the next request is
    served.  In the source, two callbacks of the runtime run later, and
    other requests can be served before them.
    - [ScriptManager.hook.trigger] calls the listeners without awaiting
      them.  [Runtime.enable] (runtime.ts 485-492) suspends at its first
      statement, [await this.buildScriptRunResource(script)], which itself
      awaits the value store and the resource store (runtime.ts 606-608).
      The page index and the sandbox only see the script when that await
      resumes.
    - [pageLoad] (runtime.ts 326-419) calls [getBadgeText], and writes the
      new count in its callback (lines 404-413).
    - The ["runStatus"] cache listener (runtime.ts 249-261) awaits
      [findById] and then writes the record it read into the background
      cache.

    This file splits the handlers at those points.
    - [cont] is a pending callback: a suspended [scriptUpdate], a
      [getBadgeText] callback with the count to add and the text read, or
      the run-status listener with the record it read.
    - [sm_listener_sync] is the part of a hook listener that runs before
      its first await.  For [scriptUpdate] on an enabled script this part
      changes nothing, and the call is returned as a callback.  Every other
      listener changes the state before its first await.
    - [enableHandler_sync], [upsertHandler_sync] (event.ts 84-108, 50-75),
      [pageLoad_sync] and [scriptRunStatus_sync] (runtime.ts 427-435) run
      up to the settling of their promise.  Along
      with the promise's value they return their pending callbacks.
    - [cstep] is the interleaved system.  Its configuration is a [World]
      and the list of pending callbacks.  A step is a split handler, the
      run of any pending callback ([resume]), or any atomic step of
      [Events.step].  All the steps are schedules of the real event
      loop: an atomic handler is the schedule in which its callbacks run
      before the next request.

    [handlers_split_refine] shows that a split handler followed at once by
    its callbacks is the atomic handler.  [enable_disable_race] and
    [badge_lost_update] show schedules that the atomic model cannot
    produce: a script the store holds as disabled runs, and a badge count
    is lost.  [creachable_inv] extends the invariant of [Events] to the
    interleaved system, with [cont_ok] for the records the pending
    callbacks hold; [yields] states that a computation keeps [inv] and
    resolves with a value satisfying a predicate. *)

From S2P Require Import Prelude JsMap Glob UrlMatch Hook Script Resource Menu JsNumber Runtime Events.

Module Interleave.
Import Runtime Events.

(** ** The synchronous part of a listener *)

(** The callbacks the event loop holds for the runtime: an [enable]
    suspended at its build (runtime.ts 487), and the callback of
    [getBadgeText] with the count to add and the text the browser read
    (lines 405-413). *)
Inductive cont :=
  | K_scriptUpdate (script : Script)
  | K_badgeText (tab : nat) (n : nat) (res : string)
  | K_runStatus (scriptId : nat) (o : option Script).

(** The promise's value of a split handler, and its suspended calls. *)
Definition outcome_fst {A B} (o : outcome (A * B)) : outcome A :=
  match o with
  | Resolved (a, _) => Resolved a
  | Rejected e => Rejected e
  | Pending => Pending
  end.

Definition conts {A} (o : outcome (A * list cont)) : list cont :=
  match o with Resolved (_, ks) => ks | _ => [] end.

(** runtime.ts 450-454 and 485-487: [scriptUpdate] on an enabled script
    enters [enable], which suspends before any change of the state.  On a
    disabled script it runs [disable], whose state changes (the page index,
    the ["disable"] message) happen before its first await.  The other
    listeners of the hook are synchronous. *)
Definition sm_listener_sync (env : Env) (script : Script) (l : sm_listener)
    : M World (list cont) :=
  match l with
  | SM_scriptUpdate =>
      if is_enabled script then ret [K_scriptUpdate script]
      else await_ run_sm_listener env script l ;; ret []
  | _ => await_ run_sm_listener env script l ;; ret []
  end.

(** The listeners in registration order, collecting what they leave
    suspended. *)
Fixpoint collect {A B} (f : A -> M World (list B)) (l : list A) : M World (list B) :=
  match l with
  | [] => ret []
  | x :: l' => await ks <- f x ;; await ks' <- collect f l' ;; ret (ks ++ ks')
  end.

(** [ScriptManager.hook.trigger(event, script)] up to its return. *)
Definition trigger_sync (env : Env) (ev : string) (script : Script) : M World (list cont) :=
  await w <- get ;;
  collect (sm_listener_sync env script) (Hook.listeners ev w.(managerHook)).

(** ** The handlers up to the settling of their promise *)

(** event.ts 84-108. *)
Definition enableHandler_sync (dv : DaoEnv) (env : Env) (sid : nat) (now : nat)
    : M World (nat * list cont) :=
  await o <- findById sid ;;
  match o with
  | None => throw script_missing
  | Some script =>
      if is_enabled script then ret (1, [])
      else
        let script' := with_status SCRIPT_STATUS_ENABLE now script in
        await_ fire (dao_save dv script') ;;
        await ks <- trigger_sync env "enable" script' ;;
        ret (1, ks)
  end.

(** event.ts 50-75. *)
Definition upsertHandler_sync (dv : DaoEnv) (env : Env) (script : Script)
    : M World (nat * list cont) :=
  await_ version_read script ;;
  catch (await_ dao_save dv script ;;
         await ks <- trigger_sync env "upsert" script ;;
         ret (script.(id), ks))
        (fun e => await_ log_error "script upsert failed" ;; throw e).

(** runtime.ts 326-419, up to the call of [getBadgeText]; its callback is
    returned.  The code calls [getBadgeText] before it sets the badge
    colour; the text read is the same in either order. *)
Definition pageLoad_sync (env : Env) (snd : option MessageSender)
    : M World ((string * list ScriptRunResouce) * list cont) :=
  match snd with
  | None => pending
  | Some sd =>
      match truthy_url sd.(url), truthy_tab sd.(tabId) with
      | Some u, Some tab =>
          await w <- get ;;
          let filter := matchUrl u (Some (pageLoad_filter sd)) w in
          await_ emit (E_executeScript tab sd.(frameId) (inject_wrapper w.(injectedSource))
                         document_start) ;;
          match filter with
          | [] => ret ((w.(scriptFlag), []), [])
          | _ :: _ =>
              await_ run_all (fun script =>
                        emit (E_executeScript tab sd.(frameId)
                                (inject_wrapper script.(res_script).(code)) (run_at_of script)))
                      filter ;;
              await_ emit (E_setBadgeBackgroundColor tab badge_color) ;;
              await res <- getBadgeText tab ;;
              ret ((w.(scriptFlag), filter), [K_badgeText tab (length filter) res])
          end
      | _, _ => pending
      end
  end.

(** runtime.ts 249-250 and 439-441: the cache listener of [Runtime.hook]
    reads the store and suspends at that await; a watcher's listener
    sends on its channel at once. *)
Definition rs_listener_sync (sid : nat) (rs : run_status) (l : rs_listener) : M World (list cont) :=
  match l with
  | RS_backScript => await o <- findById sid ;; ret [K_runStatus sid o]
  | RS_watch _ => await_ run_rs_listener sid rs l ;; ret []
  end.

(** runtime.ts 429-435: the ["scriptRunStatus"] handler up to its return. *)
Definition scriptRunStatus_sync (sid : nat) (rs : run_status) (now : nat) : M World (unit * list cont) :=
  await_ modify (fun w => set_dao (dao_update_runStatus sid rs now w.(dao)) w) ;;
  await w <- get ;;
  await ks <- collect (rs_listener_sync sid rs) (Hook.listeners "runStatus" w.(runtimeHook)) ;;
  ret (tt, ks).

(** A callback run by the event loop.  For a suspended [scriptUpdate]:
    the build, then the page index or the ["enable"] message; nobody
    awaits its promise. *)
Definition resume (env : Env) (k : cont) : M World unit :=
  match k with
  | K_scriptUpdate script => fire (scriptUpdate env script)
  | K_badgeText tab n res => badge_callback tab n res
  | K_runStatus sid o => runStatus_apply sid o
  end.

Definition resume_all (env : Env) (ks : list cont) (w : World) : World :=
  fold_left (fun w s => outcome_state (resume env s) w) ks w.

(** [h] is [c] split at its callbacks, from the state [w]: the same
    outcome, and running the callbacks at once leaves [c]'s state. *)
Definition splits_at (env : Env) {A} (h : M World (A * list cont)) (c : M World A) (w : World) : Prop :=
  outcome_fst (h w).1 = (c w).1 /\ resume_all env (conts (h w).1) (h w).2 = (c w).2.

Definition splits (env : Env) {A} (h : M World (A * list cont)) (c : M World A) : Prop :=
  forall w, splits_at env h c w.

(** ** The interleaved system *)

Record Conf := mkConf {
  world : World;
  suspended : list cont;
}.

(** A split handler's step: its synchronous part, whose suspended calls
    join the configuration's. *)
Definition run_sync {A} (h : M World (A * list cont)) (c : Conf) : Conf :=
  let '(o, w) := h c.(world) in mkConf w (c.(suspended) ++ conts o).

Inductive cstep (dv : DaoEnv) (env : Env) : Conf -> Conf -> Prop :=
  | cs_enable sid now c : cstep dv env c (run_sync (enableHandler_sync dv env sid now) c)
  | cs_upsert script c : cstep dv env c (run_sync (upsertHandler_sync dv env script) c)
  | cs_page_load snd c : cstep dv env c (run_sync (pageLoad_sync env snd) c)
  | cs_run_status sid rs now c : cstep dv env c (run_sync (scriptRunStatus_sync sid rs now) c)
  | cs_resume i s c :
      c.(suspended) !! i = Some s ->
      cstep dv env c (mkConf (outcome_state (resume env s) c.(world)) (delete i c.(suspended)))
  | cs_atomic w' c : step dv env c.(world) w' -> cstep dv env c (mkConf w' c.(suspended)).

(** The configurations the interleaved system reaches from a started
    runtime with nothing suspended. *)
Definition creachable (dv : DaoEnv) (env : Env) (c : Conf) : Prop :=
  exists d, dao_ok d /\
    rtc (cstep dv env) (mkConf (outcome_state (Runtime.start env) (runtime_new env d)) []) c.

(** A page script and a background script of [store0], enabled at time 10. *)
Definition scriptA_enabled : Script := with_status SCRIPT_STATUS_ENABLE 10 scriptA.
Definition scriptB_enabled : Script := with_status SCRIPT_STATUS_ENABLE 10 scriptB.

(** An iframe (frame 1) of the page of tab 3 that [Runtime.sender_a]
    loads in the top frame. *)
Definition sender_a1 : MessageSender := mkSender (Some 3) (Some 1) (Some "https://a.test/x") "".

(** ** Properties *)

(** *** Running the split handlers *)

Lemma is_enabled_with_enable now s : is_enabled (with_status SCRIPT_STATUS_ENABLE now s) = true.
Proof. reflexivity. Qed.

Lemma run_sync_world {A} (h : M World (A * list cont)) c :
  (run_sync h c).(world) = outcome_state h c.(world).
Proof. unfold run_sync, outcome_state. by destruct (h _). Qed.

Lemma trigger_sync_enable env s w :
  w.(managerHook) = manager_hooks -> is_enabled s = true ->
  trigger_sync env "enable" s w = (Resolved [K_scriptUpdate s], outcome_state (backEnable s) w).
Proof.
  intros Hh He. unfold trigger_sync, bind at 1, get. rewrite Hh, listeners_enable.
  cbn [collect sm_listener_sync run_sm_listener]. rewrite He. done.
Qed.

Lemma trigger_enable env s w :
  w.(managerHook) = manager_hooks ->
  trigger env "enable" s w = (Resolved tt, outcome_state (await_ fire (scriptUpdate env s) ;; backEnable s) w).
Proof. intros Hh. rewrite trigger_run, Hh, listeners_enable. done. Qed.

Lemma trigger_sync_upsert env s w :
  w.(managerHook) = manager_hooks ->
  trigger_sync env "upsert" s w =
    if is_enabled s then (Resolved [K_scriptUpdate s], w) else (Resolved [], outcome_state (fire (scriptUpdate env s)) w).
Proof.
  intros Hh. unfold trigger_sync, bind at 1, get. rewrite Hh, listeners_upsert.
  cbn [collect sm_listener_sync run_sm_listener]. by destruct (is_enabled s).
Qed.

Lemma trigger_upsert env s w :
  w.(managerHook) = manager_hooks ->
  trigger env "upsert" s w = (Resolved tt, outcome_state (fire (scriptUpdate env s)) w).
Proof. intros Hh. rewrite trigger_run, Hh, listeners_upsert. done. Qed.

Lemma dao_save_hooks dv script w w' o :
  dao_save dv script w = (o, w') -> w'.(managerHook) = w.(managerHook).
Proof. unfold dao_save, bind, lift, modify. destruct (save_result dv script); by intros; simplify_eq. Qed.

Lemma splits_ret env {A} (a : A) : splits env (ret (a, [])) (ret a).
Proof. by intros w. Qed.

Lemma splits_pending env {A} : splits env (A := A) pending pending.
Proof. by intros w. Qed.

Lemma splits_bind env {A B} (c : M World A) (h : A -> M World (B * list cont)) (k : A -> M World B) :
  (forall a, splits env (h a) (k a)) -> splits env (bind c h) (bind c k).
Proof. intros H w. unfold splits_at, bind. destruct (c w) as [[a|e|] w']; [apply H|done|done]. Qed.

Lemma splits_badge env {A} tab n (x : A) :
  splits env (await res <- getBadgeText tab ;; ret (x, [K_badgeText tab n res]))
             (await_ badge_update tab n ;; ret x).
Proof. by intros w. Qed.

(** The split [pageLoad] then its badge callback is the atomic one. *)
Lemma pageLoad_splits env snd : splits env (pageLoad_sync env snd) (pageLoad env snd).
Proof.
  unfold pageLoad_sync, pageLoad. destruct snd as [sd|]; [|apply splits_pending].
  destruct (truthy_url sd.(url)), (truthy_tab sd.(tabId)); try apply splits_pending.
  apply splits_bind; intros w. apply splits_bind; intros _.
  destruct (matchUrl _ _ w); [apply splits_ret|].
  do 2 (apply splits_bind; intros _). apply splits_badge.
Qed.

(** *** The page load split at [getBadgeText] *)

Lemma matchUrl_set_trace u f t w : matchUrl u f (set_trace t w) = matchUrl u f w.
Proof. by destruct w. Qed.

Lemma pageLoad_sync_run env sd w u tab :
  truthy_url sd.(url) = Some u -> truthy_tab sd.(tabId) = Some tab ->
  matchUrl u (Some (pageLoad_filter sd)) w <> [] ->
  exists t, pageLoad_sync env (Some sd) w =
    (Resolved ((w.(scriptFlag), matchUrl u (Some (pageLoad_filter sd)) w),
               [K_badgeText tab (length (matchUrl u (Some (pageLoad_filter sd)) w)) (badge_text tab w)]),
     set_trace t w).
Proof.
  intros Hu Ht Hne. unfold pageLoad_sync. rewrite Hu, Ht.
  unfold bind at 1, get. cbv beta iota. unfold bind at 1. unfold emit at 1, modify. cbv beta iota.
  destruct (matchUrl u (Some (pageLoad_filter sd)) w) as [|x l] eqn:Hf; [done|].
  unfold bind at 1. rewrite run_all_emit. unfold bind, emit, modify, getBadgeText, ret. simpl.
  eexists. rewrite !badge_text_set_trace. destruct w; reflexivity.
Qed.

Lemma badge_callback_text tab n res w :
  badge_text tab (outcome_state (badge_callback tab n res) w) =
  JsNumber.number_toString (JsNumber.js_add (Z.of_nat n) (JsNumber.or_zero (JsNumber.parseInt10 res))).
Proof. unfold outcome_state, badge_callback, badge_text at 1. simpl. by rewrite JsMap.get_set_eq. Qed.

(** *** The run-status report split at the store read *)

(** The sends of the watchers among listeners [l], and the number of
    cache listeners. *)
Fixpoint rs_sends (sid : nat) (rs : run_status) (l : list rs_listener) : list effect :=
  match l with
  | [] => []
  | RS_backScript :: l => rs_sends sid rs l
  | RS_watch ch :: l => E_channelSend ch sid rs :: rs_sends sid rs l
  end.

Fixpoint rs_reads (l : list rs_listener) : nat :=
  match l with
  | [] => 0
  | RS_backScript :: l => S (rs_reads l)
  | RS_watch _ :: l => rs_reads l
  end.

Lemma runStatus_apply_set_trace sid o t w :
  outcome_state (runStatus_apply sid o) (set_trace t w) = set_trace t (outcome_state (runStatus_apply sid o) w).
Proof. destruct o as [s|]; [|done]. unfold outcome_state, runStatus_apply, modify. simpl. by case_match; destruct w. Qed.

Lemma runStatus_apply_frame sid o w :
  (outcome_state (runStatus_apply sid o) w).(dao) = w.(dao) /\
  (outcome_state (runStatus_apply sid o) w).(trace) = w.(trace).
Proof. destruct o as [s|]; [|done]. unfold outcome_state, runStatus_apply, modify. simpl. by case_match. Qed.

Lemma iter_apply_set_trace n sid o t w :
  Nat.iter n (outcome_state (runStatus_apply sid o)) (set_trace t w) =
  set_trace t (Nat.iter n (outcome_state (runStatus_apply sid o)) w).
Proof. induction n as [|n IH]; [done|]. simpl. by rewrite IH, runStatus_apply_set_trace. Qed.

Lemma collect_rs_sync sid rs l w :
  collect (rs_listener_sync sid rs) l w =
    (Resolved (repeat (K_runStatus sid (JsMap.get sid w.(dao))) (rs_reads l)),
     set_trace (w.(trace) ++ rs_sends sid rs l) w).
Proof.
  revert w. induction l as [|[|ch] l IH]; intros w; simpl.
  - rewrite app_nil_r. by destruct w.
  - unfold bind at 1, findById. simpl. unfold bind at 1. rewrite IH. done.
  - unfold bind at 1, run_rs_listener, emit, modify. simpl. unfold bind at 1. rewrite IH.
    simpl. rewrite set_trace_twice, <- app_assoc. by destruct w.
Qed.

Lemma run_all_rs sid rs l w :
  outcome_state (run_all (run_rs_listener sid rs) l) w =
  set_trace (w.(trace) ++ rs_sends sid rs l)
    (Nat.iter (rs_reads l) (outcome_state (runStatus_apply sid (JsMap.get sid w.(dao)))) w).
Proof.
  revert w. induction l as [|[|ch] l IH]; intros w; rewrite ?run_all_cons_state.
  - simpl. rewrite app_nil_r. by destruct w.
  - assert (Hu : outcome_state (run_rs_listener sid rs RS_backScript) w =
                 outcome_state (runStatus_apply sid (JsMap.get sid w.(dao))) w) by reflexivity.
    rewrite Hu, IH. destruct (runStatus_apply_frame sid (JsMap.get sid w.(dao)) w) as [Hd Ht].
    rewrite Hd, Ht. simpl. by rewrite <- Nat.iter_succ_r.
  - assert (He : outcome_state (run_rs_listener sid rs (RS_watch ch)) w =
                 set_trace (w.(trace) ++ [E_channelSend ch sid rs]) w) by reflexivity.
    rewrite He, IH. replace (dao (set_trace _ w)) with (dao w) by (by destruct w).
    replace (trace (set_trace _ w)) with (w.(trace) ++ [E_channelSend ch sid rs]) by (by destruct w).
    rewrite iter_apply_set_trace, set_trace_twice, <- app_assoc. done.
Qed.

Lemma run_all_outcome {A} (f : A -> M World unit) l w : (run_all f l w).1 = Resolved tt.
Proof. revert w. induction l as [|x l IH]; intros w; [done|]. apply IH. Qed.

Lemma resume_all_repeat env k n w :
  resume_all env (repeat k n) w = Nat.iter n (outcome_state (resume env k)) w.
Proof.
  unfold resume_all. revert w. induction n as [|n IH]; intros w; [done|].
  simpl. rewrite IH. by rewrite <- Nat.iter_succ_r.
Qed.

Lemma scriptRunStatus_splits env sid rs now :
  splits env (scriptRunStatus_sync sid rs now) (scriptRunStatus sid rs now).
Proof.
  unfold scriptRunStatus_sync, scriptRunStatus.
  apply splits_bind; intros _. apply splits_bind; intros w. intros w'.
  unfold splits_at. rewrite (bind_resolved _ _ _ _ _ (collect_rs_sync sid rs _ w')).
  split; [by rewrite run_all_outcome|]. cbn [conts].
  pose proof (run_all_rs sid rs (Hook.listeners "runStatus" (runtimeHook w)) w') as H.
  unfold outcome_state at 1 in H. rewrite H. cbn [ret conts fst snd]. rewrite resume_all_repeat. apply iter_apply_set_trace.
Qed.

(** The split [enableHandler] then its continuations is the atomic one. *)
Lemma enableHandler_split_run dv env sid now w :
  w.(managerHook) = manager_hooks ->
  outcome_fst (enableHandler_sync dv env sid now w).1 = (enableHandler dv env sid now w).1 /\
  resume_all env (conts (enableHandler_sync dv env sid now w).1) (enableHandler_sync dv env sid now w).2
    = (enableHandler dv env sid now w).2.
Proof.
  intros Hh. unfold enableHandler_sync, enableHandler.
  rewrite !(bind_resolved _ _ _ _ _ (findById_run sid w)).
  destruct (JsMap.get sid (dao w)) as [s|]; [|done].
  destruct (is_enabled s); [done|].
  set (s' := with_status SCRIPT_STATUS_ENABLE now s).
  destruct (fire_dao_save dv s' w) as [d Hd]. rewrite !(bind_resolved _ _ _ _ _ Hd).
  rewrite (bind_resolved _ _ _ _ _ (trigger_sync_enable env s' (set_dao d w) Hh (is_enabled_with_enable now s))).
  rewrite (bind_resolved _ _ _ _ _ (trigger_enable env s' (set_dao d w) Hh)).
  split; [done|]. exact (eq_sym (scriptUpdate_backEnable_swap env s' (set_dao d w))).
Qed.

(** The same for [upsertHandler]. *)
Lemma upsertHandler_split_run dv env script w :
  w.(managerHook) = manager_hooks ->
  outcome_fst (upsertHandler_sync dv env script w).1 = (upsertHandler dv env script w).1 /\
  resume_all env (conts (upsertHandler_sync dv env script w).1) (upsertHandler_sync dv env script w).2
    = (upsertHandler dv env script w).2.
Proof.
  intros Hh. unfold upsertHandler_sync, upsertHandler, version_read.
  destruct (meta "version" script); [|done]. rewrite !bind_ret_l.
  unfold catch. destruct (dao_save dv script w) as [[[]|e|] w1] eqn:Hs.
  - pose proof (dao_save_hooks _ _ _ _ _ Hs) as Hh1. rewrite Hh in Hh1.
    rewrite !(bind_resolved _ _ _ _ _ Hs), (bind_resolved _ _ _ _ _ (trigger_upsert env script w1 Hh1)).
    pose proof (trigger_sync_upsert env script w1 Hh1) as Ht.
    destruct (is_enabled script); rewrite !(bind_resolved _ _ _ _ _ Ht); split; reflexivity.
  - by rewrite !(bind_rejected _ _ _ _ _ Hs).
  - by rewrite !(bind_pending_of _ _ _ _ Hs).
Qed.

(** *** The invariant of the interleaved system *)

(** A pending callback that [resume] can run without breaking [inv]: a
    record the run-status listener read is the one stored under its id. *)
Definition cont_ok (k : cont) : Prop :=
  match k with K_runStatus sid (Some s) => s.(id) = sid | _ => True end.

Definition cinv (c : Conf) : Prop := inv c.(world) /\ Forall cont_ok c.(suspended).

(** [c] keeps [inv], and what it resolves with satisfies [R]. *)
Definition yields {A} (R : A -> Prop) (c : M World A) : Prop :=
  forall w, inv w -> inv (c w).2 /\ forall a, (c w).1 = Resolved a -> R a.

Lemma yields_ret {A} (R : A -> Prop) a : R a -> yields R (ret a).
Proof. intros Ha w Hw. split; [done|]. by intros ? [= <-]. Qed.

Lemma yields_throw {A} (R : A -> Prop) e : yields R (throw e).
Proof. by intros w Hw. Qed.

Lemma yields_pending {A} (R : A -> Prop) : yields R pending.
Proof. by intros w Hw. Qed.

Lemma yields_bind {A B} (R1 : A -> Prop) (R : B -> Prop) c k :
  yields R1 c -> (forall a, R1 a -> yields R (k a)) -> yields R (bind c k).
Proof.
  intros Hc Hk w Hw. destruct (Hc w Hw) as [Hw' Ha]. unfold bind.
  destruct (c w) as [[a|e|] w']; simpl in *; [by apply (Hk a (Ha a eq_refl))|done|done].
Qed.

Lemma yields_bind_keeps {A B} (R : B -> Prop) (c : M World A) k :
  keeps inv c -> (forall a, yields R (k a)) -> yields R (bind c k).
Proof.
  intros Hc Hk. apply (yields_bind (fun _ => True)); [|intros a _; apply Hk].
  intros w Hw. by split; [apply Hc|].
Qed.

Lemma yields_catch {A} (R : A -> Prop) c h :
  yields R c -> (forall e, yields R (h e)) -> yields R (catch c h).
Proof.
  intros Hc Hh w Hw. destruct (Hc w Hw) as [Hw' Ha]. unfold catch.
  destruct (c w) as [[a|e|] w']; simpl in *; [by split|by apply Hh|done].
Qed.

Lemma yields_findById sid : yields (fun o => forall s, o = Some s -> s.(id) = sid) (findById sid).
Proof.
  intros w Hw. split; [done|]. intros o [= <-] s Hg.
  destruct (inv_dao w Hw) as [_ Hk]. by apply (keyed_get _ _ _ Hk Hg).
Qed.

Lemma yields_collect {A} (f : A -> M World (list cont)) l :
  (forall x, yields (Forall cont_ok) (f x)) -> yields (Forall cont_ok) (collect f l).
Proof.
  intros Hf. induction l as [|x l IH]; simpl; [by apply yields_ret|].
  apply (yields_bind _ _ _ _ (Hf x)). intros ks Hks.
  apply (yields_bind _ _ _ _ IH). intros ks' Hks'. apply yields_ret. by apply Forall_app_2.
Qed.

#[local] Hint Resolve yields_ret yields_throw yields_pending yields_bind_keeps yields_catch : yields.
#[local] Hint Extern 1 (Forall cont_ok _) => repeat constructor : yields.

Lemma keeps_inv_run_sm_listener env script l : keeps inv (run_sm_listener env script l).
Proof. destruct l; simpl; auto with keeps. Qed.

Lemma keeps_inv_run_rs_listener sid rs l : keeps inv (run_rs_listener sid rs l).
Proof. destruct l; [apply keeps_inv_runStatusUpdate|apply keeps_inv_emit]. Qed.

#[local] Hint Resolve keeps_inv_run_sm_listener keeps_inv_run_rs_listener : keeps.

Lemma yields_sm_listener_sync env script l : yields (Forall cont_ok) (sm_listener_sync env script l).
Proof. unfold sm_listener_sync. repeat case_match; auto with yields keeps. Qed.

Lemma yields_rs_listener_sync sid rs l : yields (Forall cont_ok) (rs_listener_sync sid rs l).
Proof.
  unfold rs_listener_sync. destruct l; [|auto with yields keeps].
  apply (yields_bind _ _ _ _ (yields_findById sid)). intros [s|] Hs; apply yields_ret; repeat constructor.
  by apply Hs.
Qed.

Lemma yields_trigger_sync env ev script : yields (Forall cont_ok) (trigger_sync env ev script).
Proof.
  unfold trigger_sync. apply yields_bind_keeps; [apply keeps_get|]. intros w.
  apply yields_collect, yields_sm_listener_sync.
Qed.

#[local] Hint Resolve yields_trigger_sync : yields.

(** What a split handler leaves suspended. *)
Definition split_ok {A} (h : M World (A * list cont)) : Prop :=
  yields (fun r => Forall cont_ok r.2) h.

Lemma split_ok_enableHandler_sync dv env sid now : split_ok (enableHandler_sync dv env sid now).
Proof.
  unfold split_ok, enableHandler_sync. apply yields_bind_keeps; [by intros w|].
  intros [script|]; [case_match|]; auto with yields keeps.
  apply yields_bind_keeps; [auto with keeps|]. intros _.
  apply (yields_bind _ _ _ _ (yields_trigger_sync env "enable" _)). intros ks Hks. by apply yields_ret.
Qed.

Lemma split_ok_upsertHandler_sync dv env script : split_ok (upsertHandler_sync dv env script).
Proof.
  unfold split_ok, upsertHandler_sync, version_read. case_match; [|by intros w Hw].
  apply yields_bind_keeps; [auto with keeps|]. intros _.
  apply yields_catch; [|auto with yields keeps].
  apply yields_bind_keeps; [auto with keeps|]. intros _.
  apply (yields_bind _ _ _ _ (yields_trigger_sync env "upsert" _)). intros ks Hks. by apply yields_ret.
Qed.

Lemma keeps_getBadgeText (P : World -> Prop) tab : keeps P (getBadgeText tab).
Proof. by intros w. Qed.

#[local] Hint Resolve keeps_getBadgeText : keeps.

Lemma split_ok_pageLoad_sync env snd : split_ok (pageLoad_sync env snd).
Proof.
  unfold split_ok, pageLoad_sync, badge_update. destruct snd as [sd|]; [|auto with yields].
  destruct (truthy_url sd.(url)), (truthy_tab sd.(tabId)); auto with yields.
  apply yields_bind_keeps; [auto with keeps|]. intros w.
  apply yields_bind_keeps; [auto with keeps|]. intros _.
  case_match; repeat (apply yields_bind_keeps; [auto 10 with keeps|intros ?]);
    apply yields_ret; repeat constructor.
Qed.

Lemma split_ok_scriptRunStatus_sync sid rs now : split_ok (scriptRunStatus_sync sid rs now).
Proof.
  unfold split_ok, scriptRunStatus_sync.
  apply yields_bind_keeps.
  { apply keeps_modify. intros w Hw. apply inv_set_dao; [done|]. apply dao_ok_update_runStatus, Hw. }
  intros _. apply yields_bind_keeps; [apply keeps_get|]. intros w.
  apply (yields_bind _ _ _ _ (yields_collect _ _ (yields_rs_listener_sync sid rs))).
  intros ks Hks. by apply yields_ret.
Qed.

Lemma keeps_inv_runStatus_apply sid o :
  (forall s, o = Some s -> s.(id) = sid) -> keeps inv (runStatus_apply sid o).
Proof.
  intros Ho w Hw. destruct o as [script|]; [|done].
  pose proof (Ho script eq_refl). unfold outcome_state, runStatus_apply, modify. simpl.
  case_match; (apply inv_set_runBackScript; [done|auto using inv_rbs_wf with js|]).
  - apply keyed_set; [apply Hw|done].
  - apply keyed_delete, Hw.
Qed.

Lemma keeps_inv_resume env k : cont_ok k -> keeps inv (resume env k).
Proof.
  destruct k as [s|tab n res|sid [s|]]; cbn [resume cont_ok]; intros Hk; auto with keeps.
  - apply keeps_inv_runStatus_apply. by intros ? [= <-].
  - by apply keeps_inv_runStatus_apply.
Qed.

Lemma run_sync_cinv {A} (h : M World (A * list cont)) c : split_ok h -> cinv c -> cinv (run_sync h c).
Proof.
  intros Hh [Hw Hks]. unfold run_sync. destruct (Hh _ Hw) as [Hw' Hr].
  destruct (h (world c)) as [o w'] eqn:Ho. simpl in *. split; [done|].
  apply Forall_app_2; [done|]. destruct o as [[a ks]| |]; simpl; [by apply (Hr (a, ks))|constructor..].
Qed.

Lemma cstep_cinv dv env c c' : cstep dv env c c' -> cinv c -> cinv c'.
Proof.
  destruct 1 as [| | | |i k c Hi|]; try apply run_sync_cinv.
  - apply split_ok_enableHandler_sync.
  - apply split_ok_upsertHandler_sync.
  - apply split_ok_pageLoad_sync.
  - apply split_ok_scriptRunStatus_sync.
  - intros [Hw Hks]. split; [|by apply Forall_delete].
    apply (keeps_inv_resume env k); [|done]. by apply (Forall_lookup_1 _ _ _ _ Hks Hi).
  - intros [Hw Hks]. split; [|done]. by eapply step_inv.
Qed.

(** Every configuration the interleaved system reaches satisfies the
    invariant of [Events]: the caches stay maps keyed by id and the hook
    keeps its six listeners, whatever the interleaving; and every pending
    run-status callback holds a record keyed by its id. *)
Lemma creachable_inv dv env c : creachable dv env c -> cinv c.
Proof.
  intros (d & Hd & Hr).
  refine (rtc_invariant _ cinv _ _ (conj (start_inv env d Hd) (List.Forall_nil _) : cinv (mkConf _ [])) _ Hr).
  intros a b Hab. by apply (cstep_cinv dv env).
Qed.

(** Splitting [enableHandler] and [upsertHandler] at the await of
    [enable], [pageLoad] at the callback of [getBadgeText], and the
    ["scriptRunStatus"] handler at the store read of the cache listener,
    then
    running the suspended calls at once gives the atomic handler of
    [Events] and [Runtime]: the same promise outcome and the same state.
    The interleaved system refines the atomic one; the atomic steps are
    its schedules in which no request arrives while a callback is
    pending. *)
Lemma handlers_split_refine dv env w :
  w.(managerHook) = manager_hooks ->
  (forall sid now, splits_at env (enableHandler_sync dv env sid now) (enableHandler dv env sid now) w) /\
  (forall script, splits_at env (upsertHandler_sync dv env script) (upsertHandler dv env script) w) /\
  (forall snd, splits_at env (pageLoad_sync env snd) (pageLoad env snd) w) /\
  (forall sid rs now, splits_at env (scriptRunStatus_sync sid rs now) (scriptRunStatus sid rs now) w).
Proof.
  intros Hh. split_and!; intros.
  - by apply enableHandler_split_run.
  - by apply upsertHandler_split_run.
  - apply pageLoad_splits.
  - apply scriptRunStatus_splits.
Qed.

(** C28. The badge text is a read-modify-write across a callback
    (runtime.ts 404-413): [getBadgeText] reads the text when the handler
    calls it, and the callback writes the read number plus the handler's
    count.  Two page loads of the same tab (the top frame and an iframe)
    that both inject scripts can both call [getBadgeText] before either
    callback runs.  There is then a schedule after which the badge shows
    the old number plus the second load's count only: the first load's
    injections are not counted. *)
Theorem badge_lost_update dv env c sd1 sd2 u1 u2 tab :
  truthy_url sd1.(url) = Some u1 -> truthy_url sd2.(url) = Some u2 ->
  truthy_tab sd1.(tabId) = Some tab -> truthy_tab sd2.(tabId) = Some tab ->
  matchUrl u1 (Some (pageLoad_filter sd1)) c.(world) <> [] ->
  matchUrl u2 (Some (pageLoad_filter sd2)) c.(world) <> [] ->
  exists c', rtc (cstep dv env) c c' /\ c'.(suspended) = c.(suspended) /\
    badge_text tab c'.(world) =
      JsNumber.number_toString (JsNumber.js_add (Z.of_nat (length (matchUrl u2 (Some (pageLoad_filter sd2)) c.(world))))
        (JsNumber.or_zero (JsNumber.parseInt10 (badge_text tab c.(world))))).
Proof.
  intros Hu1 Hu2 Ht1 Ht2 Hf1 Hf2. destruct c as [w ks]. cbn [world suspended] in *.
  destruct (pageLoad_sync_run env sd1 w u1 tab Hu1 Ht1 Hf1) as [t1 H1].
  set (w1 := set_trace t1 w).
  assert (Hf2' : matchUrl u2 (Some (pageLoad_filter sd2)) w1 <> []) by (unfold w1; by rewrite matchUrl_set_trace).
  destruct (pageLoad_sync_run env sd2 w1 u2 tab Hu2 Ht2 Hf2') as [t2 H2].
  set (k1 := K_badgeText tab (length (matchUrl u1 (Some (pageLoad_filter sd1)) w)) (badge_text tab w)).
  set (k2 := K_badgeText tab (length (matchUrl u2 (Some (pageLoad_filter sd2)) w1)) (badge_text tab w1)).
  set (w2 := set_trace t2 w1).
  set (w3 := outcome_state (resume env k1) w2).
  exists (mkConf (outcome_state (resume env k2) w3) ks). split_and!.
  - eapply rtc_l; [apply (cs_page_load _ _ (Some sd1))|].
    eapply rtc_l; [apply (cs_page_load _ _ (Some sd2))|].
    unfold run_sync at 2. cbn [world]. unfold run_sync at 1. rewrite H1. fold w1. cbn [world suspended conts].
    rewrite H2. cbn [suspended conts]. rewrite <- app_assoc. cbn [app].
    eapply rtc_l; [apply (cs_resume _ _ (length ks) k1); by apply list_lookup_middle|].
    cbn [world suspended]. rewrite delete_middle.
    eapply rtc_l; [apply (cs_resume _ _ (length ks) k2); by apply list_lookup_middle|].
    cbn [world suspended]. rewrite delete_middle, List.app_nil_r. apply rtc_refl.
  - done.
  - cbn [world]. unfold k2. cbn [resume]. rewrite badge_callback_text.
    unfold w1. by rewrite matchUrl_set_trace, badge_text_set_trace.
Qed.

Lemma badge_lost_update_witness :
  (exists c', rtc (cstep dv0 env0) (mkConf wA1 []) c' /\ c'.(suspended) = [] /\
     badge_text 3 c'.(world) = "1") /\
  badge_text 3 (outcome_state (pageLoad env0 (Some sender_a1))
                  (outcome_state (pageLoad env0 (Some sender_a)) wA1)) = "2".
Proof.
  split; [|vm_compute; reflexivity].
  destruct (badge_lost_update dv0 env0 (mkConf wA1 []) sender_a sender_a1
              "https://a.test/x" "https://a.test/x" 3 eq_refl eq_refl eq_refl eq_refl)
    as (c' & Hr & Hs & Hb); [vm_compute; discriminate|vm_compute; discriminate|].
  exists c'. split_and!; [exact Hr|exact Hs|]. rewrite Hb. vm_compute. reflexivity.
Defined.

(** A schedule that leaves one callback pending, serves one atomic
    request, then runs the callback. *)
Lemma schedule_then_resume dv env c0 c1 w2 k :
  rtc (cstep dv env) c0 c1 -> c1.(suspended) = [k] -> step dv env c1.(world) w2 ->
  rtc (cstep dv env) c0 (mkConf (outcome_state (resume env k) w2) []).
Proof.
  destruct c1 as [w1 ks]. cbn. intros H01 -> Hs.
  eapply rtc_r; [eapply rtc_r; [exact H01|by apply (cs_atomic _ _ w2 (mkConf w1 [k]))]|].
  by apply (cs_resume _ _ 0 k (mkConf w2 [k])).
Qed.

(** C23. Three schedules of the interleaved system from the started
    runtime leave a script disabled in the store while the runtime treats
    it as enabled.  In each, a [disable] request is served while a
    callback that read the enabled script is pending.
    - Page script A, enabled at 10 and disabled at 11 while the build of
      the enable is pending: the disable re-indexes A with its disabled
      resource, then the resumed build puts the enabled resource back.  A
      page load of [https://a.test/x] injects A.
    - Background script B, the same requests: the sandbox receives
      ["disable"], then the resumed build sends ["enable"].  B runs in the
      sandbox, yet it is neither enabled in the store nor in the
      background cache.
    - Background script B, enabled at 10; the sandbox reports it running
      at 12, and B is disabled at 13 while the cache listener's read is
      pending: the listener puts the enabled record it read back into the
      background cache.  The popup lists B as enabled and running.
    The atomic order of the same requests ends with A not injected,
    ["disable"] as B's last message, and no background script listed. *)
Theorem enable_disable_race :
  (exists c, rtc (cstep dv0 env0) (mkConf w0 []) c /\ c.(suspended) = [] /\
     option_map is_enabled (JsMap.get 1 c.(world).(dao)) = Some false /\
     injected_ids "https://a.test/x" c.(world) = Some [1]) /\
  (exists c, rtc (cstep dv0 env0) (mkConf w0 []) c /\ c.(suspended) = [] /\
     option_map is_enabled (JsMap.get 2 c.(world).(dao)) = Some false /\
     JsMap.get 2 c.(world).(runBackScript) = None /\
     last (sent c.(world).(trace)) = Some ("enable", 2)) /\
  (exists c, rtc (cstep dv0 env0) (mkConf w0 []) c /\ c.(suspended) = [] /\
     option_map is_enabled (JsMap.get 2 c.(world).(dao)) = Some false /\
     last (sent c.(world).(trace)) = Some ("disable", 2) /\
     map (fun m => (m.(menu_script_id), m.(menu_enable), m.(menu_runStatus)))
         (queryPageScript "https://a.test/x" 3 c.(world)).2 =
       [(2, true, Some SCRIPT_RUN_STATUS_RUNNING)]) /\
  injected_ids "https://a.test/x" wA2 = Some [] /\
  last (sent wB2.(trace)) = Some ("disable", 2) /\
  (queryPageScript "https://a.test/x" 3
     (outcome_state (disableHandler dv0 env0 2 13)
        (outcome_state (scriptRunStatus 2 SCRIPT_RUN_STATUS_RUNNING 12) wB1))).2 = [].
Proof.
  split_and!.
  - eexists. split.
    + eapply schedule_then_resume; [apply rtc_once, (cs_enable _ _ 1 10)|reflexivity|apply (st_disable _ _ 1 11)].
    + vm_compute. split_and!; reflexivity.
  - eexists. split.
    + eapply schedule_then_resume; [apply rtc_once, (cs_enable _ _ 2 10)|reflexivity|apply (st_disable _ _ 2 13)].
    + vm_compute. split_and!; reflexivity.
  - eexists. split.
    + eapply (schedule_then_resume _ _ _ _ _
               (K_runStatus 2 (Some (with_runStatus SCRIPT_RUN_STATUS_RUNNING 12 scriptB_enabled))));
        [eapply rtc_l; [apply cs_atomic, (st_enable _ _ 2 10)|];
         apply rtc_once, (cs_run_status _ _ 2 SCRIPT_RUN_STATUS_RUNNING 12)
        |vm_compute; reflexivity|apply (st_disable _ _ 2 13)].
    + vm_compute. split_and!; reflexivity.
  - vm_compute. reflexivity.
  - vm_compute. reflexivity.
  - vm_compute. reflexivity.
Qed.

End Interleave.
