(* ===== verification/Sandbox.v ===== *)
(** * The sandbox's start-up handshake

    src/sandbox.ts, lines 24-34: on [window.onload] the sandbox calls
    [retry()], which arms a one-second [setTimeout] whose callback calls
    [retry()] again, and sends ["sandboxOnload"] to the background page;
    when that message is acknowledged, its [then] callback clears the timer
    armed by the same call ([clearTimeout(t)], [t] from the closure).

    The event loop is an explicit queue of timed events: a timer firing
    ([Timeout i] for the timer of the [i]-th call) and an acknowledgement
    arriving ([Ack i] for the message of the [i]-th call).  The queue is
    kept in time order, events of equal time in the order they were queued
    (the timer of a call is queued before its message's answer).  When the
    [i]-th message is acknowledged, and after how many milliseconds, is the
    environment's [lat i] ([None]: never, e.g. a rejected or lost
    message; the promise has no [catch]).  [run] takes the events one at a
    time, with fuel.

    [hs_inv] is the invariant of every state [run] reaches, whatever the
    answers: the messages went out at whole seconds since [onload], one
    per call, and at most one timer is pending.  It bounds the rate of
    the handshake (C37); [pre] and [shape] describe the rounds of the
    loop for the liveness and termination theorems (C30, C31). *)

From S2P Require Import Prelude.

Module Sandbox.

Inductive hs_event := Timeout (i : nat) | Ack (i : nat).

#[export] Instance hs_event_eq_dec : EqDecision hs_event.
Proof. solve_decision. Defined.

(** The state: the clock, the number of [retry()] calls so far (the id
    of the next timer and message), the event queue and the times at which
    ["sandboxOnload"] was sent. *)
Record HS := mkHS {
  hs_now : nat;
  hs_next : nat;
  hs_queue : list (nat * hs_event);
  hs_sent : list nat;
}.

(** [setTimeout(..., 1000)] *)
Definition retry_interval : nat := 1000.

(** Queue an event at its time, after the events of the same or an
    earlier time. *)
Fixpoint enqueue (x : nat * hs_event) (q : list (nat * hs_event)) : list (nat * hs_event) :=
  match q with
  | [] => [x]
  | y :: q' => if decide (y.1 <= x.1) then y :: enqueue x q' else x :: q
  end.

(** [clearTimeout(t)]: the timer of call [i] will not fire. *)
Definition clearTimeout (i : nat) (q : list (nat * hs_event)) : list (nat * hs_event) :=
  filter (fun x => x.2 <> Timeout i) q.

Section Handshake.
Variable lat : nat -> option nat.

(** Lines 24-32: one call of [retry()] at the current time. *)
Definition retry (st : HS) : HS :=
  let i := st.(hs_next) in
  let q1 := enqueue (st.(hs_now) + retry_interval, Timeout i) st.(hs_queue) in
  let q2 := match lat i with
            | Some d => enqueue (st.(hs_now) + d, Ack i) q1
            | None => q1
            end in
  mkHS st.(hs_now) (S i) q2 (st.(hs_sent) ++ [st.(hs_now)]).

(** One turn of the event loop: the first event of the queue, if any. *)
Definition hs_step (st : HS) : option HS :=
  match st.(hs_queue) with
  | [] => None
  | (t, ev) :: q =>
      Some (match ev with
            | Timeout _ => retry (mkHS t st.(hs_next) q st.(hs_sent))
            | Ack i => mkHS t st.(hs_next) (clearTimeout i q) st.(hs_sent)
            end)
  end.

Fixpoint run (fuel : nat) (st : HS) : HS :=
  match fuel with
  | 0 => st
  | S n => match hs_step st with None => st | Some st' => run n st' end
  end.

(** Lines 33-35: [window.onload = () => { retry(); }]. *)
Definition onload : HS := retry (mkHS 0 0 [] []).
End Handshake.

(** ** Analysis *)

Definition time_le (x y : nat * hs_event) : Prop := x.1 <= y.1.
Definition is_ack (x : nat * hs_event) : bool := match x.2 with Ack _ => true | Timeout _ => false end.
Definition ack_ids (q : list (nat * hs_event)) : list nat :=
  omap (fun x => match x.2 with Ack j => Some j | Timeout _ => None end) q.

(** The send times of the first [n] calls: [0], [1000], ... *)
Definition sends_upto (n : nat) : list nat := map (fun i => i * retry_interval) (seq 0 n).

Section Shapes.
Variable lat : nat -> option nat.

(** The acknowledgement of call [i] comes at or after its timer (a tie goes
    to the timer, queued first), or never. *)
Definition late (i : nat) : Prop := forall d, lat i = Some d -> retry_interval <= d.
(** The acknowledgement of call [i] comes before its timer fires. *)
Definition prompt (i : nat) : Prop := exists d, lat i = Some d /\ d < retry_interval.
End Shapes.

(** The queue when call [n] of [retry()] starts: in time order,
    acknowledgements only, of earlier calls, none before the clock. *)
Definition pre (n : nat) (q : list (nat * hs_event)) : Prop :=
  StronglySorted time_le q /\ (forall x, x ∈ q -> is_ack x = true) /\
  (forall t j, (t, Ack j) ∈ q -> j < n) /\ (forall y, y ∈ q -> n * retry_interval <= y.1).

(** The state after call [n]: its timer, due at [n + 1] seconds, is the
    only timer; the acknowledgements before it ([q1]) are taken first. *)
Definition shape (n : nat) (st : HS) (q1 q2 : list (nat * hs_event)) : Prop :=
  st.(hs_next) = S n /\ st.(hs_sent) = sends_upto (S n) /\
  st.(hs_queue) = q1 ++ (n * retry_interval + retry_interval, Timeout n) :: q2 /\
  (forall x, x ∈ q1 ++ q2 -> is_ack x = true) /\ (forall t j, (t, Ack j) ∈ q1 ++ q2 -> j <= n) /\
  StronglySorted time_le q2 /\ (forall y, y ∈ q2 -> n * retry_interval + retry_interval <= y.1).

(** The timers of a queue. *)
Definition timers (q : list (nat * hs_event)) : list (nat * hs_event) :=
  filter (fun x => is_ack x = false) q.

(** The invariant of every state of the handshake, whatever the answers:
    after call [n] of [retry()] the messages went out at [0], [1000], ...,
    [n * 1000]; the clock is past the last of them; the queue is in time
    order and not behind the clock; and at most one timer is pending, the
    one call [n] armed. *)
Definition hs_inv (st : HS) : Prop :=
  exists n, st.(hs_next) = S n /\ st.(hs_sent) = sends_upto (S n) /\
    n * retry_interval <= st.(hs_now) /\
    StronglySorted time_le st.(hs_queue) /\ (forall y, y ∈ st.(hs_queue) -> st.(hs_now) <= y.1) /\
    (timers st.(hs_queue) = [] \/ timers st.(hs_queue) = [(S n * retry_interval, Timeout n)]).

(** Two answering behaviours: every acknowledgement after 1.5 seconds;
    the first two messages lost and the third acknowledged after 10 ms. *)
Definition lat_slow : nat -> option nat := fun _ => Some 1500.
Definition lat_third : nat -> option nat := fun i => if decide (i < 2) then None else Some 10.

(** *** The event queue *)

Lemma enqueue_lt x z qa qb : x.1 < z.1 -> enqueue x (qa ++ z :: qb) = enqueue x qa ++ z :: qb.
Proof.
  intros Hlt. induction qa as [|y qa IH]; simpl.
  - rewrite decide_False by lia. done.
  - case_decide; [by rewrite IH|done].
Qed.

Lemma enqueue_ge x z qa qb :
  Forall (fun y => y.1 <= x.1) qa -> z.1 <= x.1 -> enqueue x (qa ++ z :: qb) = qa ++ z :: enqueue x qb.
Proof.
  intros Hqa Hz. induction Hqa as [|y qa Hy Hqa IH]; simpl.
  - by rewrite decide_True by lia.
  - rewrite decide_True by lia. by rewrite IH.
Qed.

Lemma enqueue_split x q :
  exists qa qb, q = qa ++ qb /\ enqueue x q = qa ++ x :: qb /\
    Forall (fun y => y.1 <= x.1) qa /\ Forall (fun y => x.1 < y.1) (take 1 qb).
Proof.
  induction q as [|y q IH]; simpl.
  - exists [], []. naive_solver.
  - case_decide.
    + destruct IH as (qa & qb & -> & -> & Ha & Hb). exists (y :: qa), qb. naive_solver.
    + exists [], (y :: q). split_and!; try done. simpl. constructor; [lia|done].
Qed.

Lemma elem_of_enqueue x q y : y ∈ enqueue x q <-> y = x \/ y ∈ q.
Proof.
  induction q as [|z q IH]; simpl; [set_solver|].
  case_decide; rewrite !elem_of_cons; [rewrite IH|]; naive_solver.
Qed.

Lemma enqueue_sorted x q : StronglySorted time_le q -> StronglySorted time_le (enqueue x q).
Proof.
  induction 1 as [|y q Hs IH Hall]; simpl; [repeat constructor|].
  case_decide.
  - constructor; [done|]. apply Forall_forall. intros z Hz. apply elem_of_enqueue in Hz as [->|Hz].
    + unfold time_le. lia.
    + by eapply Forall_forall in Hall.
  - constructor; [by constructor|]. constructor; [unfold time_le; lia|].
    apply Forall_forall. intros z Hz. eapply Forall_forall in Hall; [|exact Hz]. unfold time_le in *. lia.
Qed.

Lemma ssorted_app {A} (R : relation A) l1 l2 :
  StronglySorted R (l1 ++ l2) -> StronglySorted R l2 /\ forall x y, x ∈ l1 -> y ∈ l2 -> R x y.
Proof.
  induction l1 as [|z l1 IH]; simpl; [split; [done|set_solver]|].
  intros Hs. apply StronglySorted_inv in Hs as [Hs Hall]. destruct (IH Hs) as [Hs2 Hr].
  split; [done|]. intros x y Hx Hy. apply elem_of_cons in Hx as [->|Hx]; [|by apply Hr].
  eapply Forall_forall in Hall; [exact Hall|]. set_solver.
Qed.

Lemma elem_of_ack_ids j q : j ∈ ack_ids q <-> exists t, (t, Ack j) ∈ q.
Proof.
  unfold ack_ids. rewrite list_elem_of_omap. split.
  - intros ([t [i|i]] & Hin & Heq); simplify_eq/=. eauto.
  - intros [t Hin]. by exists (t, Ack j).
Qed.

Lemma enqueue_perm x q : enqueue x q ≡ₚ x :: q.
Proof.
  induction q as [|y q IH]; simpl; [done|]. case_decide; [|done].
  rewrite IH. apply perm_swap.
Qed.

Lemma timers_enqueue x q : timers (enqueue x q) ≡ₚ timers (x :: q).
Proof. unfold timers. by rewrite enqueue_perm. Qed.

Lemma timers_clear i q : timers (clearTimeout i q) = filter (fun x => x.2 <> Timeout i) (timers q).
Proof. unfold timers, clearTimeout. rewrite !list_filter_filter. apply list_filter_iff. intros x. tauto. Qed.

Lemma ssorted_filter {A} (R : relation A) (P : A -> Prop) `{!forall x, Decision (P x)} l :
  StronglySorted R l -> StronglySorted R (filter P l).
Proof.
  induction 1 as [|y l Hs IH Hall]; [constructor|].
  rewrite filter_cons. case_decide; [|done]. constructor; [done|]. apply Forall_forall. intros z Hz.
  apply list_elem_of_filter in Hz as [_ Hz]. by eapply Forall_forall in Hall.
Qed.

(** *** One round of the handshake *)

Section Run.
Variable lat : nat -> option nat.

Lemma run_stuck n st : hs_step lat st = None -> run lat n st = st.
Proof. intros H. destruct n; simpl; [done|]. by rewrite H. Qed.

Lemma run_add a b st : run lat (a + b) st = run lat b (run lat a st).
Proof.
  revert st. induction a as [|a IH]; intros st; [done|]. simpl.
  destruct (hs_step lat st) eqn:E; [apply IH|]. by rewrite run_stuck.
Qed.

(** Acknowledgements at the head of the queue are taken one by one; each
    clears the timer of its call. *)
Lemma run_acks q1 rest t next sent :
  Forall (fun x => is_ack x = true) q1 ->
  exists t', run lat (length q1) (mkHS t next (q1 ++ rest) sent) =
             mkHS t' next (filter (fun x => x.2 ∉ map Timeout (ack_ids q1)) rest) sent.
Proof.
  revert t rest. induction q1 as [|[t0 [i|j]] q1 IH]; intros t rest Hq.
  - exists t. simpl. f_equal. symmetry. apply filter_all_true. set_solver.
  - inversion Hq. done.
  - inversion Hq as [|? ? _ Hq']; subst. simpl.
    unfold clearTimeout. rewrite filter_app, (filter_all_true _ q1).
    2:{ intros [t1 [i1|i1]] Hin; [|done]. eapply Forall_forall in Hq'; [|exact Hin]. done. }
    destruct (IH t0 (filter (fun x => x.2 <> Timeout j) rest) Hq') as [t' Ht'].
    exists t'. rewrite Ht'. f_equal. rewrite list_filter_filter. apply list_filter_iff.
    intros x. simpl. set_solver.
Qed.

Lemma sends_upto_S n : sends_upto (S n) = sends_upto n ++ [n * retry_interval].
Proof. unfold sends_upto. by rewrite seq_S, map_app. Qed.

Lemma retry_shape n q :
  pre n q ->
  exists q1 q2, shape n (retry lat (mkHS (n * retry_interval) n q (sends_upto n))) q1 q2 /\
    (late lat n -> ~ exists t, (t, Ack n) ∈ q1) /\ (prompt lat n -> exists t, (t, Ack n) ∈ q1).
Proof.
  intros (Hs & Hack & Hid & Hge).
  destruct (enqueue_split (n * retry_interval + retry_interval, Timeout n) q)
    as (qa & qb & -> & Henq & Hqa & Hqb).
  apply ssorted_app in Hs as [Hsb Hab].
  assert (Hqb' : forall y, y ∈ qb -> n * retry_interval + retry_interval < y.1).
  { destruct qb as [|y0 qb]; [set_solver|]. simpl in Hqb. inversion Hqb as [|? ? Hy0 _]; subst.
    intros y Hy. apply elem_of_cons in Hy as [->|Hy]; [done|].
    apply StronglySorted_inv in Hsb as [_ Hall]. eapply Forall_forall in Hall; [|exact Hy].
    unfold time_le in Hall. simpl in *. lia. }
  unfold retry. cbn [hs_now hs_next hs_queue hs_sent]. rewrite Henq, <- sends_upto_S.
  unfold shape, late, prompt. cbn [hs_now hs_next hs_queue hs_sent]. destruct (lat n) as [d|] eqn:Hd.
  - destruct (decide (retry_interval <= d)) as [Hlate|Hprompt].
    + rewrite enqueue_ge; [|apply Forall_forall; intros y Hy; eapply Forall_forall in Hqa; [|exact Hy]; simpl in *; lia|simpl; lia].
      exists qa, (enqueue (n * retry_interval + d, Ack n) qb). split_and!; try done.
      * intros x Hx. apply elem_of_app in Hx as [Hx|Hx]; [apply Hack; set_solver|].
        apply elem_of_enqueue in Hx as [->|Hx]; [done|apply Hack; set_solver].
      * intros t j Hx. apply elem_of_app in Hx as [Hx|Hx]; [by apply Nat.lt_le_incl, (Hid t j), elem_of_app; left|].
        apply elem_of_enqueue in Hx as [Hx|Hx]; [simplify_eq; lia|].
        by apply Nat.lt_le_incl, (Hid t j), elem_of_app; right.
      * by apply enqueue_sorted.
      * intros y Hy. apply elem_of_enqueue in Hy as [->|Hy]; [simpl; lia|pose proof (Hqb' y Hy); lia].
      * intros _ [t Ht]. assert (n < n) by (apply (Hid t n), elem_of_app; by left). lia.
      * intros (d' & Hd' & Hlt). simplify_eq. lia.
    + rewrite enqueue_lt by (simpl; lia).
      exists (enqueue (n * retry_interval + d, Ack n) qa), qb. split_and!; try done.
      * intros x Hx. apply elem_of_app in Hx as [Hx|Hx]; [|apply Hack; set_solver].
        apply elem_of_enqueue in Hx as [->|Hx]; [done|apply Hack; set_solver].
      * intros t j Hx. apply elem_of_app in Hx as [Hx|Hx]; [|by apply Nat.lt_le_incl, (Hid t j), elem_of_app; right].
        apply elem_of_enqueue in Hx as [Hx|Hx]; [simplify_eq; lia|].
        by apply Nat.lt_le_incl, (Hid t j), elem_of_app; left.
      * intros y Hy. pose proof (Hqb' y Hy). lia.
      * intros Hl. pose proof (Hl d eq_refl). lia.
      * intros _. exists (n * retry_interval + d). apply elem_of_enqueue. by left.
  - exists qa, qb. split_and!; try done.
    + intros t j Hx. by apply Nat.lt_le_incl, (Hid t j).
    + intros y Hy. pose proof (Hqb' y Hy). lia.
    + intros _ [t Ht]. assert (n < n) by (apply (Hid t n), elem_of_app; by left). lia.
    + intros (d' & Hd' & _). done.
Qed.

(** After call [n], when its acknowledgement is not ahead of its timer:
    the acknowledgements ahead are taken, then the timer fires and calls
    [retry()] again one interval later. *)
Lemma shape_next n st q1 q2 :
  shape n st q1 q2 -> ~ (exists t, (t, Ack n) ∈ q1) ->
  run lat (S (length q1)) st =
    retry lat (mkHS (S n * retry_interval) (S n) q2 (sends_upto (S n))) /\ pre (S n) q2.
Proof.
  destruct st as [now next q sent]. intros (Hn & Hs & Hq & Hack & Hid & Hsort & Hge) Hno.
  simpl in Hn, Hs, Hq. subst.
  replace (S (length q1)) with (length q1 + 1) by lia. rewrite run_add.
  destruct (run_acks q1 ((n * retry_interval + retry_interval, Timeout n) :: q2) now (S n)
              (sends_upto (S n))) as [t' Ht'].
  { apply Forall_forall. intros x Hx. apply Hack. set_solver. }
  rewrite Ht', filter_all_true.
  2:{ intros [t e] Hx. apply elem_of_cons in Hx as [Hx|Hx]; simplify_eq/=.
      - rewrite list_elem_of_fmap. intros (j & Hj & Hjn). simplify_eq. apply Hno.
        by apply elem_of_ack_ids.
      - assert (Ha : is_ack (t, e) = true) by (apply Hack; set_solver).
        destruct e; [done|]. rewrite list_elem_of_fmap. intros (j & Hj & _). done. }
  replace (n * retry_interval + retry_interval) with (S n * retry_interval) by (rewrite Nat.mul_succ_l; lia).
  split; [done|]. unfold pre. split_and!; [done| | |].
  2:{ intros t j Hx. assert (j <= n) by (apply (Hid t j), elem_of_app; by right). lia. }
  - intros x Hx. apply Hack. set_solver.
  - intros y Hy. pose proof (Hge y Hy). rewrite Nat.mul_succ_l. lia.
Qed.

(** When the acknowledgement of call [n] is ahead of its timer, it clears
    it: once the remaining acknowledgements are taken the queue is empty,
    and no further message was sent. *)
Lemma shape_stop n st q1 q2 :
  shape n st q1 q2 -> (exists t, (t, Ack n) ∈ q1) ->
  exists m, hs_step lat (run lat m st) = None /\ (run lat m st).(hs_sent) = st.(hs_sent).
Proof.
  destruct st as [now next q sent]. intros (Hn & Hs & Hq & Hack & Hid & Hsort & Hge) Hin.
  simpl in Hn, Hs, Hq. subst.
  destruct (run_acks q1 ((n * retry_interval + retry_interval, Timeout n) :: q2) now (S n)
              (sends_upto (S n))) as [t1 Ht1].
  { apply Forall_forall. intros x Hx. apply Hack. set_solver. }
  rewrite filter_cons, decide_False in Ht1.
  2:{ intros Hnot. apply Hnot, list_elem_of_fmap. exists n. split; [done|]. by apply elem_of_ack_ids. }
  rewrite filter_all_true in Ht1.
  2:{ intros [t e] Hx. assert (Ha : is_ack (t, e) = true) by (apply Hack; set_solver).
      destruct e; [done|]. rewrite list_elem_of_fmap. intros (j & Hj & _). done. }
  destruct (run_acks q2 [] t1 (S n) (sends_upto (S n))) as [t2 Ht2].
  { apply Forall_forall. intros x Hx. apply Hack. set_solver. }
  rewrite app_nil_r in Ht2.
  exists (length q1 + length q2). rewrite run_add, Ht1, Ht2. done.
Qed.

(** Every call before the [n]-th was acknowledged late or never: the
    [n]-th call happens, [n] seconds after [onload]. *)
Lemma reach n :
  (forall i, i < n -> late lat i) ->
  exists m q1 q2, shape n (run lat m (onload lat)) q1 q2 /\
    (late lat n -> ~ exists t, (t, Ack n) ∈ q1) /\ (prompt lat n -> exists t, (t, Ack n) ∈ q1).
Proof.
  induction n as [|n IH]; intros Hlate.
  - destruct (retry_shape 0 []) as (q1 & q2 & H).
    { split_and!; [constructor|..]; intros *; rewrite elem_of_nil; done. }
    exists 0, q1, q2. exact H.
  - destruct IH as (m & q1 & q2 & Hsh & Hl & _); [intros i Hi; apply Hlate; lia|].
    destruct (shape_next n _ q1 q2 Hsh) as [Hrun Hpre]; [apply Hl, Hlate; lia|].
    destruct (retry_shape (S n) q2 Hpre) as (q1' & q2' & H).
    exists (m + S (length q1)), q1', q2'. by rewrite run_add, Hrun.
Qed.
End Run.


(** *** The invariant of the handshake *)

Section Bound.
Variable lat : nat -> option nat.

Lemma hs_inv_retry n t q sent :
  sent = sends_upto n -> t = n * retry_interval ->
  StronglySorted time_le q -> (forall y, y ∈ q -> t <= y.1) -> timers q = [] ->
  hs_inv (retry lat (mkHS t n q sent)).
Proof.
  intros -> -> Hs Hge Ht. exists n. unfold retry. cbn [hs_now hs_next hs_queue hs_sent].
  set (q1 := enqueue _ q).
  assert (Hq1 : StronglySorted time_le q1 /\ (forall y, y ∈ q1 -> n * retry_interval <= y.1) /\
                timers q1 = [(S n * retry_interval, Timeout n)]).
  { split_and!; [by apply enqueue_sorted|..].
    - intros y Hy. apply elem_of_enqueue in Hy as [->|Hy]; [simpl; lia|by apply Hge].
    - apply Permutation_singleton_r. unfold q1. rewrite timers_enqueue. unfold timers.
      rewrite filter_cons_True by done. fold (timers q). rewrite Ht, Nat.mul_succ_l. done. }
  destruct Hq1 as (Hs1 & Hge1 & Ht1).
  split_and!; [done|by rewrite <- sends_upto_S|lia|..]; destruct (lat n) as [d|]; try done.
  - by apply enqueue_sorted.
  - intros y Hy. apply elem_of_enqueue in Hy as [->|Hy]; [simpl; lia|by apply Hge1].
  - right. apply Permutation_singleton_r. rewrite timers_enqueue. unfold timers. rewrite filter_cons_False by done.
    fold (timers q1). by rewrite Ht1.
  - by right.
Qed.

Lemma hs_inv_step st st' : hs_inv st -> hs_step lat st = Some st' -> hs_inv st'.
Proof.
  destruct st as [now next q sent]. intros (n & Hn & Hsent & Hnow & Hs & Hge & Ht) Hstep.
  cbn [hs_now hs_next hs_queue hs_sent] in *. subst next.
  unfold hs_step in Hstep. cbn [hs_queue] in Hstep. destruct q as [|[t ev] q]; [done|].
  injection Hstep as <-. apply StronglySorted_inv in Hs as [Hs Hall].
  assert (Hq : forall y, y ∈ q -> t <= y.1).
  { intros y Hy. eapply Forall_forall in Hall; [exact Hall|done]. }
  assert (Htq : timers q = [] \/ timers q = [(S n * retry_interval, Timeout n)]).
  { destruct ev; unfold timers in *; [rewrite filter_cons_True in Ht by done|rewrite filter_cons_False in Ht by done];
      [destruct Ht as [Ht|Ht]; simplify_eq; by left|done]. }
  pose proof (Hge (t, ev) ltac:(left)) as Ht0. simpl in Ht0.
  destruct ev as [i|i].
  - unfold timers in Ht. rewrite filter_cons_True in Ht by done.
    destruct Ht as [Ht|Ht]; [done|]. injection Ht as -> -> Ht.
    apply (hs_inv_retry (S n)); done.
  - exists n. cbn [hs_now hs_next hs_queue hs_sent]. split_and!; try done; [lia| |..].
    + by apply ssorted_filter.
    + intros y Hy. apply list_elem_of_filter in Hy as [_ Hy]. by apply Hq.
    + rewrite timers_clear. destruct Htq as [-> | ->]; [by left|]. rewrite filter_cons.
      case_decide; [by right|by left].
Qed.

Lemma hs_inv_run m st : hs_inv st -> hs_inv (run lat m st).
Proof.
  revert st. induction m as [|m IH]; intros st Hst; simpl; [done|].
  destruct (hs_step lat st) eqn:E; [|done]. apply IH. by eapply hs_inv_step.
Qed.

Lemma hs_inv_onload : hs_inv (onload lat).
Proof.
  apply (hs_inv_retry 0 0 [] [] eq_refl eq_refl); [constructor|set_solver|done].
Qed.
End Bound.

Lemma length_sends_upto n : length (sends_upto n) = n.
Proof. unfold sends_upto. by rewrite length_map, length_seq. Qed.


(** ** The handshake's termination *)

(** C30. When every acknowledgement comes at least one interval after its
    message, or never, the handshake never stops: for every [n] the
    [n]-th call of [retry()] happens, [n] seconds after [onload], and its
    timer is pending.  A late acknowledgement clears the timer of its own
    call, which has already fired; the timer armed by the next call is
    untouched (spec section 5 says the loop runs until acknowledged). *)
Theorem handshake_never_stops_when_late lat :
  (forall i d, lat i = Some d -> retry_interval <= d) ->
  forall n, exists m,
    (run lat m (onload lat)).(hs_sent) = sends_upto (S n) /\
    exists t, (t, Timeout n) ∈ (run lat m (onload lat)).(hs_queue).
Proof.
  intros Hl n. destruct (reach lat n) as (m & q1 & q2 & (_ & Hs & Hq & _) & _).
  { intros i _ d. apply Hl. }
  exists m. split; [done|]. rewrite Hq. eexists. apply elem_of_app. right. by left.
Qed.

Lemma handshake_never_stops_when_late_witness :
  exists m, (run lat_slow m (onload lat_slow)).(hs_sent) = sends_upto 4 /\
    exists t, (t, Timeout 3) ∈ (run lat_slow m (onload lat_slow)).(hs_queue).
Proof.
  apply (handshake_never_stops_when_late lat_slow).
  intros i d Hd. injection Hd as <-. unfold retry_interval. lia.
Defined.

(** C31. The handshake stops after the first call whose message is
    acknowledged within the interval, when every earlier one was
    acknowledged late or never: that acknowledgement clears the pending
    timer, the queue drains, and exactly [k + 1] messages were sent, one per
    second from [onload] on. *)
Theorem handshake_stops_after_prompt_ack lat k d :
  (forall i d', i < k -> lat i = Some d' -> retry_interval <= d') ->
  lat k = Some d -> d < retry_interval ->
  exists m, hs_step lat (run lat m (onload lat)) = None /\
            (run lat m (onload lat)).(hs_sent) = sends_upto (S k).
Proof.
  intros Hl Hk Hd. destruct (reach lat k) as (m & q1 & q2 & Hsh & _ & Hp).
  { intros i Hi d'. by apply Hl. }
  destruct (shape_stop lat k _ q1 q2 Hsh) as (m' & Hstep & Hsent); [apply Hp; by exists d|].
  exists (m + m'). rewrite run_add. split; [done|]. rewrite Hsent. apply Hsh.
Qed.

Lemma handshake_stops_after_prompt_ack_witness :
  exists m, hs_step lat_third (run lat_third m (onload lat_third)) = None /\
            (run lat_third m (onload lat_third)).(hs_sent) = sends_upto 3.
Proof.
  apply (handshake_stops_after_prompt_ack lat_third 2 10).
  - intros i d' Hi. unfold lat_third. rewrite decide_True by done. done.
  - reflexivity.
  - unfold retry_interval. lia.
Defined.

(** C37. Whatever the background answers, and whenever, the sandbox sends
    at most one ["sandboxOnload"] per second: after any number of turns of
    the event loop the [k]-th message went out exactly [k] seconds after
    [onload], and at clock time [t] at most [t / 1000 + 1] messages have
    been sent. *)
Theorem handshake_send_rate lat m :
  (run lat m (onload lat)).(hs_sent) = sends_upto (length (run lat m (onload lat)).(hs_sent)) /\
  length (run lat m (onload lat)).(hs_sent) <= (run lat m (onload lat)).(hs_now) / retry_interval + 1.
Proof.
  destruct (hs_inv_run lat m _ (hs_inv_onload lat)) as (n & _ & -> & Hnow & _).
  rewrite length_sends_upto. split; [done|].
  pose proof (Nat.Div0.div_le_mono _ _ retry_interval Hnow) as H.
  rewrite Nat.div_mul in H by done. lia.
Qed.

End Sandbox.
